(** * covid19-javascript-data-fetcher: the [App] class of [src/app.js]

    A shallow embedding of the retrieval-and-aggregation pipeline:
    [downloadCsvFile] (backward date probing), [setRowsData],
    [createCountryObjects], [populateCountryObjects] with its local
    [getCaseCount], [saveDataToDb] and the sequencing in [init].

    Modelling conventions.
    - JavaScript Numbers holding case counts are doubles.  Those the program
      forms are integers or infinities, kept in [Z]: an integer as itself,
      [Infinity] as 2^1024; parsing and every addition round to the nearest
      double ([Js.round]).  [NaN] is [None], and [-0] is [0].
    - JavaScript strings are [string]s over 8-bit code units.
    - [this] and the outside world (staging directory, console, database
      collaborator) are one explicit state record threaded through a small
      monad of exceptions and of promises that never settle; [await] is
      sequencing.
    - Third-party libraries are modelled by what [App] observes of them:
      csvtojson by the rows it yields for a staged file, Axios and the write
      stream by the outcome of a GET per URL, Moment by calendar arithmetic on
      the day the clock shows when it is read.
    - What the run cannot decide is given from outside: the source's answers
      and the database's rejections ([Env]), and the clock and the file
      system's consent ([Host]). *)

From Stdlib Require Import ZArith Ascii String List Lia.
From stdpp Require Import base option list strings gmap pretty.

Local Open Scope string_scope.
Local Open Scope Z_scope.

(** ** JavaScript values read out of a parsed CSV row *)

Module Js.

(** A property read on a row yields the cell text, or [undefined] when the
    column is absent. *)
Inductive Value :=
  | Undefined
  | Str (s : string).

#[global] Instance Value_eq_dec : EqDecision Value.
Proof. solve_decision. Defined.

(** The abstract operation ToString on the two kinds of value above. *)
Definition ToString (v : Value) : string :=
  match v with
  | Undefined => "undefined"
  | Str s => s
  end.

(** [String(array)]: the elements joined with a comma; used when an array is
    a property key, as in [row[[Constants.COL_DEATHS]]]. *)
Definition ArrayToString (a : list string) : string := String.concat "," a.

Definition code (c : ascii) : Z := Z.of_N (N_of_ascii c).

(** WhiteSpace and LineTerminator code units below 256. *)
Definition isWhiteSpace (c : ascii) : bool :=
  let n := code c in
  (9 <=? n) && (n <=? 13) || (n =? 32) || (n =? 160).

Fixpoint trimStart (s : string) : string :=
  match s with
  | String c s' => if isWhiteSpace c then trimStart s' else s
  | EmptyString => s
  end.

(** Value of a code unit read as a digit: 0-9, then a-z and A-Z for 10-35. *)
Definition digitValue (c : ascii) : option Z :=
  let n := code c in
  if (48 <=? n) && (n <=? 57) then Some (n - 48)
  else if (97 <=? n) && (n <=? 122) then Some (n - 87)
  else if (65 <=? n) && (n <=? 90) then Some (n - 55)
  else None.

Definition radixDigit (R : Z) (c : ascii) : option Z :=
  match digitValue c with
  | Some d => if d <? R then Some d else None
  | None => None
  end.

(** The longest prefix of radix-[R] digits, read as a number; [None] when
    that prefix is empty.  [acc] is the value of the digits read so far. *)
Fixpoint parseDigits (R : Z) (s : string) (acc : option Z) : option Z :=
  match s with
  | String c s' =>
      match radixDigit R c with
      | Some d => parseDigits R s' (Some (default 0 acc * R + d))
      | None => acc
      end
  | EmptyString => acc
  end.

Definition stripSign (s : string) : Z * string :=
  match s with
  | String c s' =>
      if decide (c = "-"%char) then (-1, s')
      else if decide (c = "+"%char) then (1, s')
      else (1, s)
  | EmptyString => (1, s)
  end.

Definition hasHexPrefix (s : string) : bool :=
  String.prefix "0x" s || String.prefix "0X" s.

(** Radix detection of [parseInt] called without a radix: 16 after a [0x] or
    [0X] prefix, which is dropped, and 10 otherwise. *)
Definition stripPrefix (s : string) : Z * string :=
  if hasHexPrefix s then
    (16, match s with String _ (String _ s') => s' | _ => s end)
  else (10, s).

(** *** Numbers

    A Number other than NaN is kept as the integer it equals; [Infinity] is
    [INF], the first power of two beyond the finite doubles, and [-Infinity]
    its opposite. *)
Definition INF : Z := 2 ^ 1024.

(** The double nearest to an integer: the integer itself up to 2^53 in
    magnitude; beyond, its 53 leading bits, the rest rounded to nearest with
    ties to the even significand; an infinity when that reaches 2^1024. *)
Definition round (n : Z) : Z :=
  let a := Z.abs n in
  if a <? 2 ^ 53 then n
  else
    let e := Z.log2 a - 52 in
    let q := a / 2 ^ e in
    let r := a mod 2 ^ e in
    let half := 2 ^ (e - 1) in
    let q := if (half <? r) || ((r =? half) && Z.odd q) then q + 1 else q in
    let v := q * 2 ^ e in
    Z.sgn n * (if INF <=? v then INF else v).

(** [a + b] for two Numbers that are integers or infinities of one sign (the
    sum of the two opposite infinities, NaN, is not formed by this program:
    its counts are never negative). *)
Definition add (a b : Z) : Z := round (a + b).

(** [parseInt(v)] with one argument: the double nearest to the integer read;
    [None] is NaN.  (For a decimal text of more than 20 significant digits
    the standard lets an engine read the later digits as zeros; Node's does
    not, and neither does this definition.) *)
Definition parseInt (v : Value) : option Z :=
  let '(sign, s1) := stripSign (trimStart (ToString v)) in
  let '(R, s2) := stripPrefix s1 in
  match parseDigits R s2 None with
  | Some n => Some (round (sign * n))
  | None => None
  end.

(** *** Property keys *)

Fixpoint allDigits (s : string) : bool :=
  match s with
  | String c s' => (48 <=? code c) && (code c <=? 57) && allDigits s'
  | EmptyString => true
  end.

(** The array index a property key spells, if it spells one: the canonical
    decimal form (no sign, no leading zero but for ["0"]) of an integer from
    0 to 2^32 - 2. *)
Definition arrayIndex (k : string) : option Z :=
  match k with
  | String c k' =>
      if allDigits k && (negb (code c =? 48) || bool_decide (k' = "")) then
        match parseDigits 10 k None with
        | Some n => if n <=? 4294967294 then Some n else None
        | None => None
        end
      else None
  | EmptyString => None
  end.

End Js.

(** ** Rows and constants *)

(** One object of the array csvtojson yields: column name to cell text. *)
Definition RawRow := gmap string string.

Definition row_get (row : RawRow) (key : string) : Js.Value :=
  match row !! key with
  | Some s => Js.Str s
  | None => Js.Undefined
  end.

(** Modelled from the spec: the URL template of [constants.js], a text with
    the one directive [%s] where the file name goes.  It is kept as the text
    sprintf-js puts out before the file name and the text it puts out after
    it. *)
Record Template := {
  text_before : string;
  text_after : string;
}.

(** [constants.js] is not part of the sources at hand; its exported values are
    a record the model is parameterised by. *)
Record ConstantsT := {
  DATA_URL : Template;
  DATA_DIR : string;
  COL_COUNTRY : string;
  COL_DEATHS : string;
  COL_CONFIRMED : string;
  COL_ACTIVE : string;
  COL_RECOVERED : string;
  COL_LAST_UPDATE : string;
  WORLDWIDE : string;
}.

(** The function local to [populateCountryObjects].  Its callers pass the
    column name wrapped in an array.  The value is a double: an integer that
    is not negative, or [Js.INF]. *)
Definition getCaseCount (row : RawRow) (columnName : list string) : Z :=
  let caseValue := Js.parseInt (row_get row (Js.ArrayToString columnName)) in
  let caseValue := match caseValue with None => 0 | Some n => n end in
  let caseValue := if caseValue <? 0 then Z.abs caseValue else caseValue in
  caseValue.


(** ** Country accumulators and the [countryObjects] object *)

(** The [Date] of [getLastUpdatedBySourceTime]: built from the calendar
    fields Moment reads off [dateString], so a function of that cell alone.
    The conversion is kept symbolic. *)
Inductive JsDate :=
  | DateUTC (dateString : Js.Value).

(** Modelled from the spec: the [Country] class of [country.js], an
    accumulator identified by a name, with four counters that start at 0 and
    change only through additive increments ([+=] on Numbers), and a
    last-updated timestamp. *)
Record Country := {
  name : Js.Value;
  confirmed : Z;
  deaths : Z;
  recovered : Z;
  active : Z;
  lastUpdatedBySourceAt : option JsDate;
}.

Definition new_Country : Country :=
  {| name := Js.Str ""; confirmed := 0; deaths := 0; recovered := 0;
     active := 0; lastUpdatedBySourceAt := None |}.

Definition setName (n : Js.Value) (c : Country) : Country :=
  {| name := n; confirmed := confirmed c; deaths := deaths c;
     recovered := recovered c; active := active c;
     lastUpdatedBySourceAt := lastUpdatedBySourceAt c |}.

Definition getName (c : Country) : Js.Value := name c.

Definition setLastUpdatedBySourceAt (d : JsDate) (c : Country) : Country :=
  {| name := name c; confirmed := confirmed c; deaths := deaths c;
     recovered := recovered c; active := active c;
     lastUpdatedBySourceAt := Some d |}.

Definition incrementConfirmed (n : Z) (c : Country) : Country :=
  {| name := name c; confirmed := Js.add (confirmed c) n; deaths := deaths c;
     recovered := recovered c; active := active c;
     lastUpdatedBySourceAt := lastUpdatedBySourceAt c |}.

Definition incrementDeaths (n : Z) (c : Country) : Country :=
  {| name := name c; confirmed := confirmed c; deaths := Js.add (deaths c) n;
     recovered := recovered c; active := active c;
     lastUpdatedBySourceAt := lastUpdatedBySourceAt c |}.

Definition incrementRecovered (n : Z) (c : Country) : Country :=
  {| name := name c; confirmed := confirmed c; deaths := deaths c;
     recovered := Js.add (recovered c) n; active := active c;
     lastUpdatedBySourceAt := lastUpdatedBySourceAt c |}.

Definition incrementActive (n : Z) (c : Country) : Country :=
  {| name := name c; confirmed := confirmed c; deaths := deaths c;
     recovered := recovered c; active := Js.add (active c) n;
     lastUpdatedBySourceAt := lastUpdatedBySourceAt c |}.

(** [this.countryObjects]: a plain object used as a map from country name to
    [Country].  Own properties are kept in the order of their creation;
    [Object_values] below lists them in the order JavaScript does.  Assigning
    to the key [__proto__] of a plain object stores no own property: it
    replaces the object's prototype, and reading that key gives the prototype
    back. *)
Record JsObject := {
  own : list (string * Country);
  proto : option Country;
}.

Definition empty_object : JsObject := {| own := []; proto := None |}.

Fixpoint assoc_get (l : list (string * Country)) (k : string) : option Country :=
  match l with
  | [] => None
  | (k', c) :: l' => if decide (k' = k) then Some c else assoc_get l' k
  end.

(** Assignment to a key: in place when the key is there; otherwise a new
    property is created, the youngest. *)
Fixpoint assoc_set (l : list (string * Country)) (k : string) (c : Country)
  : list (string * Country) :=
  match l with
  | [] => [(k, c)]
  | (k', c') :: l' =>
      if decide (k' = k) then (k, c) :: l' else (k', c') :: assoc_set l' k c
  end.

(** [o[k]], when it is a [Country]; [None] stands for every other outcome
    ([undefined] or an inherited property), on which calling a [Country]
    method raises a TypeError. *)
Definition obj_get (o : JsObject) (k : string) : option Country :=
  if decide (k = "__proto__") then proto o else assoc_get (own o) k.

(** [o[k] = c]. *)
Definition obj_set (o : JsObject) (k : string) (c : Country) : JsObject :=
  if decide (k = "__proto__") then {| own := own o; proto := Some c |}
  else {| own := assoc_set (own o) k c; proto := proto o |}.

(** The order in which the own properties are listed: those whose key is an
    array index first, by ascending index, then the others by creation. *)
Fixpoint insert_index (n : Z) (kc : string * Country)
    (l : list (string * Country)) : list (string * Country) :=
  match l with
  | [] => [kc]
  | kc' :: l' =>
      match Js.arrayIndex kc'.1 with
      | Some n' => if n <? n' then kc :: l else kc' :: insert_index n kc l'
      | None => kc :: l
      end
  end.

Fixpoint index_entries (l : list (string * Country))
  : list (string * Country) :=
  match l with
  | [] => []
  | kc :: l' =>
      match Js.arrayIndex kc.1 with
      | Some n => insert_index n kc (index_entries l')
      | None => index_entries l'
      end
  end.

Fixpoint other_entries (l : list (string * Country))
  : list (string * Country) :=
  match l with
  | [] => []
  | kc :: l' =>
      match Js.arrayIndex kc.1 with
      | Some _ => other_entries l'
      | None => kc :: other_entries l'
      end
  end.

Definition Object_entries (o : JsObject) : list (string * Country) :=
  (index_entries (own o) ++ other_entries (own o))%list.

Definition Object_values (o : JsObject) : list Country := (Object_entries o).*2.

(** ** The state threaded through the methods of [App] *)

(** What csvtojson reads from a staged file: its rows, in order. *)
Abbreviation FileContent := (list RawRow).

(** Calls received by the persistence collaborator ([mongodb.js]). *)
Inductive DbCall :=
  | DbConnect
  | DbDropCollection
  | DbInsert (c : Country)
  | DbClose.

Inductive Exception :=
  | TypeError             (* a property read or method call on [undefined] *)
  | RequestFailed         (* the promise of [download] rejected *)
  | ENOENT                (* [unlinkSync] on a path that is not there *)
  | MkdirFailed           (* [mkdirSync] where no directory can be made *)
  | FileDoesNotExist      (* csvtojson [fromFile] on a path that is not there *)
  | DbRejected.           (* a call of the persistence collaborator rejected *)

(** The fields of [this], followed by the outside world: the files of the
    staging directory, the file a write stream is about to open, the
    directories that exist, the console, the URLs requested so far and the
    calls made on the database collaborator. *)
Record State := {
  csvFileName : string;
  csvRows : list RawRow;
  countryObjects : JsObject;
  totalDeaths : Z;
  totalActive : Z;
  totalRecovered : Z;
  totalConfirmed : Z;
  files : gmap string FileContent;
  opening : option string;
  dirs : gset string;
  console : list string;
  requests : list string;
  db : list DbCall;
}.

(** The state the constructor leaves, in a given outside world. *)
Definition new_App (fs : gmap string FileContent) (ds : gset string) : State :=
  {| csvFileName := ""; csvRows := []; countryObjects := empty_object;
     totalDeaths := 0; totalActive := 0; totalRecovered := 0;
     totalConfirmed := 0;
     files := fs; opening := None; dirs := ds; console := []; requests := [];
     db := [] |}.

Definition set_csvFileName (v : string) (s : State) : State :=
  {| csvFileName := v; csvRows := csvRows s;
     countryObjects := countryObjects s; totalDeaths := totalDeaths s;
     totalActive := totalActive s; totalRecovered := totalRecovered s;
     totalConfirmed := totalConfirmed s; files := files s;
     opening := opening s; dirs := dirs s; console := console s;
     requests := requests s; db := db s |}.

Definition set_csvRows (v : list RawRow) (s : State) : State :=
  {| csvFileName := csvFileName s; csvRows := v;
     countryObjects := countryObjects s; totalDeaths := totalDeaths s;
     totalActive := totalActive s; totalRecovered := totalRecovered s;
     totalConfirmed := totalConfirmed s; files := files s;
     opening := opening s; dirs := dirs s; console := console s;
     requests := requests s; db := db s |}.

Definition set_countryObjects (v : JsObject) (s : State) : State :=
  {| csvFileName := csvFileName s; csvRows := csvRows s;
     countryObjects := v; totalDeaths := totalDeaths s;
     totalActive := totalActive s; totalRecovered := totalRecovered s;
     totalConfirmed := totalConfirmed s; files := files s;
     opening := opening s; dirs := dirs s; console := console s;
     requests := requests s; db := db s |}.

(** The four [this.totalX += x] of one row, in one step. *)
Definition add_totals (d c a r : Z) (s : State) : State :=
  {| csvFileName := csvFileName s; csvRows := csvRows s;
     countryObjects := countryObjects s;
     totalDeaths := Js.add (totalDeaths s) d;
     totalActive := Js.add (totalActive s) a;
     totalRecovered := Js.add (totalRecovered s) r;
     totalConfirmed := Js.add (totalConfirmed s) c; files := files s;
     opening := opening s; dirs := dirs s; console := console s;
     requests := requests s; db := db s |}.

Definition set_files (v : gmap string FileContent) (s : State) : State :=
  {| csvFileName := csvFileName s; csvRows := csvRows s;
     countryObjects := countryObjects s; totalDeaths := totalDeaths s;
     totalActive := totalActive s; totalRecovered := totalRecovered s;
     totalConfirmed := totalConfirmed s; files := v;
     opening := opening s; dirs := dirs s; console := console s;
     requests := requests s; db := db s |}.

Definition set_opening (v : option string) (s : State) : State :=
  {| csvFileName := csvFileName s; csvRows := csvRows s;
     countryObjects := countryObjects s; totalDeaths := totalDeaths s;
     totalActive := totalActive s; totalRecovered := totalRecovered s;
     totalConfirmed := totalConfirmed s; files := files s; opening := v;
     dirs := dirs s; console := console s; requests := requests s;
     db := db s |}.

Definition set_dirs (v : gset string) (s : State) : State :=
  {| csvFileName := csvFileName s; csvRows := csvRows s;
     countryObjects := countryObjects s; totalDeaths := totalDeaths s;
     totalActive := totalActive s; totalRecovered := totalRecovered s;
     totalConfirmed := totalConfirmed s; files := files s;
     opening := opening s; dirs := v; console := console s;
     requests := requests s; db := db s |}.

Definition set_console (v : list string) (s : State) : State :=
  {| csvFileName := csvFileName s; csvRows := csvRows s;
     countryObjects := countryObjects s; totalDeaths := totalDeaths s;
     totalActive := totalActive s; totalRecovered := totalRecovered s;
     totalConfirmed := totalConfirmed s; files := files s;
     opening := opening s; dirs := dirs s;
     console := v; requests := requests s; db := db s |}.

Definition set_requests (v : list string) (s : State) : State :=
  {| csvFileName := csvFileName s; csvRows := csvRows s;
     countryObjects := countryObjects s; totalDeaths := totalDeaths s;
     totalActive := totalActive s; totalRecovered := totalRecovered s;
     totalConfirmed := totalConfirmed s; files := files s;
     opening := opening s; dirs := dirs s;
     console := console s; requests := v; db := db s |}.

Definition set_db (v : list DbCall) (s : State) : State :=
  {| csvFileName := csvFileName s; csvRows := csvRows s;
     countryObjects := countryObjects s; totalDeaths := totalDeaths s;
     totalActive := totalActive s; totalRecovered := totalRecovered s;
     totalConfirmed := totalConfirmed s; files := files s;
     opening := opening s; dirs := dirs s;
     console := console s; requests := requests s; db := v |}.

(** ** A monad of state, exceptions and promises that never settle *)

Inductive Result (A : Type) :=
  | Ok (a : A) (s : State)
  | Throw (e : Exception) (s : State)
  | Hang (s : State).       (* an awaited promise never settles: the run
                               goes no further *)
Arguments Ok {A} a s.
Arguments Throw {A} e s.
Arguments Hang {A} s.

Definition M (A : Type) : Type := State -> Result A.

Definition ret {A} (a : A) : M A := fun s => Ok a s.

Definition bind {A B} (m : M A) (k : A -> M B) : M B :=
  fun s =>
    match m s with
    | Ok a s' => k a s'
    | Throw e s' => Throw e s'
    | Hang s' => Hang s'
    end.

Definition throw {A} (e : Exception) : M A := fun s => Throw e s.

(** [await] on a promise that never settles. *)
Definition pending {A} : M A := fun s => Hang s.

(** [try { m } catch { h }]. *)
Definition try_catch {A} (m : M A) (h : M A) : M A :=
  fun s =>
    match m s with
    | Ok a s' => Ok a s'
    | Throw _ s' => h s'
    | Hang s' => Hang s'
    end.

Definition get {A} (f : State -> A) : M A := fun s => Ok (f s) s.
Definition modify (f : State -> State) : M unit := fun s => Ok tt (f s).

#[global] Instance M_ret : MRet M := @ret.
#[global] Instance M_bind : MBind M := fun A B k m => bind m k.

(** [l.forEach(f)], and [for (const x of l) await f(x)]. *)
Fixpoint forEach {A} (f : A -> M unit) (l : list A) : M unit :=
  match l with
  | [] => ret tt
  | x :: l' => (f x : M unit);; forEach f l'
  end.

(** The state a run ends in, however it ends. *)
Definition final {A} (r : Result A) : State :=
  match r with
  | Ok _ s => s
  | Throw _ s => s
  | Hang s => s
  end.

Definition console_log (line : string) : M unit :=
  modify (fun s => set_console (console s ++ [line]) s).

(** ** Moment: calendar days *)

Module Moment.

(** A moment is kept as its local calendar day, counted from 1970-01-01;
    [subtract(i, 'days')] moves it back by [i] calendar days. *)
Definition subtract (m : Z) (i : Z) : Z := m - i.

(** Year, month and day of the proleptic Gregorian calendar. *)
Definition civil (m : Z) : Z * Z * Z :=
  let z := m + 719468 in
  let era := z / 146097 in
  let doe := z - era * 146097 in
  let yoe := (doe - doe / 1460 + doe / 36524 - doe / 146096) / 365 in
  let doy := doe - (365 * yoe + yoe / 4 - yoe / 100) in
  let mp := (5 * doy + 2) / 153 in
  let d := doy - (153 * mp + 2) / 5 + 1 in
  let mo := if mp <? 10 then mp + 3 else mp - 9 in
  let y := yoe + era * 400 + (if mo <=? 2 then 1 else 0) in
  (y, mo, d).

Definition digit (n : Z) : ascii := ascii_of_N (Z.to_N (48 + n mod 10)).

Definition pad2 (n : Z) : string :=
  String (digit (n / 10)) (String (digit n) EmptyString).

Definition pad4 (n : Z) : string :=
  String (digit (n / 1000)) (String (digit (n / 100)) (pad2 n)).

(** [format('MM-DD-YYYY')], for the years 0000 to 9999. *)
Definition format_MM_DD_YYYY (m : Z) : string :=
  let '(y, mo, d) := civil m in
  pad2 mo ++ "-" ++ pad2 d ++ "-" ++ pad4 y.

End Moment.

(** [sprintf(fmt, arg)] of sprintf-js on a template: the argument takes the
    place of the directive. *)
Definition sprintf (fmt : Template) (arg : string) : string :=
  text_before fmt ++ arg ++ text_after fmt.

(** ** The environment of a run *)

(** Outcome of one GET whose response is piped into the write stream opened
    just before it:
    - [Fetched body]: the body was written whole and the stream finished;
    - [Failed partial]: the request was rejected, or the stream reported an
      error, once the stream had opened its file; the file holds [partial]
      (nothing, when it is the request that failed);
    - [FailedBeforeOpen]: the request was rejected before the stream had
      opened its file;
    - [Unsettled partial]: the response began and its body broke off; the
      stream neither finishes nor reports an error, so the promise [download]
      returns never settles, and the file holds [partial]. *)
Inductive Fetch :=
  | Fetched (body : FileContent)
  | Failed (partial : FileContent)
  | FailedBeforeOpen
  | Unsettled (partial : FileContent).

Record Env := {
  constants : ConstantsT;
  dirname : string;                 (* [Path.dirname(__filename)] *)
  now : Z;                          (* the calendar day the run begins on *)
  remote : string -> Fetch;         (* the remote source, per URL *)
  dbRejects : nat -> bool;          (* does the k-th collaborator call reject *)
}.

(** The machine of a run: its clock and its file system's consent. *)
Record Host := {
  elapsed : Z -> Z;           (* calendar days gone by since the run began,
                                 when the iteration of that index reads the
                                 clock *)
  canMkdir : string -> bool;  (* does [Fs.mkdirSync] succeed on that path:
                                 its parent is there and can be written *)
}.

Definition tries : nat := 90.

Section App.

Context (E : Env) (Hst : Host).

Local Abbreviation K := (constants E).

(** *** The staging directory *)

Definition existsSync (path : string) : M bool :=
  get (fun s => bool_decide (path ∈ dirs s)).

(** [Fs.mkdirSync(path)], which makes one directory and no parent. *)
Definition mkdirSync (path : string) : M unit :=
  fun s =>
    if canMkdir Hst path then Ok tt (set_dirs ({[path]} ∪ dirs s) s)
    else Throw MkdirFailed s.

(** The open a write stream has asked for completes: its file is there,
    empty. *)
Definition land (s : State) : State :=
  match opening s with
  | Some path => set_opening None (set_files (<[path := []]> (files s)) s)
  | None => s
  end.

(** [Fs.createWriteStream(path)]: the stream asks for its file to be opened
    (created, or emptied) and returns at once; the open completes later.  An
    open asked for by an earlier stream has completed by now. *)
Definition createWriteStream (path : string) : M unit :=
  modify (fun s => set_opening (Some path) (land s)).

(** What the stream has written to its file. *)
Definition write (path : string) (content : FileContent) : M unit :=
  modify (fun s => set_files (<[path := content]> (files s)) s).

Definition unlinkSync (path : string) : M unit :=
  fun s =>
    match files s !! path with
    | Some _ => Ok tt (set_files (delete path (files s)) s)
    | None => Throw ENOENT s
    end.

Definition pathOf (fileName : string) : string :=
  dirname E ++ "/" ++ DATA_DIR K ++ "/" ++ fileName.

(** *** [download] *)

Definition download (url : string) : M unit :=
  fileName ← get csvFileName;
  let pathDataFile := pathOf fileName in
  createWriteStream pathDataFile;;
  modify (fun s => set_requests (requests s ++ [url]) s);;
  match remote E url with
  | FailedBeforeOpen => throw RequestFailed
  | Failed partial =>
      modify land;; write pathDataFile partial;; throw RequestFailed
  | Fetched body =>
      modify land;; write pathDataFile body
  | Unsettled partial =>
      modify land;; write pathDataFile partial;; pending
  end.

(** *** [downloadCsvFile] *)

(** [Moment()] in the iteration of index [i]: the calendar day then. *)
Definition today (i : Z) : Z := now E + elapsed Hst i.

Definition fileNameOf (i : Z) : string :=
  Moment.format_MM_DD_YYYY (Moment.subtract (today i) i) ++ ".csv".

Definition urlOf (i : Z) : string := sprintf (DATA_URL K) (fileNameOf i).

(** The [for] loop from index [i] on, with [n] iterations left.  The result
    tells whether the method has returned from inside the loop. *)
Fixpoint downloadCsvFile_loop (n : nat) (i : Z) : M bool :=
  match n with
  | O => ret false
  | S n' =>
      let date_string := Moment.format_MM_DD_YYYY (Moment.subtract (today i) i) in
      modify (set_csvFileName (date_string ++ ".csv"));;
      fileName ← get csvFileName;
      let url := sprintf (DATA_URL K) fileName in
      returned ← try_catch
        (download url;;
         console_log ("Download completed: " ++ fileName);;
         ret true)
        (fileName ← get csvFileName;
         let pathFileToDelete := dirname E ++ "/" ++ DATA_DIR K ++ "/" ++ fileName in
         unlinkSync pathFileToDelete;;
         ret false);
      if (returned : bool) then ret true
      else downloadCsvFile_loop n' (i + 1)
  end.

Definition downloadCsvFile : M unit :=
  let pathDataDir := dirname E ++ "/" ++ DATA_DIR K in
  there ← existsSync pathDataDir;
  (if (there : bool) then ret tt else mkdirSync pathDataDir);;
  returned ← downloadCsvFile_loop tries 0;
  if (returned : bool) then ret tt
  else console_log
         ("Download failed: Unable to find the latest csv file for the last "
          ++ pretty tries ++ " days").

(** *** [getCountryNamesArray] *)

(** [[...new Set(a)]]: the first occurrence of every value, in order. *)
Fixpoint uniq (seen : list Js.Value) (a : list Js.Value) : list Js.Value :=
  match a with
  | [] => []
  | v :: a' =>
      if decide (v ∈ seen) then uniq seen a' else v :: uniq (v :: seen) a'
  end.

Definition getCountryNamesArray (s : State) : list Js.Value :=
  let countryNames := map (fun row => row_get row (COL_COUNTRY K)) (csvRows s) in
  let countryNames := (countryNames ++ [Js.Str (WORLDWIDE K)])%list in
  uniq [] countryNames.

(** *** [getLastUpdatedBySourceTime] *)

Definition getLastUpdatedBySourceTime : M JsDate :=
  rows ← get csvRows;
  match rows with
  | [] => throw TypeError          (* [this.csvRows[0]] is [undefined] *)
  | row :: _ => ret (DateUTC (row_get row (COL_LAST_UPDATE K)))
  end.

(** *** [createCountryObjects] *)

Definition createCountryObjects : M unit :=
  countryNames ← get getCountryNamesArray;
  lastUpdatedBySourceTime ← getLastUpdatedBySourceTime;
  forEach (fun countryName =>
    let country := new_Country in
    let country := setName countryName country in
    let country := setLastUpdatedBySourceAt lastUpdatedBySourceTime country in
    modify (fun s =>
      set_countryObjects
        (obj_set (countryObjects s) (Js.ToString (getName country)) country) s))
    countryNames.

(** *** [setRowsData] *)

(** csvtojson reads the file once the awaited promise is taken up again; an
    open still under way has completed by then. *)
Definition setRowsData : M unit :=
  fileName ← get csvFileName;
  let pathDataFile := pathOf fileName in
  modify land;;
  fs ← get files;
  match fs !! pathDataFile with
  | Some rows => modify (set_csvRows rows)
  | None => throw FileDoesNotExist
  end.

(** *** [populateCountryObjects] *)

(** A method call on the object read from [this.countryObjects[key]]; the
    object is shared, so the store sees the change. *)
Definition call_on (key : string) (method : Country -> Country) : M unit :=
  o ← get countryObjects;
  match obj_get o key with
  | Some country => modify (set_countryObjects (obj_set o key (method country)))
  | None => throw TypeError
  end.

Definition populate_row (row : RawRow) : M unit :=
  let countryName := row_get row (COL_COUNTRY K) in
  let deaths := getCaseCount row [COL_DEATHS K] in
  let confirmed := getCaseCount row [COL_CONFIRMED K] in
  let active := getCaseCount row [COL_ACTIVE K] in
  let recovered := getCaseCount row [COL_RECOVERED K] in
  modify (add_totals deaths confirmed active recovered);;
  let key := Js.ToString countryName in
  call_on key (incrementDeaths deaths);;
  call_on key (incrementConfirmed confirmed);;
  call_on key (incrementActive active);;
  call_on key (incrementRecovered recovered).

Definition populateCountryObjects : M unit :=
  rows ← get csvRows;
  forEach populate_row rows;;
  totalDeaths ← get totalDeaths;
  totalConfirmed ← get totalConfirmed;
  totalActive ← get totalActive;
  totalRecovered ← get totalRecovered;
  call_on (WORLDWIDE K) (incrementDeaths totalDeaths);;
  call_on (WORLDWIDE K) (incrementConfirmed totalConfirmed);;
  call_on (WORLDWIDE K) (incrementActive totalActive);;
  call_on (WORLDWIDE K) (incrementRecovered totalRecovered).

(** *** [saveDataToDb] *)

(** Modelled from the spec: the persistence collaborator of [mongodb.js], an
    opaque sink with [connect], [dropCollection], [insert] and [close]; each
    call is recorded, and rejects when the environment says so. *)
Definition dbCall (c : DbCall) : M unit :=
  fun s =>
    let s' := set_db (db s ++ [c]) s in
    if dbRejects E (length (db s)) then Throw DbRejected s' else Ok tt s'.

Definition saveDataToDb : M unit :=
  dbCall DbConnect;;
  dbCall DbDropCollection;;
  values ← get (fun s => Object_values (countryObjects s));
  forEach (fun value => dbCall (DbInsert value)) values;;
  dbCall DbClose.

(** *** [init] *)

Definition init : M unit :=
  console_log "Downloading data...";;
  downloadCsvFile;;
  console_log "Saving data to database...";;
  setRowsData;;
  createCountryObjects;;
  populateCountryObjects;;
  saveDataToDb;;
  console_log "Finished".

(** The aggregation stage alone, on rows already read. *)
Definition aggregate (rows : list RawRow) : Result unit :=
  (createCountryObjects;; populateCountryObjects)
    (set_csvRows rows (new_App ∅ ∅)).

End App.

(** ** Vocabulary of the properties *)

(** The four counters of an accumulator. *)
Inductive Counter := Confirmed | Deaths | Recovered | Active.

Definition counter_of (f : Counter) (c : Country) : Z :=
  match f with
  | Confirmed => confirmed c
  | Deaths => deaths c
  | Recovered => recovered c
  | Active => active c
  end.

Definition total_of (f : Counter) (s : State) : Z :=
  match f with
  | Confirmed => totalConfirmed s
  | Deaths => totalDeaths s
  | Recovered => totalRecovered s
  | Active => totalActive s
  end.

Definition column_of (K : ConstantsT) (f : Counter) : string :=
  match f with
  | Confirmed => COL_CONFIRMED K
  | Deaths => COL_DEATHS K
  | Recovered => COL_RECOVERED K
  | Active => COL_ACTIVE K
  end.

(** The key a row's country is filed under in [countryObjects]. *)
Definition country_key (K : ConstantsT) (row : RawRow) : string :=
  Js.ToString (row_get row (COL_COUNTRY K)).

(** Sum of a counter over the own properties whose key is not [w]. *)
Fixpoint sum_others (f : Counter) (w : string) (l : list (string * Country)) : Z :=
  match l with
  | [] => 0
  | (k, c) :: l' =>
      (if decide (k = w) then 0 else counter_of f c) + sum_others f w l'
  end.

(** The worldwide accumulator equals, counter by counter, the sum over the
    other accumulators [Object.values] lists. *)
Definition worldwide_is_sum (K : ConstantsT) (o : JsObject) : Prop :=
  exists cw, obj_get o (WORLDWIDE K) = Some cw /\
    forall f, counter_of f cw = sum_others f (WORLDWIDE K) (own o).

(** Every accumulator reachable from [countryObjects]. *)
Definition accumulators (o : JsObject) : list Country :=
  (match proto o with Some c => [c] | None => [] end ++ Object_values o)%list.

(** The cleaning rule in the words of the design: 0 when no integer was
    parsed, the absolute value of a negative one, the integer otherwise. *)
Definition cleaned (parsed : option Z) : Z :=
  match parsed with
  | None => 0
  | Some n => Z.abs n
  end.

(** The cleaned count of one row in one column, and its sum over rows: the
    sum of the integers, with no rounding. *)
Definition row_count (K : ConstantsT) (f : Counter) (row : RawRow) : Z :=
  getCaseCount row [column_of K f].

Fixpoint all_sum (K : ConstantsT) (f : Counter) (rows : list RawRow) : Z :=
  match rows with
  | [] => 0
  | row :: rows' => row_count K f row + all_sum K f rows'
  end.

(** Up to this bound every integer is a double, and a sum of counts is the
    sum the doubles give. *)
Definition exact_bound : Z := 2 ^ 53.

(** The decimal digits a text starts with, and the integer they spell. *)
Definition isDecimalDigit (c : ascii) : bool :=
  (48 <=? Js.code c) && (Js.code c <=? 57).

Fixpoint leadingDigits (s : string) : list Z :=
  match s with
  | String c s' =>
      if isDecimalDigit c then (Js.code c - 48) :: leadingDigits s' else []
  | EmptyString => []
  end.

Definition decimalValue (ds : list Z) : Z :=
  fold_left (fun acc d => acc * 10 + d) ds 0.

Definition leadingInteger (s : string) : option Z :=
  match leadingDigits s with
  | [] => None
  | ds => Some (decimalValue ds)
  end.

(** The hexadecimal digits a text starts with, and the integer they spell. *)
Definition hexDigit (c : ascii) : option Z :=
  let n := Js.code c in
  if (48 <=? n) && (n <=? 57) then Some (n - 48)
  else if (97 <=? n) && (n <=? 102) then Some (n - 87)
  else if (65 <=? n) && (n <=? 70) then Some (n - 55)
  else None.

Fixpoint leadingHexDigits (s : string) : list Z :=
  match s with
  | String c s' =>
      match hexDigit c with
      | Some d => d :: leadingHexDigits s'
      | None => []
      end
  | EmptyString => []
  end.

Definition hexValue (ds : list Z) : Z :=
  fold_left (fun acc d => acc * 16 + d) ds 0.

Definition leadingHexInteger (s : string) : option Z :=
  match leadingHexDigits s with
  | [] => None
  | ds => Some (hexValue ds)
  end.

(** The accumulator [createCountryObjects] makes for one name, and the
    object it leaves after filing one accumulator per name. *)
Definition blank (d : JsDate) (n : Js.Value) : Country :=
  setLastUpdatedBySourceAt d (setName n new_Country).

Definition file_blanks (d : JsDate) (names : list Js.Value) (o : JsObject)
  : JsObject :=
  fold_left (fun o n => obj_set o (Js.ToString (getName (blank d n))) (blank d n))
    names o.

(** The four increments one row applies to the accumulator of its country. *)
Definition bump (K : ConstantsT) (row : RawRow) (c : Country) : Country :=
  incrementRecovered (getCaseCount row [COL_RECOVERED K])
    (incrementActive (getCaseCount row [COL_ACTIVE K])
       (incrementConfirmed (getCaseCount row [COL_CONFIRMED K])
          (incrementDeaths (getCaseCount row [COL_DEATHS K]) c))).

(** The four increments that close [populateCountryObjects]. *)
Definition bump_totals (s : State) (c : Country) : Country :=
  incrementRecovered (totalRecovered s)
    (incrementActive (totalActive s)
       (incrementConfirmed (totalConfirmed s)
          (incrementDeaths (totalDeaths s) c))).

(** All four counters of an accumulator are zero. *)
Definition at_zero (c : Country) : Prop := forall f, counter_of f c = 0.

(** No running total and no counter of any accumulator is negative. *)
Definition nonneg_state (s : State) : Prop :=
  (forall f, 0 <= total_of f s) /\
  forall c, c ∈ accumulators (countryObjects s) -> forall f, 0 <= counter_of f c.

(** The invariant of the row loop of [populateCountryObjects], with [rows]
    still to come and no sum beyond [exact_bound]: the running totals are the
    sums over the non-worldwide accumulators, no counter is negative, and the
    worldwide accumulator is there, still at zero. *)
Definition totals_in_step (K : ConstantsT) (rows : list RawRow) (s : State)
  : Prop :=
  (forall f, total_of f s = sum_others f (WORLDWIDE K) (own (countryObjects s))) /\
  (forall f, total_of f s + all_sum K f rows <= exact_bound) /\
  Forall (fun kc => forall f, 0 <= counter_of f kc.2) (own (countryObjects s)) /\
  exists cw, obj_get (countryObjects s) (WORLDWIDE K) = Some cw /\ at_zero cw.

(** Every call [saveDataToDb] makes when none is rejected. *)
Definition all_calls (o : JsObject) : list DbCall :=
  ([DbConnect; DbDropCollection] ++ map DbInsert (Object_values o)
   ++ [DbClose])%list.

(** *** States of the probing loop

    Each is given from a state in which no open is under way. *)

(** The state when the request of index [i] has been sent: the file name is
    set and the stream has asked for its file. *)
Definition requested (E : Env) (Hst : Host) (i : Z) (s : State) : State :=
  {| csvFileName := fileNameOf E Hst i; csvRows := csvRows s;
     countryObjects := countryObjects s; totalDeaths := totalDeaths s;
     totalActive := totalActive s; totalRecovered := totalRecovered s;
     totalConfirmed := totalConfirmed s;
     files := files s;
     opening := Some (pathOf E (fileNameOf E Hst i));
     dirs := dirs s; console := console s;
     requests := requests s ++ [urlOf E Hst i]; db := db s |}.

(** The state after the attempt of index [i] failed with its file opened and
    the file was unlinked: the staging directory is as before, less that
    file. *)
Definition attempt_failed (E : Env) (Hst : Host) (i : Z) (s : State) : State :=
  {| csvFileName := fileNameOf E Hst i; csvRows := csvRows s;
     countryObjects := countryObjects s; totalDeaths := totalDeaths s;
     totalActive := totalActive s; totalRecovered := totalRecovered s;
     totalConfirmed := totalConfirmed s;
     files := delete (pathOf E (fileNameOf E Hst i)) (files s);
     opening := None;
     dirs := dirs s; console := console s;
     requests := requests s ++ [urlOf E Hst i]; db := db s |}.

(** The state after the attempt of index [i] wrote [body] and returned. *)
Definition attempt_ok (E : Env) (Hst : Host) (i : Z) (body : FileContent)
    (s : State) : State :=
  {| csvFileName := fileNameOf E Hst i; csvRows := csvRows s;
     countryObjects := countryObjects s; totalDeaths := totalDeaths s;
     totalActive := totalActive s; totalRecovered := totalRecovered s;
     totalConfirmed := totalConfirmed s;
     files := <[pathOf E (fileNameOf E Hst i) := body]> (files s);
     opening := None;
     dirs := dirs s;
     console := console s ++ ["Download completed: " ++ fileNameOf E Hst i];
     requests := requests s ++ [urlOf E Hst i]; db := db s |}.

(** The state in which the attempt of index [i] stays for ever, [partial]
    written and the promise not settled. *)
Definition attempt_stuck (E : Env) (Hst : Host) (i : Z) (partial : FileContent)
    (s : State) : State :=
  {| csvFileName := fileNameOf E Hst i; csvRows := csvRows s;
     countryObjects := countryObjects s; totalDeaths := totalDeaths s;
     totalActive := totalActive s; totalRecovered := totalRecovered s;
     totalConfirmed := totalConfirmed s;
     files := <[pathOf E (fileNameOf E Hst i) := partial]> (files s);
     opening := None;
     dirs := dirs s; console := console s;
     requests := requests s ++ [urlOf E Hst i]; db := db s |}.

(** [m] failed attempts in a row, from index [i] on. *)
Fixpoint fail_range (E : Env) (Hst : Host) (m : nat) (i : Z) (s : State)
  : State :=
  match m with
  | O => s
  | S m' => fail_range E Hst m' (i + 1) (attempt_failed E Hst i s)
  end.

(** The attempts of the indices from [i] on, [m] of them, all fail with
    their file opened. *)
Definition all_fail_opened (E : Env) (Hst : Host) (i : Z) (m : nat) : Prop :=
  forall j, i <= j < i + Z.of_nat m ->
    exists partial, remote E (urlOf E Hst j) = Failed partial.

Definition pathDataDir (E : Env) : string :=
  dirname E ++ "/" ++ DATA_DIR (constants E).

(** The staging directory is there, or can be made. *)
Definition dir_ready (E : Env) (Hst : Host) (s : State) : Prop :=
  pathDataDir E ∈ dirs s \/ canMkdir Hst (pathDataDir E) = true.

(** The state once the staging directory is known to exist. *)
Definition with_data_dir (E : Env) (s : State) : State :=
  if bool_decide (pathDataDir E ∈ dirs s) then s
  else set_dirs ({[pathDataDir E]} ∪ dirs s) s.

Definition failure_line : string :=
  "Download failed: Unable to find the latest csv file for the last 90 days".

(** The loop indices [i, i+1, ..., i+m-1], and those of a loop from 0. *)
Fixpoint candidates (i : Z) (m : nat) : list Z :=
  match m with
  | O => []
  | S m' => i :: candidates (i + 1) m'
  end.

Definition indices (n : nat) : list Z := candidates 0 n.

(** The clock shows one calendar day throughout the first [n] iterations. *)
Definition same_day (Hst : Host) (n : nat) : Prop :=
  forall i, 0 <= i < Z.of_nat n -> elapsed Hst i = 0.

(** The URL of the file dated [day]. *)
Definition url_of_day (E : Env) (day : Z) : string :=
  sprintf (DATA_URL (constants E)) (Moment.format_MM_DD_YYYY day ++ ".csv").

(** What [downloadCsvFile] leaves alone: the rows, the accumulators, the
    running totals and the database. *)
Definition untouched (s s' : State) : Prop :=
  csvRows s' = csvRows s /\ countryObjects s' = countryObjects s /\
  (forall f, total_of f s' = total_of f s) /\ db s' = db s.

(** ** Concrete data for the scenarios *)

(** Modelled from the spec: the column-name constants are those of the header
    [Country_Region,Confirmed,Deaths,Recovered,Active,Last_Update], and the
    worldwide sentinel is ["Worldwide"]; the URL template, which ends with
    its directive after the text [url], and the staging directory are
    free. *)
Definition spec_constants (url dir : string) : ConstantsT :=
  {| DATA_URL := {| text_before := url; text_after := "" |};
     DATA_DIR := dir;
     COL_COUNTRY := "Country_Region";
     COL_DEATHS := "Deaths";
     COL_CONFIRMED := "Confirmed";
     COL_ACTIVE := "Active";
     COL_RECOVERED := "Recovered";
     COL_LAST_UPDATE := "Last_Update";
     WORLDWIDE := "Worldwide" |}.

Definition csv_row (country cf d r a upd : string) : RawRow :=
  list_to_map
    [("Country_Region", country); ("Confirmed", cf); ("Deaths", d);
     ("Recovered", r); ("Active", a); ("Last_Update", upd)].

(** A run that begins on 2021-01-01 against a source of daily reports. *)
Definition demo_env (remote : string -> Fetch) : Env :=
  {| constants := spec_constants "https://example.org/reports/" "data";
     dirname := "/app/src";
     now := 18628;
     remote := remote;
     dbRejects := fun _ => false |}.

(** A machine on which the run stays within one day and the staging directory
    can be made. *)
Definition demo_host : Host :=
  {| elapsed := fun _ => 0; canMkdir := fun _ => true |}.

(** A machine on which midnight passes during the first request. *)
Definition host_past_midnight : Host :=
  {| elapsed := fun i => if i <=? 0 then 0 else 1; canMkdir := fun _ => true |}.

Definition usa_row : RawRow :=
  csv_row "USA" "100" "5" "-50" "45" "2021-01-01 04:00:00".
Definition italy_row : RawRow :=
  csv_row "Italy" "abc" "2" "10" "18" "2021-01-01 04:00:00".

(** A row that names the sentinel itself as its country. *)
Definition worldwide_row : RawRow :=
  csv_row "Worldwide" "7" "0" "0" "0" "2021-01-01 04:00:00".

(** Rows whose confirmed count is a text with digits in front. *)
Definition row_12abc : RawRow :=
  csv_row "USA" "12abc" "5.9" "0" "0" "2021-01-01 04:00:00".
Definition row_0x1F : RawRow :=
  csv_row "USA" "0x1F" "0" "0" "0" "2021-01-01 04:00:00".

(** Rows whose confirmed counts are 2^53 and 1. *)
Definition row_2p53 : RawRow :=
  csv_row "A" "9007199254740992" "0" "0" "0" "2021-01-01 04:00:00".
Definition row_one : RawRow :=
  csv_row "B" "1" "0" "0" "0" "2021-01-01 04:00:00".

(** A source on which every request fails, the staging file opened. *)
Definition source_down : string -> Fetch := fun _ => Failed [].

(** A source that serves, on the first request, a snapshot without rows. *)
Definition source_empty : string -> Fetch := fun _ => Fetched [].

(** A source on which only the file dated 3 days before 2021-01-01 is there. *)
Definition source_3_days_back : string -> Fetch :=
  fun url =>
    if decide (url = "https://example.org/reports/12-29-2020.csv")
    then Fetched [usa_row; italy_row]
    else Failed [].

(** A source that has the file of 2020-12-31 and refuses the request for the
    file of 2021-01-01 before the write stream has opened its file. *)
Definition source_fast_refusal : string -> Fetch :=
  fun url =>
    if decide (url = "https://example.org/reports/12-31-2020.csv")
    then Fetched [usa_row; italy_row]
    else FailedBeforeOpen.

(** A source that has the file of 2020-12-31 and, for the file of 2021-01-01,
    sends one row and then nothing more. *)
Definition source_cut_off : string -> Fetch :=
  fun url =>
    if decide (url = "https://example.org/reports/12-31-2020.csv")
    then Fetched [usa_row; italy_row]
    else Unsettled [usa_row].



(** ** Vocabulary of the further properties *)

(** Sum of a counter over the rows filed under key [k]. *)
Fixpoint key_sum (K : ConstantsT) (f : Counter) (k : string)
    (rows : list RawRow) : Z :=
  match rows with
  | [] => 0
  | row :: rows' =>
      (if decide (country_key K row = k) then row_count K f row else 0)
      + key_sum K f k rows'
  end.

(** The keys [createCountryObjects] files an accumulator under: the sentinel
    and the country of every row. *)
Definition listed (K : ConstantsT) (rows : list RawRow) (k : string) : Prop :=
  k = WORLDWIDE K \/ exists row, row ∈ rows /\ country_key K row = k.

(** What the aggregation stage leaves alone: everything but the accumulators
    and the running totals. *)
Definition rest_same (s s' : State) : Prop :=
  csvFileName s' = csvFileName s /\ csvRows s' = csvRows s /\
  files s' = files s /\ dirs s' = dirs s /\ console s' = console s /\
  requests s' = requests s /\ db s' = db s /\ opening s' = opening s.

(** A count text that starts neither with white space nor with a sign. *)
Definition plain_start (t : string) : bool :=
  match t with
  | String c _ =>
      negb (Js.isWhiteSpace c) && negb (bool_decide (c = "-"%char))
      && negb (bool_decide (c = "+"%char))
  | EmptyString => true
  end.

(** A database collaborator that rejects the call of index [i] only. *)
Definition rejects_at (i : nat) : nat -> bool := fun k => bool_decide (k = i).

(** The request of index [j] is not served: it is refused before the write
    stream has opened its file, or it fails after. *)
Definition not_served (E : Env) (Hst : Host) (j : Z) : Prop :=
  remote E (urlOf E Hst j) = FailedBeforeOpen \/
  exists partial, remote E (urlOf E Hst j) = Failed partial.

(** The candidate of index [k] is the first whose fetch succeeds, with
    [body], every earlier request failing after its file was opened; and
    every one of the 90 requests fails so. *)
Definition first_fetched (E : Env) (Hst : Host) (k : Z) (body : FileContent)
  : Prop :=
  0 <= k < 90 /\
  (forall j, 0 <= j < k ->
     exists partial, remote E (urlOf E Hst j) = Failed partial) /\
  remote E (urlOf E Hst k) = Fetched body.

Definition none_fetched (E : Env) (Hst : Host) : Prop :=
  forall j, 0 <= j < 90 ->
    exists partial, remote E (urlOf E Hst j) = Failed partial.

(** How the probing loop over the [n] indices from [i] on can end, from a
    state with console [con] and directories [ds]: with a candidate fetched,
    with none left to try, on the error of [unlinkSync], or never. *)
Definition loop_ends (E : Env) (Hst : Host) (i : Z) (n : nat)
    (con : list string) (ds : gset string) (r : Result bool) : Prop :=
  match r with
  | Ok true s1 =>
      exists k body, i <= k < i + Z.of_nat n /\
        (forall j, i <= j < k -> not_served E Hst j) /\
        remote E (urlOf E Hst k) = Fetched body /\
        csvFileName s1 = fileNameOf E Hst k /\
        files s1 !! pathOf E (fileNameOf E Hst k) = Some body /\
        opening s1 = None /\
        console s1 = (con ++ [("Download completed: " ++ fileNameOf E Hst k)%string])%list /\
        dirs s1 = ds
  | Ok false s1 =>
      (forall j, i <= j < i + Z.of_nat n -> not_served E Hst j) /\
      console s1 = con /\ dirs s1 = ds
  | Throw e s1 =>
      e = ENOENT /\
      (exists k, i <= k < i + Z.of_nat n /\
         (forall j, i <= j < k -> not_served E Hst j) /\
         remote E (urlOf E Hst k) = FailedBeforeOpen) /\
      console s1 = con /\ dirs s1 = ds
  | Hang s1 =>
      (exists k partial, i <= k < i + Z.of_nat n /\
         (forall j, i <= j < k -> not_served E Hst j) /\
         remote E (urlOf E Hst k) = Unsettled partial) /\
      console s1 = con /\ dirs s1 = ds
  end.
(** * Properties *)

(** ** Doubles *)

Lemma round_small n : Z.abs n <= exact_bound -> Js.round n = n.
Proof.
  unfold exact_bound, Js.round. intros Hn.
  destruct (Z.ltb_spec (Z.abs n) (2 ^ 53)) as [|Hge]; [reflexivity|].
  assert (Z.abs n = 2 ^ 53) as Habs by lia.
  destruct (Z.abs_spec n) as [[_ Heq]|[_ Heq]]; rewrite Heq in Habs.
  - subst n. reflexivity.
  - assert (n = - 2 ^ 53) as -> by lia. reflexivity.
Qed.

Lemma round_opp n : Js.round (- n) = - Js.round n.
Proof.
  unfold Js.round. rewrite Z.abs_opp, Z.sgn_opp.
  destruct (Z.abs n <? 2 ^ 53); [reflexivity|].
  cbv zeta. lia.
Qed.

Lemma round_nonneg n : 0 <= n -> 0 <= Js.round n.
Proof.
  intros Hn. unfold Js.round.
  destruct (Z.abs n <? 2 ^ 53); [assumption|]. cbv zeta.
  apply Z.mul_nonneg_nonneg; [apply Z.sgn_nonneg, Hn|].
  set (e := Z.log2 (Z.abs n) - 52).
  set (q := Z.abs n / 2 ^ e).
  assert (0 <= 2 ^ e) as He by (apply Z.pow_nonneg; lia).
  assert (0 <= q) as Hq by (apply Z_div_nonneg_nonneg; lia).
  destruct (Js.INF <=? _); [unfold Js.INF; apply Z.pow_nonneg; lia|].
  apply Z.mul_nonneg_nonneg; [|assumption].
  destruct (_ || _); lia.
Qed.

Lemma round_abs n : Z.abs (Js.round n) = Js.round (Z.abs n).
Proof.
  destruct (Z.abs_spec n) as [[Hn ->]|[Hn ->]].
  - apply Z.abs_eq, round_nonneg, Hn.
  - rewrite round_opp. apply Z.abs_neq.
    pose proof (round_nonneg (- n)) as H. rewrite round_opp in H. lia.
Qed.

Lemma round_scaled_lt q e :
  2 ^ 52 <= q < 2 ^ 53 -> 0 <= e -> q * 2 ^ e < Js.INF ->
  Js.round (q * 2 ^ e) = q * 2 ^ e.
Proof.
  intros Hq He Hfin.
  assert (0 < 2 ^ e) as Hpos by (apply Z.pow_pos_nonneg; lia).
  assert (0 < q * 2 ^ e) as Ha by nia.
  unfold Js.round. rewrite (Z.abs_eq (q * 2 ^ e)) by lia.
  destruct (Z.ltb_spec (q * 2 ^ e) (2 ^ 53)) as [|Hbig]; [reflexivity|].
  cbv zeta. rewrite Z.sgn_pos, Z.mul_1_l by assumption.
  assert (Z.log2 (q * 2 ^ e) = e + 52) as Hlog.
  { rewrite Z.log2_mul_pow2 by lia. f_equal.
    apply Z.log2_unique; lia. }
  rewrite Hlog. replace (e + 52 - 52) with e by lia.
  rewrite Z.div_mul, Z.mod_mul by lia.
  assert (1 <= e) as He1.
  { destruct (Z.eq_dec e 0) as [->|]; [|lia]. rewrite Z.pow_0_r in Hbig. lia. }
  assert (0 < 2 ^ (e - 1)) by (apply Z.pow_pos_nonneg; lia).
  destruct (Z.ltb_spec (2 ^ (e - 1)) 0); [lia|].
  destruct (Z.eqb_spec 0 (2 ^ (e - 1))); [lia|]. cbn [orb andb].
  destruct (Z.leb_spec Js.INF (q * 2 ^ e)); [lia|reflexivity].
Qed.

(** A significand of 53 bits on a power of two is a double. *)
Lemma round_scaled q e :
  2 ^ 52 <= q <= 2 ^ 53 -> 0 <= e -> q * 2 ^ e < Js.INF ->
  Js.round (q * 2 ^ e) = q * 2 ^ e.
Proof.
  intros Hq He Hfin.
  destruct (Z.eq_dec q (2 ^ 53)) as [->|Hne].
  - assert (2 ^ 53 * 2 ^ e = 2 ^ 52 * 2 ^ (e + 1)) as Heq.
    { rewrite (Z.pow_add_r 2 e 1) by lia. lia. }
    rewrite Heq in *. apply round_scaled_lt; lia.
  - apply round_scaled_lt; lia.
Qed.

(** Rounding gives a double: rounding it again changes nothing. *)
Lemma round_round n : Js.round (Js.round n) = Js.round n.
Proof.
  assert (forall a, 0 <= a -> Js.round (Js.round a) = Js.round a) as Hpos.
  { intros a Ha.
    destruct (Z.le_gt_cases (Z.abs a) exact_bound) as [Hs|Hbig].
    { rewrite !(round_small a) by assumption. reflexivity. }
    unfold exact_bound in Hbig. rewrite Z.abs_eq in Hbig by assumption.
    unfold Js.round at 2 3. rewrite (Z.abs_eq a) by assumption.
    destruct (Z.ltb_spec a (2 ^ 53)); [lia|]. cbv zeta.
    rewrite Z.sgn_pos, Z.mul_1_l by lia.
    set (e := Z.log2 a - 52) in *.
    match goal with
    | |- context [Js.INF <=? ?v] => destruct (Z.leb_spec Js.INF v) as [|Hfin]
    end; [vm_compute; reflexivity|].
    assert (53 <= Z.log2 a) as Hlog by (apply Z.log2_le_pow2; lia).
    assert (0 < 2 ^ e) as Hpe by (apply Z.pow_pos_nonneg; lia).
    assert (2 ^ 52 <= a / 2 ^ e < 2 ^ 53) as Hq.
    { pose proof (Z.log2_spec a ltac:(lia)) as [Hlo Hhi].
      replace (Z.log2 a) with (52 + e) in Hlo by lia.
      replace (Z.succ (Z.log2 a)) with (53 + e) in Hhi by lia.
      rewrite Z.pow_add_r in Hlo, Hhi by lia.
      split.
      - apply Z.div_le_lower_bound; lia.
      - apply Z.div_lt_upper_bound; lia. }
    apply round_scaled; [|lia|assumption].
    destruct (_ || _); lia. }
  destruct (Z.le_gt_cases 0 n) as [Hn|Hn]; [apply Hpos, Hn|].
  pose proof (Hpos (- n) ltac:(lia)) as H. rewrite !round_opp in H. lia.
Qed.

Lemma add_exact a b :
  0 <= a -> 0 <= b -> a + b <= exact_bound -> Js.add a b = a + b.
Proof. intros Ha Hb Hab. apply round_small. lia. Qed.

Lemma add_nonneg a b : 0 <= a -> 0 <= b -> 0 <= Js.add a b.
Proof. intros Ha Hb. apply round_nonneg. lia. Qed.

Lemma add_zero a : Js.round a = a -> Js.add 0 a = a.
Proof. intros Ha. unfold Js.add. rewrite Z.add_0_l. exact Ha. Qed.

(** ** [parseInt] and [getCaseCount] *)

Example parseInt_12abc : Js.parseInt (Js.Str "12abc") = Some 12.
Proof. reflexivity. Qed.

Example parseInt_hex : Js.parseInt (Js.Str "0x1F") = Some 31.
Proof. reflexivity. Qed.

Example parseInt_spaces_minus : Js.parseInt (Js.Str "  -50") = Some (-50).
Proof. reflexivity. Qed.

Example parseInt_abc : Js.parseInt (Js.Str "abc") = None.
Proof. reflexivity. Qed.

Example parseInt_undefined : Js.parseInt Js.Undefined = None.
Proof. reflexivity. Qed.

Example parseInt_fraction : Js.parseInt (Js.Str "5.9") = Some 5.
Proof. reflexivity. Qed.

Example parseInt_bare_prefix : Js.parseInt (Js.Str "0x") = None.
Proof. reflexivity. Qed.

Example parseInt_empty : Js.parseInt (Js.Str "") = None.
Proof. reflexivity. Qed.

(** From 2^53 on the integer read is rounded to a double. *)
Example parseInt_2p53_plus_1 :
  Js.parseInt (Js.Str "9007199254740993") = Some 9007199254740992.
Proof. vm_compute. reflexivity. Qed.

Example parseInt_1e20 :
  Js.parseInt (Js.Str "100000000000000000001") = Some 100000000000000000000.
Proof. vm_compute. reflexivity. Qed.

Lemma getCaseCount_cleaned row col :
  getCaseCount row [col] = cleaned (Js.parseInt (row_get row col)).
Proof.
  unfold getCaseCount, cleaned. cbn [Js.ArrayToString String.concat].
  destruct (Js.parseInt (row_get row col)) as [n|]; [|reflexivity].
  destruct (Z.ltb_spec n 0); lia.
Qed.

Lemma getCaseCount_nonneg row cols : 0 <= getCaseCount row cols.
Proof.
  unfold getCaseCount.
  destruct (Js.parseInt _) as [n|]; [|reflexivity].
  destruct (Z.ltb_spec n 0); lia.
Qed.

Lemma parseInt_double v n : Js.parseInt v = Some n -> Js.round n = n.
Proof.
  unfold Js.parseInt.
  destruct (Js.stripSign _) as [sign s1], (Js.stripPrefix s1) as [R s2].
  destruct (Js.parseDigits R s2 None) as [m|]; [|discriminate].
  intros [= <-]. apply round_round.
Qed.

(** The cleaned count is a double. *)
Lemma getCaseCount_double row col :
  Js.round (getCaseCount row [col]) = getCaseCount row [col].
Proof.
  rewrite getCaseCount_cleaned. unfold cleaned.
  destruct (Js.parseInt (row_get row col)) as [n|] eqn:Hn; [|reflexivity].
  rewrite <- round_abs, (parseInt_double _ _ Hn). reflexivity.
Qed.

Lemma radixDigit_10 c :
  Js.radixDigit 10 c =
  if isDecimalDigit c then Some (Js.code c - 48) else None.
Proof.
  unfold Js.radixDigit, Js.digitValue, isDecimalDigit.
  destruct (Z.leb_spec 48 (Js.code c)), (Z.leb_spec (Js.code c) 57); cbn;
    repeat match goal with
      | |- context [Z.leb ?a ?b] => destruct (Z.leb_spec a b); cbn
      | |- context [Z.ltb ?a ?b] => destruct (Z.ltb_spec a b); cbn
      end; try reflexivity; lia.
Qed.

Lemma parseDigits_10 s : forall acc,
  Js.parseDigits 10 s acc =
  match leadingDigits s with
  | [] => acc
  | ds => Some (fold_left (fun a d => a * 10 + d) ds (default 0 acc))
  end.
Proof.
  induction s as [|c s IH]; intros acc; cbn [Js.parseDigits leadingDigits].
  - reflexivity.
  - rewrite radixDigit_10. destruct (isDecimalDigit c); [|reflexivity].
    rewrite IH. cbn [default fold_left].
    destruct (leadingDigits s); reflexivity.
Qed.

Lemma radixDigit_16 c : Js.radixDigit 16 c = hexDigit c.
Proof.
  unfold Js.radixDigit, Js.digitValue, hexDigit.
  repeat match goal with
    | |- context [Z.leb ?a ?b] => destruct (Z.leb_spec a b); cbn
    | |- context [Z.ltb ?a ?b] => destruct (Z.ltb_spec a b); cbn
    end; try reflexivity; lia.
Qed.

Lemma parseDigits_16 s : forall acc,
  Js.parseDigits 16 s acc =
  match leadingHexDigits s with
  | [] => acc
  | ds => Some (fold_left (fun a d => a * 16 + d) ds (default 0 acc))
  end.
Proof.
  induction s as [|c s IH]; intros acc; cbn [Js.parseDigits leadingHexDigits].
  - reflexivity.
  - rewrite radixDigit_16. destruct (hexDigit c); [|reflexivity].
    rewrite IH. cbn [default fold_left].
    destruct (leadingHexDigits s); reflexivity.
Qed.

Lemma digit_not_space c : isDecimalDigit c = true -> Js.isWhiteSpace c = false.
Proof.
  unfold isDecimalDigit, Js.isWhiteSpace. intros H.
  apply andb_true_iff in H as [H1 H2].
  apply Z.leb_le in H1, H2.
  repeat match goal with
    | |- context [Z.leb ?a ?b] => destruct (Z.leb_spec a b); cbn
    | |- context [Z.eqb ?a ?b] => destruct (Z.eqb_spec a b); cbn
    end; try reflexivity; lia.
Qed.

Lemma digit_not_sign c :
  isDecimalDigit c = true -> c <> "-"%char /\ c <> "+"%char.
Proof.
  unfold isDecimalDigit. intros H.
  apply andb_true_iff in H as [H1 _]. apply Z.leb_le in H1.
  split; intros ->; vm_compute in H1; congruence.
Qed.

(** On a text that starts with decimal digits and has no hexadecimal prefix,
    [parseInt] reads exactly those digits, and rounds. *)
Lemma parseInt_leadingInteger s n :
  leadingInteger s = Some n ->
  Js.hasHexPrefix s = false ->
  Js.parseInt (Js.Str s) = Some (Js.round n).
Proof.
  intros Hlead Hhex. unfold Js.parseInt. cbn [Js.ToString].
  destruct s as [|c s']; [discriminate|].
  unfold leadingInteger in Hlead. cbn [leadingDigits] in Hlead.
  destruct (isDecimalDigit c) eqn:Hc; [|discriminate].
  cbn [Js.trimStart]. rewrite (digit_not_space c Hc).
  destruct (digit_not_sign c Hc) as [Hm Hp].
  unfold Js.stripSign. rewrite !decide_False by assumption.
  unfold Js.stripPrefix. rewrite Hhex.
  rewrite parseDigits_10. cbn [leadingDigits]. rewrite Hc.
  cbn [default]. injection Hlead as <-. unfold decimalValue.
  f_equal. f_equal. lia.
Qed.

(** On a text that starts with [0x] or [0X], [parseInt] reads the
    hexadecimal digits that follow the prefix, and rounds. *)
Lemma parseInt_hexadecimal s t :
  s = "0x" ++ t \/ s = "0X" ++ t ->
  Js.parseInt (Js.Str s) = Js.round <$> leadingHexInteger t.
Proof.
  intros Hs. unfold Js.parseInt. cbn [Js.ToString].
  assert (Js.parseDigits 16 t None = leadingHexInteger t) as Hdigits.
  { rewrite parseDigits_16. unfold leadingHexInteger, hexValue.
    destruct (leadingHexDigits t); reflexivity. }
  assert (exists x, s = String "0" (String x t) /\
                    Js.hasHexPrefix s = true) as (x & -> & Hhex).
  { destruct Hs as [-> | ->]; eexists; (split; [reflexivity|]);
      unfold Js.hasHexPrefix; cbn; rewrite ?orb_true_r;
      destruct t; reflexivity. }
  cbn [Js.trimStart]. change (Js.isWhiteSpace "0") with false. cbv iota.
  unfold Js.stripSign. rewrite !decide_False by discriminate.
  unfold Js.stripPrefix. rewrite Hhex, Hdigits.
  destruct (leadingHexInteger t) as [n|]; cbn; [|reflexivity].
  f_equal. f_equal. lia.
Qed.

(** ** Running the monad *)

Lemma bind_run {A B} (m : M A) (k : A -> M B) s :
  (m ≫= k) s =
  match m s with
  | Ok a s' => k a s'
  | Throw e s' => Throw e s'
  | Hang s' => Hang s'
  end.
Proof. reflexivity. Qed.

Lemma bind_ok {A B} (m : M A) (k : A -> M B) s a s' :
  m s = Ok a s' -> (m ≫= k) s = k a s'.
Proof. intros H. rewrite bind_run, H. reflexivity. Qed.

Lemma bind_throw {A B} (m : M A) (k : A -> M B) s e s' :
  m s = Throw e s' -> (m ≫= k) s = Throw e s'.
Proof. intros H. rewrite bind_run, H. reflexivity. Qed.

Lemma bind_hang {A B} (m : M A) (k : A -> M B) s s' :
  m s = Hang s' -> (m ≫= k) s = Hang s'.
Proof. intros H. rewrite bind_run, H. reflexivity. Qed.

Lemma forEach_modify {A} (g : A -> State -> State) l s :
  forEach (fun x => modify (g x)) l s = Ok tt (fold_left (fun s x => g x s) l s).
Proof.
  revert s. induction l as [|x l IH]; intros s; [reflexivity|].
  cbn [forEach fold_left]. rewrite bind_run. cbn. apply IH.
Qed.

(** ** The [countryObjects] object *)

Lemma assoc_get_set_eq l k c : assoc_get (assoc_set l k c) k = Some c.
Proof.
  induction l as [|[k' c'] l IH]; cbn.
  - rewrite decide_True; reflexivity.
  - destruct (decide (k' = k)) as [->|Hne]; cbn.
    + rewrite decide_True; reflexivity.
    + rewrite decide_False by assumption. apply IH.
Qed.

Lemma assoc_get_set_ne l k k' c :
  k <> k' -> assoc_get (assoc_set l k c) k' = assoc_get l k'.
Proof.
  intros Hne. induction l as [|[k1 c1] l IH]; cbn.
  - rewrite decide_False; [reflexivity|assumption].
  - destruct (decide (k1 = k)) as [->|Hne1]; cbn.
    + rewrite !decide_False by assumption. reflexivity.
    + destruct (decide (k1 = k')); [reflexivity|apply IH].
Qed.

Lemma assoc_set_set l k c1 c2 :
  assoc_set (assoc_set l k c1) k c2 = assoc_set l k c2.
Proof.
  induction l as [|[k' c'] l IH]; cbn.
  - rewrite decide_True; reflexivity.
  - destruct (decide (k' = k)) as [->|Hne]; cbn.
    + rewrite decide_True; reflexivity.
    + rewrite decide_False by assumption. f_equal. apply IH.
Qed.

Lemma obj_get_set_eq o k c : obj_get (obj_set o k c) k = Some c.
Proof.
  unfold obj_get, obj_set. destruct (decide (k = "__proto__")); cbn.
  - reflexivity.
  - apply assoc_get_set_eq.
Qed.

Lemma obj_get_set_ne o k k' c :
  k <> k' -> obj_get (obj_set o k c) k' = obj_get o k'.
Proof.
  intros Hne. unfold obj_get, obj_set.
  destruct (decide (k = "__proto__")) as [->|Hk];
    destruct (decide (k' = "__proto__")) as [->|Hk']; cbn;
    try congruence.
  apply assoc_get_set_ne, Hne.
Qed.

Lemma obj_set_set o k c1 c2 : obj_set (obj_set o k c1) k c2 = obj_set o k c2.
Proof.
  unfold obj_set. destruct (decide (k = "__proto__")); cbn.
  - reflexivity.
  - f_equal. apply assoc_set_set.
Qed.

Lemma sum_others_set f w l k c c' :
  assoc_get l k = Some c -> k <> w ->
  sum_others f w (assoc_set l k c') =
  sum_others f w l - counter_of f c + counter_of f c'.
Proof.
  intros Hget Hne. induction l as [|[k1 c1] l IH]; cbn in *; [discriminate|].
  destruct (decide (k1 = k)) as [->|Hne1]; cbn.
  - injection Hget as ->. repeat case_decide; try congruence; lia.
  - rewrite IH by assumption. lia.
Qed.

Lemma sum_others_set_w f w l c :
  sum_others f w (assoc_set l w c) = sum_others f w l.
Proof.
  induction l as [|[k1 c1] l IH]; cbn.
  - case_decide; [reflexivity|congruence].
  - destruct (decide (k1 = w)) as [->|Hne1]; cbn.
    + repeat case_decide; try congruence; reflexivity.
    + rewrite IH. repeat case_decide; try congruence; reflexivity.
Qed.

Lemma sum_others_obj_set_w f w o c :
  sum_others f w (own (obj_set o w c)) = sum_others f w (own o).
Proof.
  unfold obj_set. destruct (decide (w = "__proto__")); cbn.
  - reflexivity.
  - apply sum_others_set_w.
Qed.

(** *** The order of [Object.values] *)

Lemma insert_index_perm n kc l : insert_index n kc l ≡ₚ kc :: l.
Proof.
  induction l as [|kc' l IH]; cbn [insert_index]; [reflexivity|].
  destruct (Js.arrayIndex kc'.1) as [n'|]; [|reflexivity].
  destruct (n <? n'); [reflexivity|].
  rewrite IH. apply Permutation_swap.
Qed.

Lemma Object_entries_perm o : Object_entries o ≡ₚ own o.
Proof.
  unfold Object_entries. induction (own o) as [|kc l IH];
    cbn [index_entries other_entries]; [reflexivity|].
  destruct (Js.arrayIndex kc.1) as [n|].
  - rewrite insert_index_perm. cbn. f_equiv. exact IH.
  - rewrite <- Permutation_middle. f_equiv. exact IH.
Qed.

Lemma Object_values_perm o : Object_values o ≡ₚ (own o).*2.
Proof. unfold Object_values. rewrite Object_entries_perm. reflexivity. Qed.

Lemma Object_values_elem o c : c ∈ Object_values o <-> c ∈ (own o).*2.
Proof. rewrite Object_values_perm. reflexivity. Qed.

(** Without a key that spells an array index, [Object.values] lists the
    properties in the order of their creation. *)
Lemma Object_entries_plain o :
  Forall (fun kc => Js.arrayIndex kc.1 = None) (own o) ->
  Object_entries o = own o.
Proof.
  unfold Object_entries. induction 1 as [|kc l Hkc Hl IH];
    cbn [index_entries other_entries]; [reflexivity|].
  rewrite Hkc. rewrite <- IH at 3.
  assert (index_entries l = []) as ->; [|reflexivity].
  clear IH. induction Hl as [|kc' l' Hkc' Hl' IH']; cbn [index_entries];
    [reflexivity|]. rewrite Hkc'. exact IH'.
Qed.

(** ** The calls of [populateCountryObjects] *)

Lemma call_on_run (key : string) method s c :
  obj_get (countryObjects s) key = Some c ->
  call_on key method s =
  Ok tt (set_countryObjects (obj_set (countryObjects s) key (method c)) s).
Proof.
  intros H. unfold call_on. rewrite bind_run. cbn. rewrite H. reflexivity.
Qed.

Lemma call_on_throw (key : string) method s :
  obj_get (countryObjects s) key = None ->
  call_on key method s = Throw TypeError s.
Proof.
  intros H. unfold call_on. rewrite bind_run. cbn. rewrite H. reflexivity.
Qed.

Lemma call_on_bind {B} (key : string) method (m : M B) s c :
  obj_get (countryObjects s) key = Some c ->
  (call_on key method;; m) s =
  m (set_countryObjects (obj_set (countryObjects s) key (method c)) s).
Proof. intros H. rewrite bind_run, (call_on_run key method s c H). reflexivity. Qed.

Lemma call_on_4 (key : string) f1 f2 f3 f4 s c :
  obj_get (countryObjects s) key = Some c ->
  (call_on key f1;; call_on key f2;; call_on key f3;; call_on key f4) s =
  Ok tt (set_countryObjects
           (obj_set (countryObjects s) key (f4 (f3 (f2 (f1 c))))) s).
Proof.
  intros H.
  rewrite (call_on_bind key f1 _ s c H).
  erewrite call_on_bind by (cbn [countryObjects set_countryObjects]; apply obj_get_set_eq).
  cbn [countryObjects set_countryObjects]. rewrite obj_set_set.
  erewrite call_on_bind by (cbn [countryObjects set_countryObjects]; apply obj_get_set_eq).
  cbn [countryObjects set_countryObjects]. rewrite obj_set_set.
  erewrite call_on_run by (cbn [countryObjects set_countryObjects]; apply obj_get_set_eq).
  cbn [countryObjects set_countryObjects]. rewrite obj_set_set.
  reflexivity.
Qed.

Section Aggregation.

Context (E : Env).

Local Abbreviation K := (constants E).

Lemma populate_row_run row s c :
  obj_get (countryObjects s) (country_key K row) = Some c ->
  populate_row E row s =
  Ok tt (set_countryObjects
           (obj_set (countryObjects s) (country_key K row) (bump K row c))
           (add_totals (getCaseCount row [COL_DEATHS K])
                       (getCaseCount row [COL_CONFIRMED K])
                       (getCaseCount row [COL_ACTIVE K])
                       (getCaseCount row [COL_RECOVERED K]) s)).
Proof.
  intros H. unfold populate_row. rewrite bind_run. cbn [modify].
  erewrite call_on_4 by (cbn [countryObjects add_totals]; exact H).
  reflexivity.
Qed.

Lemma populate_row_throw row s :
  obj_get (countryObjects s) (country_key K row) = None ->
  populate_row E row s =
  Throw TypeError
    (add_totals (getCaseCount row [COL_DEATHS K])
                (getCaseCount row [COL_CONFIRMED K])
                (getCaseCount row [COL_ACTIVE K])
                (getCaseCount row [COL_RECOVERED K]) s).
Proof.
  intros H. unfold populate_row. rewrite bind_run. cbn [modify].
  rewrite bind_run. erewrite call_on_throw by (cbn [countryObjects add_totals]; exact H).
  reflexivity.
Qed.

Lemma populateCountryObjects_run s s2 cw :
  forEach (populate_row E) (csvRows s) s = Ok tt s2 ->
  obj_get (countryObjects s2) (WORLDWIDE K) = Some cw ->
  populateCountryObjects E s =
  Ok tt (set_countryObjects
           (obj_set (countryObjects s2) (WORLDWIDE K) (bump_totals s2 cw)) s2).
Proof.
  intros Hrows Hw. unfold populateCountryObjects.
  rewrite bind_run. cbn [get]. rewrite bind_run, Hrows.
  do 4 (rewrite bind_run; cbn [get]).
  rewrite (call_on_4 _ _ _ _ _ s2 cw Hw). reflexivity.
Qed.

Lemma populateCountryObjects_rows_throw s e s2 :
  forEach (populate_row E) (csvRows s) s = Throw e s2 ->
  populateCountryObjects E s = Throw e s2.
Proof.
  intros Hrows. unfold populateCountryObjects.
  rewrite bind_run. cbn [get]. rewrite bind_run, Hrows. reflexivity.
Qed.

Lemma populateCountryObjects_worldwide_throw s s2 :
  forEach (populate_row E) (csvRows s) s = Ok tt s2 ->
  obj_get (countryObjects s2) (WORLDWIDE K) = None ->
  populateCountryObjects E s = Throw TypeError s2.
Proof.
  intros Hrows Hw. unfold populateCountryObjects.
  rewrite bind_run. cbn [get]. rewrite bind_run, Hrows.
  do 4 (rewrite bind_run; cbn [get]).
  rewrite bind_run, (call_on_throw _ _ s2 Hw). reflexivity.
Qed.

(** No step of the aggregation awaits anything. *)
Lemma populate_row_settles row s s' : populate_row E row s <> Hang s'.
Proof.
  destruct (obj_get (countryObjects s) (country_key K row)) as [c|] eqn:Hget.
  - rewrite (populate_row_run row s c Hget). discriminate.
  - rewrite (populate_row_throw row s Hget). discriminate.
Qed.

Lemma forEach_populate_settles rows : forall s s',
  forEach (populate_row E) rows s <> Hang s'.
Proof.
  induction rows as [|row rows IH]; intros s s'; cbn [forEach]; [discriminate|].
  rewrite bind_run.
  destruct (populate_row E row s) as [[] s1|e s1|s1] eqn:Hrow.
  - apply IH.
  - discriminate.
  - destruct (populate_row_settles _ _ _ Hrow).
Qed.

Lemma fold_set_countryObjects (g : JsObject -> Js.Value -> JsObject) names s :
  fold_left (fun s n => set_countryObjects (g (countryObjects s) n) s) names s =
  set_countryObjects (fold_left g names (countryObjects s)) s.
Proof.
  revert s. induction names as [|n names IH]; intros s; cbn [fold_left].
  - destruct s; reflexivity.
  - rewrite IH. reflexivity.
Qed.

Lemma createCountryObjects_run s row rest :
  csvRows s = row :: rest ->
  createCountryObjects E s =
  Ok tt (set_countryObjects
           (file_blanks (DateUTC (row_get row (COL_LAST_UPDATE K)))
              (getCountryNamesArray E s) (countryObjects s)) s).
Proof.
  intros Hrows. unfold createCountryObjects.
  rewrite bind_run. cbn [get]. rewrite bind_run.
  unfold getLastUpdatedBySourceTime. rewrite bind_run. cbn [get].
  rewrite Hrows. cbn [mret M_ret ret].
  rewrite (forEach_modify
    (fun n s => set_countryObjects
       (obj_set (countryObjects s)
          (Js.ToString (getName (blank (DateUTC (row_get row (COL_LAST_UPDATE K))) n)))
          (blank (DateUTC (row_get row (COL_LAST_UPDATE K))) n)) s)).
  rewrite (fold_set_countryObjects
    (fun o n => obj_set o
       (Js.ToString (getName (blank (DateUTC (row_get row (COL_LAST_UPDATE K))) n)))
       (blank (DateUTC (row_get row (COL_LAST_UPDATE K))) n))).
  reflexivity.
Qed.

Lemma createCountryObjects_empty s :
  csvRows s = [] -> createCountryObjects E s = Throw TypeError s.
Proof.
  intros Hrows. unfold createCountryObjects.
  rewrite bind_run. cbn [get]. rewrite bind_run.
  unfold getLastUpdatedBySourceTime. rewrite bind_run. cbn [get].
  rewrite Hrows. reflexivity.
Qed.

End Aggregation.

(** ** Counters under the increments *)

Lemma counter_of_bump K row c f :
  counter_of f (bump K row c) =
  Js.add (counter_of f c) (getCaseCount row [column_of K f]).
Proof. destruct f; reflexivity. Qed.

Lemma counter_of_bump_totals s c f :
  counter_of f (bump_totals s c) = Js.add (counter_of f c) (total_of f s).
Proof. destruct f; reflexivity. Qed.

Lemma total_of_row K row s f :
  total_of f
    (add_totals (getCaseCount row [COL_DEATHS K])
                (getCaseCount row [COL_CONFIRMED K])
                (getCaseCount row [COL_ACTIVE K])
                (getCaseCount row [COL_RECOVERED K]) s) =
  Js.add (total_of f s) (getCaseCount row [column_of K f]).
Proof. destruct f; reflexivity. Qed.

Lemma total_of_set_countryObjects o s f :
  total_of f (set_countryObjects o s) = total_of f s.
Proof. destruct f; reflexivity. Qed.

Lemma blank_at_zero d n : at_zero (blank d n).
Proof. intros []; reflexivity. Qed.

Lemma row_count_nonneg K f row : 0 <= row_count K f row.
Proof. apply getCaseCount_nonneg. Qed.

Lemma all_sum_nonneg K f rows : 0 <= all_sum K f rows.
Proof.
  induction rows as [|row rows IH]; cbn [all_sum]; [lia|].
  pose proof (row_count_nonneg K f row). lia.
Qed.

(** ** Accumulators reachable from [countryObjects] *)

Lemma assoc_set_values l k c c' :
  c' ∈ (assoc_set l k c).*2 -> c' = c \/ c' ∈ l.*2.
Proof.
  induction l as [|[k1 c1] l IH]; cbn.
  - intros H. apply list_elem_of_singleton in H. left; exact H.
  - destruct (decide (k1 = k)) as [->|Hne]; cbn; intros H;
      apply elem_of_cons in H as [H|H].
    + left; exact H.
    + right. apply elem_of_cons. right; exact H.
    + right. apply elem_of_cons. left; exact H.
    + destruct (IH H) as [H'|H']; [left; exact H'|].
      right. apply elem_of_cons. right; exact H'.
Qed.

Lemma accumulators_obj_set o k c c' :
  c' ∈ accumulators (obj_set o k c) -> c' = c \/ c' ∈ accumulators o.
Proof.
  unfold accumulators. intros H. apply elem_of_app in H as [H|H].
  - unfold obj_set in H. destruct (decide (k = "__proto__")); cbn [proto] in H.
    + apply list_elem_of_singleton in H. left; exact H.
    + right. apply elem_of_app. left; exact H.
  - apply Object_values_elem in H. unfold obj_set in H.
    destruct (decide (k = "__proto__")); cbn [own] in H.
    + right. apply elem_of_app. right. apply Object_values_elem, H.
    + destruct (assoc_set_values _ _ _ _ H) as [H'|H']; [left; exact H'|].
      right. apply elem_of_app. right. apply Object_values_elem, H'.
Qed.

Lemma assoc_get_values l k c : assoc_get l k = Some c -> c ∈ l.*2.
Proof.
  induction l as [|[k1 c1] l IH]; cbn; [discriminate|].
  destruct (decide (k1 = k)); intros H.
  - injection H as ->. apply elem_of_cons. left; reflexivity.
  - apply elem_of_cons. right. apply IH, H.
Qed.

Lemma obj_get_accumulators o k c :
  obj_get o k = Some c -> c ∈ accumulators o.
Proof.
  unfold obj_get, accumulators. destruct (decide (k = "__proto__")); intros H.
  - rewrite H. apply elem_of_app. left. apply list_elem_of_singleton. reflexivity.
  - apply elem_of_app. right. apply Object_values_elem.
    eapply assoc_get_values, H.
Qed.

(** ** No counter ever goes negative *)

Section Nonneg.

Context (E : Env).

Local Abbreviation K := (constants E).

Lemma nonneg_add_totals row s :
  nonneg_state s ->
  nonneg_state
    (add_totals (getCaseCount row [COL_DEATHS K])
                (getCaseCount row [COL_CONFIRMED K])
                (getCaseCount row [COL_ACTIVE K])
                (getCaseCount row [COL_RECOVERED K]) s).
Proof.
  intros [Ht Hc]. split.
  - intros f. rewrite total_of_row.
    apply add_nonneg; [apply Ht|apply getCaseCount_nonneg].
  - exact Hc.
Qed.

Lemma nonneg_set_countryObjects s k c :
  nonneg_state s -> (forall f, 0 <= counter_of f c) ->
  nonneg_state (set_countryObjects (obj_set (countryObjects s) k c) s).
Proof.
  intros [Ht Hc] Hnew. split.
  - intros f. specialize (Ht f). destruct f; exact Ht.
  - cbn [countryObjects set_countryObjects]. intros c' Hin f.
    destruct (accumulators_obj_set _ _ _ _ Hin) as [->|Hold].
    + apply Hnew.
    + apply Hc, Hold.
Qed.

Lemma nonneg_populate_row row s :
  nonneg_state s -> nonneg_state (final (populate_row E row s)).
Proof.
  intros Hs.
  destruct (obj_get (countryObjects s) (country_key K row)) as [c|] eqn:Hget.
  - rewrite (populate_row_run E row s c Hget). cbn [final].
    pose proof (nonneg_add_totals row s Hs) as Hs'.
    apply (nonneg_set_countryObjects _ (country_key K row) (bump K row c)) in Hs'.
    + exact Hs'.
    + intros f. rewrite counter_of_bump.
      destruct Hs as [_ Hc].
      apply add_nonneg; [|apply getCaseCount_nonneg].
      apply (Hc c (obj_get_accumulators _ _ _ Hget) f).
  - rewrite (populate_row_throw E row s Hget). cbn [final].
    apply nonneg_add_totals, Hs.
Qed.

Lemma nonneg_forEach_populate rows : forall s,
  nonneg_state s -> nonneg_state (final (forEach (populate_row E) rows s)).
Proof.
  induction rows as [|row rows IH]; intros s Hs; cbn [forEach].
  - exact Hs.
  - rewrite bind_run. pose proof (nonneg_populate_row row s Hs) as Hrow.
    destruct (populate_row E row s) as [[] s'|e s'|s']; cbn [final] in *.
    + apply IH, Hrow.
    + exact Hrow.
    + exact Hrow.
Qed.

Lemma nonneg_populateCountryObjects s :
  nonneg_state s -> nonneg_state (final (populateCountryObjects E s)).
Proof.
  intros Hs. pose proof (nonneg_forEach_populate (csvRows s) s Hs) as Hrows.
  destruct (forEach (populate_row E) (csvRows s) s) as [[] s2|e s2|s2] eqn:Hrun;
    cbn [final] in Hrows.
  - destruct (obj_get (countryObjects s2) (WORLDWIDE K)) as [cw|] eqn:Hw.
    + rewrite (populateCountryObjects_run E s s2 cw Hrun Hw). cbn [final].
      apply nonneg_set_countryObjects; [exact Hrows|].
      intros f. rewrite counter_of_bump_totals. destruct Hrows as [Ht Hc].
      apply add_nonneg; [|apply Ht].
      apply (Hc cw (obj_get_accumulators _ _ _ Hw) f).
    + rewrite (populateCountryObjects_worldwide_throw E s s2 Hrun Hw).
      exact Hrows.
  - rewrite (populateCountryObjects_rows_throw E s e s2 Hrun). exact Hrows.
  - destruct (forEach_populate_settles E _ _ _ Hrun).
Qed.

Lemma nonneg_file_blanks d names : forall s,
  nonneg_state s ->
  nonneg_state (set_countryObjects (file_blanks d names (countryObjects s)) s).
Proof.
  induction names as [|n names IH]; intros s Hs; cbn [file_blanks fold_left].
  - destruct s; exact Hs.
  - pose proof (nonneg_set_countryObjects s
      (Js.ToString (getName (blank d n))) (blank d n) Hs) as H1.
    specialize (IH _ (H1 (fun f => Z.eq_le_incl _ _ (eq_sym (blank_at_zero d n f))))).
    exact IH.
Qed.

Lemma nonneg_createCountryObjects s :
  nonneg_state s -> nonneg_state (final (createCountryObjects E s)).
Proof.
  intros Hs. destruct (csvRows s) as [|row rest] eqn:Hrows.
  - rewrite (createCountryObjects_empty E s Hrows). exact Hs.
  - rewrite (createCountryObjects_run E s row rest Hrows). cbn [final].
    apply nonneg_file_blanks, Hs.
Qed.

Lemma nonneg_stage s :
  nonneg_state s ->
  nonneg_state
    (final ((createCountryObjects E;; populateCountryObjects E) s)).
Proof.
  intros H0. rewrite bind_run.
  pose proof (nonneg_createCountryObjects _ H0) as H1.
  destruct (createCountryObjects E _) as [[] s1|e s1|s1]; cbn [final] in *.
  - apply nonneg_populateCountryObjects, H1.
  - exact H1.
  - exact H1.
Qed.

Lemma nonneg_new rows : nonneg_state (set_csvRows rows (new_App ∅ ∅)).
Proof.
  split; [intros []; cbn; lia|]. intros c Hc. cbn in Hc.
  apply elem_of_nil in Hc as [].
Qed.

Lemma nonneg_aggregate rows : nonneg_state (final (aggregate E rows)).
Proof. unfold aggregate. apply nonneg_stage, nonneg_new. Qed.

End Nonneg.

(** ** The worldwide accumulator against the sum of the others *)

Lemma uniq_elem a : forall seen v, v ∈ a -> v ∈ seen \/ v ∈ uniq seen a.
Proof.
  induction a as [|x a IH]; intros seen v Hin; cbn [uniq].
  - apply elem_of_nil in Hin as [].
  - apply elem_of_cons in Hin as [->|Hin].
    + destruct (decide (x ∈ seen)); [left; assumption|].
      right. apply elem_of_cons. left; reflexivity.
    + destruct (decide (x ∈ seen)).
      * apply IH, Hin.
      * destruct (IH (x :: seen) v Hin) as [H|H].
        -- apply elem_of_cons in H as [->|H]; [|left; exact H].
           right. apply elem_of_cons. left; reflexivity.
        -- right. apply elem_of_cons. right; exact H.
Qed.

Lemma assoc_set_Forall (P : Country -> Prop) l k c :
  Forall (fun kc => P kc.2) l -> P c ->
  Forall (fun kc => P kc.2) (assoc_set l k c).
Proof.
  intros Hl Hc. induction Hl as [|[k1 c1] l H1 Hl IH]; cbn.
  - constructor; [exact Hc|constructor].
  - destruct (decide (k1 = k)); constructor; assumption.
Qed.

Lemma sum_others_at_zero f w l :
  Forall (fun kc => at_zero kc.2) l -> sum_others f w l = 0.
Proof.
  induction 1 as [|[k c] l Hc Hl IH]; cbn; [reflexivity|].
  rewrite IH. destruct (decide (k = w)); [reflexivity|].
  cbn in Hc. rewrite (Hc f). reflexivity.
Qed.

Lemma sum_others_nonneg f w l :
  Forall (fun kc => forall f, 0 <= counter_of f kc.2) l ->
  0 <= sum_others f w l.
Proof.
  induction 1 as [|[k c] l Hc Hl IH]; cbn; [lia|].
  cbn in Hc. specialize (Hc f). destruct (decide (k = w)); lia.
Qed.

(** A counter is at most the sum it is part of. *)
Lemma counter_le_sum_others f w l k c :
  Forall (fun kc => forall f, 0 <= counter_of f kc.2) l ->
  assoc_get l k = Some c -> k <> w ->
  counter_of f c <= sum_others f w l.
Proof.
  intros Hl. induction Hl as [|[k1 c1] l Hc Hl IH]; cbn; [discriminate|].
  intros Hget Hne. pose proof (sum_others_nonneg f w l Hl) as Hs.
  cbn in Hc. specialize (Hc f).
  destruct (decide (k1 = k)) as [->|Hne1].
  - injection Hget as ->. rewrite decide_False by assumption. lia.
  - specialize (IH Hget Hne). destruct (decide (k1 = w)); lia.
Qed.

Lemma file_blanks_own_at_zero d names : forall o,
  Forall (fun kc => at_zero kc.2) (own o) ->
  Forall (fun kc => at_zero kc.2) (own (file_blanks d names o)).
Proof.
  induction names as [|n names IH]; intros o Ho; cbn [file_blanks fold_left].
  - exact Ho.
  - apply IH. unfold obj_set.
    destruct (decide (_ = "__proto__")); cbn [own]; [exact Ho|].
    apply assoc_set_Forall; [exact Ho|apply blank_at_zero].
Qed.

Lemma file_blanks_keeps d names k : forall o,
  (exists c, obj_get o k = Some c /\ at_zero c) ->
  exists c, obj_get (file_blanks d names o) k = Some c /\ at_zero c.
Proof.
  induction names as [|n names IH]; intros o Ho; cbn [file_blanks fold_left].
  - exact Ho.
  - apply IH.
    destruct (decide (Js.ToString (getName (blank d n)) = k)) as [<-|Hne].
    + exists (blank d n). split; [apply obj_get_set_eq|apply blank_at_zero].
    + rewrite (obj_get_set_ne _ _ _ _ Hne). exact Ho.
Qed.

Lemma file_blanks_get d names : forall o v,
  v ∈ names ->
  exists c, obj_get (file_blanks d names o) (Js.ToString v) = Some c /\ at_zero c.
Proof.
  induction names as [|n names IH]; intros o v Hin.
  - apply elem_of_nil in Hin as [].
  - cbn [file_blanks fold_left].
    apply elem_of_cons in Hin as [->|Hin]; [|apply (IH _ _ Hin)].
    apply file_blanks_keeps. exists (blank d n).
    split; [apply obj_get_set_eq|apply blank_at_zero].
Qed.

Section Balance.

Context (E : Env).

Local Abbreviation K := (constants E).

Lemma row_name_listed s row :
  row ∈ csvRows s -> row_get row (COL_COUNTRY K) ∈ getCountryNamesArray E s.
Proof.
  intros Hin. unfold getCountryNamesArray.
  destruct (uniq_elem
    (map (fun row => row_get row (COL_COUNTRY K)) (csvRows s)
       ++ [Js.Str (WORLDWIDE K)]) [] (row_get row (COL_COUNTRY K))) as [H|H].
  - apply elem_of_app. left.
    apply (list_elem_of_fmap_2 (fun row => row_get row (COL_COUNTRY K))), Hin.
  - apply elem_of_nil in H as [].
  - exact H.
Qed.

Lemma worldwide_listed s : Js.Str (WORLDWIDE K) ∈ getCountryNamesArray E s.
Proof.
  unfold getCountryNamesArray.
  destruct (uniq_elem
    (map (fun row => row_get row (COL_COUNTRY K)) (csvRows s)
       ++ [Js.Str (WORLDWIDE K)]) [] (Js.Str (WORLDWIDE K))) as [H|H].
  - apply elem_of_app. right. apply list_elem_of_singleton. reflexivity.
  - apply elem_of_nil in H as [].
  - exact H.
Qed.

(** One row whose country is neither the sentinel nor [__proto__] keeps the
    loop invariant: within the bound no addition rounds. *)
Lemma populate_row_in_step row rows s c :
  totals_in_step K (row :: rows) s ->
  country_key K row <> WORLDWIDE K ->
  country_key K row <> "__proto__" ->
  obj_get (countryObjects s) (country_key K row) = Some c ->
  exists s', populate_row E row s = Ok tt s' /\ totals_in_step K rows s' /\
    csvRows s' = csvRows s /\
    forall k, is_Some (obj_get (countryObjects s) k) ->
              is_Some (obj_get (countryObjects s') k).
Proof.
  intros (Hsum & Hbound & Hnn & cw & Hw & Hzero) HneW HneP Hget.
  eexists. split; [apply populate_row_run, Hget|].
  cbn [countryObjects set_countryObjects add_totals csvRows].
  assert (assoc_get (own (countryObjects s)) (country_key K row) = Some c)
    as Hget'.
  { unfold obj_get in Hget. rewrite decide_False in Hget by assumption.
    exact Hget. }
  assert (forall f,
    total_of f s + getCaseCount row [column_of K f] <= exact_bound /\
    0 <= total_of f s /\ 0 <= counter_of f c <= total_of f s) as Hroom.
  { intros f. specialize (Hbound f). cbn [all_sum] in Hbound.
    unfold row_count in Hbound.
    pose proof (all_sum_nonneg K f rows).
    pose proof (counter_le_sum_others f _ _ _ _ Hnn Hget' HneW) as Hle.
    rewrite <- Hsum in Hle.
    pose proof (proj1 (Forall_forall _ _) Hnn (country_key K row, c)) as Hc.
    cbn in Hc.
    assert ((country_key K row, c) ∈ own (countryObjects s)) as Hin.
    { clear -Hget'. induction (own (countryObjects s)) as [|[k1 c1] l IH];
        cbn in Hget'; [discriminate|].
      destruct (decide (k1 = country_key K row)) as [->|].
      - injection Hget' as ->. apply elem_of_cons. left; reflexivity.
      - apply elem_of_cons. right. apply IH, Hget'. }
    specialize (Hc Hin f). lia. }
  assert (forall f, counter_of f (bump K row c) =
                    counter_of f c + getCaseCount row [column_of K f]) as Hbump.
  { intros f. destruct (Hroom f) as (H1 & H2 & H3).
    pose proof (getCaseCount_nonneg row [column_of K f]).
    rewrite counter_of_bump. apply add_exact; lia. }
  assert (forall f,
    total_of f (add_totals (getCaseCount row [COL_DEATHS K])
                  (getCaseCount row [COL_CONFIRMED K])
                  (getCaseCount row [COL_ACTIVE K])
                  (getCaseCount row [COL_RECOVERED K]) s) =
    total_of f s + getCaseCount row [column_of K f]) as Htot.
  { intros f. destruct (Hroom f) as (H1 & H2 & H3).
    pose proof (getCaseCount_nonneg row [column_of K f]).
    rewrite total_of_row. apply add_exact; lia. }
  split; [split; [|split; [|split]]|split].
  - intros f. rewrite total_of_set_countryObjects, Htot, Hsum.
    unfold obj_set. rewrite decide_False by assumption.
    cbn [own countryObjects set_countryObjects add_totals].
    rewrite (sum_others_set f _ _ _ c _ Hget' HneW), Hbump. lia.
  - intros f. rewrite total_of_set_countryObjects, Htot.
    specialize (Hbound f). cbn [all_sum] in Hbound. unfold row_count in Hbound.
    lia.
  - cbn [countryObjects set_countryObjects add_totals].
    unfold obj_set. rewrite decide_False by assumption. cbn [own].
    apply (assoc_set_Forall (fun c => forall f, 0 <= counter_of f c));
      [exact Hnn|].
    intros f. rewrite Hbump. destruct (Hroom f) as (H1 & H2 & H3).
    pose proof (getCaseCount_nonneg row [column_of K f]). lia.
  - exists cw. split; [|exact Hzero].
    cbn [countryObjects set_countryObjects add_totals].
    rewrite obj_get_set_ne by assumption. exact Hw.
  - reflexivity.
  - cbn [countryObjects set_countryObjects add_totals].
    intros k Hk. destruct (decide (country_key K row = k)) as [<-|Hne].
    + rewrite obj_get_set_eq. eexists; reflexivity.
    + rewrite obj_get_set_ne by assumption. exact Hk.
Qed.

Lemma populate_rows_in_step rows : forall s,
  totals_in_step K rows s ->
  (forall row, row ∈ rows ->
     country_key K row <> WORLDWIDE K /\ country_key K row <> "__proto__" /\
     is_Some (obj_get (countryObjects s) (country_key K row))) ->
  exists s', forEach (populate_row E) rows s = Ok tt s' /\
    totals_in_step K [] s' /\ csvRows s' = csvRows s.
Proof.
  induction rows as [|row rows IH]; intros s Hs Hrows; cbn [forEach].
  - exists s. split; [reflexivity|]. split; [exact Hs|reflexivity].
  - destruct (Hrows row) as (HneW & HneP & [c Hget]);
      [apply elem_of_cons; left; reflexivity|].
    destruct (populate_row_in_step row rows s c Hs HneW HneP Hget)
      as (s1 & Hrun & Hs1 & Hcsv & Hkeys).
    destruct (IH s1 Hs1) as (s' & Hrun' & Hs' & Hcsv').
    + intros r Hr. destruct (Hrows r) as (H1 & H2 & H3);
        [apply elem_of_cons; right; exact Hr|].
      split; [exact H1|]. split; [exact H2|]. apply Hkeys, H3.
    + exists s'. split; [|split; [exact Hs'|congruence]].
      rewrite bind_run, Hrun. exact Hrun'.
Qed.

(** Aggregation of a non-empty row sequence that names neither the sentinel
    nor [__proto__] as a country, and whose counts sum within the bound. *)
Lemma aggregate_balanced rows :
  rows <> [] ->
  (forall row, row ∈ rows ->
     country_key K row <> WORLDWIDE K /\ country_key K row <> "__proto__") ->
  (forall f, all_sum K f rows <= exact_bound) ->
  exists s, aggregate E rows = Ok tt s /\ worldwide_is_sum K (countryObjects s).
Proof.
  intros Hne Hrows Hbound. destruct rows as [|row0 rest]; [congruence|].
  unfold aggregate. rewrite bind_run.
  set (s0 := set_csvRows (row0 :: rest) (new_App ∅ ∅)).
  rewrite (createCountryObjects_run E s0 row0 rest eq_refl).
  set (d := DateUTC (row_get row0 (COL_LAST_UPDATE K))).
  set (s1 := set_countryObjects _ s0).
  assert (Forall (fun kc => at_zero kc.2) (own (countryObjects s1))) as Hz.
  { subst s1. cbn [countryObjects set_countryObjects].
    apply file_blanks_own_at_zero. constructor. }
  assert (totals_in_step K (row0 :: rest) s1) as Hs1.
  { split; [|split; [|split]].
    - intros f. rewrite sum_others_at_zero by exact Hz.
      destruct f; reflexivity.
    - intros f. specialize (Hbound f).
      replace (total_of f s1) with 0 by (destruct f; reflexivity). lia.
    - eapply Forall_impl; [exact Hz|]. intros kc Hkc f. rewrite (Hkc f). lia.
    - apply (file_blanks_get d (getCountryNamesArray E s0) (countryObjects s0)
               (Js.Str (WORLDWIDE K))), worldwide_listed. }
  destruct (populate_rows_in_step (row0 :: rest) s1 Hs1)
    as (s2 & Hrun & (Hsum & Hb2 & Hnn & cw & Hw & Hzero) & Hcsv).
  { intros r Hr. destruct (Hrows r Hr) as [H1 H2].
    split; [exact H1|]. split; [exact H2|].
    destruct (file_blanks_get d (getCountryNamesArray E s0) (countryObjects s0)
                (row_get r (COL_COUNTRY K))) as (c & Hc & _).
    - apply row_name_listed. exact Hr.
    - exists c. exact Hc. }
  eexists. split.
  - apply (populateCountryObjects_run E s1 s2 cw); [exact Hrun|exact Hw].
  - cbn [countryObjects set_countryObjects].
    exists (bump_totals s2 cw). split; [apply obj_get_set_eq|].
    intros f. rewrite counter_of_bump_totals, (Hzero f).
    rewrite sum_others_obj_set_w, <- Hsum.
    specialize (Hb2 f). cbn [all_sum] in Hb2.
    pose proof (sum_others_nonneg f (WORLDWIDE K) _ Hnn) as H0.
    rewrite <- Hsum in H0. apply add_exact; lia.
Qed.

(** Aggregation of one row whose country is neither the sentinel nor
    [__proto__]: the accumulator of the country, the worldwide accumulator
    and the running totals all hold the cleaned counts of the row. *)
Lemma aggregate_one_row row :
  country_key K row <> WORLDWIDE K ->
  country_key K row <> "__proto__" ->
  exists s c cw, aggregate E [row] = Ok tt s /\
    obj_get (countryObjects s) (country_key K row) = Some c /\
    obj_get (countryObjects s) (WORLDWIDE K) = Some cw /\
    forall f, counter_of f c = getCaseCount row [column_of K f] /\
              counter_of f cw = getCaseCount row [column_of K f] /\
              total_of f s = getCaseCount row [column_of K f].
Proof.
  intros HneW HneP. unfold aggregate. rewrite bind_run.
  set (s0 := set_csvRows [row] (new_App ∅ ∅)).
  rewrite (createCountryObjects_run E s0 row [] eq_refl).
  set (d := DateUTC (row_get row (COL_LAST_UPDATE K))).
  set (v := row_get row (COL_COUNTRY K)).
  assert (getCountryNamesArray E s0 = [v; Js.Str (WORLDWIDE K)]) as ->.
  { unfold getCountryNamesArray. cbn [csvRows s0 set_csvRows map app uniq].
    fold v. rewrite decide_False by (apply not_elem_of_nil).
    rewrite decide_False; [reflexivity|].
    intros Hin. apply list_elem_of_singleton in Hin.
    apply HneW. unfold country_key. fold v. rewrite <- Hin. reflexivity. }
  cbn [file_blanks fold_left countryObjects s0 set_csvRows new_App].
  change (Js.ToString (getName (blank d v))) with (country_key K row).
  change (Js.ToString (getName (blank d (Js.Str (WORLDWIDE K)))))
    with (WORLDWIDE K).
  set (o1 := obj_set (obj_set empty_object (country_key K row) (blank d v))
               (WORLDWIDE K) (blank d (Js.Str (WORLDWIDE K)))).
  set (s1 := set_countryObjects o1 s0).
  assert (obj_get o1 (country_key K row) = Some (blank d v)) as Hc1.
  { subst o1. rewrite obj_get_set_ne by congruence. apply obj_get_set_eq. }
  assert (forEach (populate_row E) (csvRows s1) s1 =
          populate_row E row s1) as Hloop.
  { cbn [csvRows s1 set_countryObjects s0 set_csvRows forEach].
    rewrite bind_run. destruct (populate_row E row _) as [[] ?|? ?|?];
      reflexivity. }
  pose proof (populate_row_run E row s1 (blank d v) Hc1) as Hrow.
  rewrite <- Hloop in Hrow.
  erewrite populateCountryObjects_run; [|exact Hrow|].
  2:{ cbn [countryObjects set_countryObjects add_totals s1].
      rewrite obj_get_set_ne by assumption. subst o1. apply obj_get_set_eq. }
  do 3 eexists. split; [reflexivity|].
  cbn [countryObjects set_countryObjects add_totals s1].
  split; [|split].
  - rewrite obj_get_set_ne by congruence. apply obj_get_set_eq.
  - apply obj_get_set_eq.
  - intros f.
    assert (forall st, total_of f st = 0 ->
      total_of f
        (add_totals (getCaseCount row [COL_DEATHS K])
           (getCaseCount row [COL_CONFIRMED K])
           (getCaseCount row [COL_ACTIVE K])
           (getCaseCount row [COL_RECOVERED K]) st) =
      getCaseCount row [column_of K f]) as Htot.
    { intros st Hst. rewrite total_of_row, Hst.
      apply add_zero, getCaseCount_double. }
    assert (total_of f s1 = 0) as H1 by (destruct f; reflexivity).
    split; [|split].
    + rewrite counter_of_bump, (blank_at_zero d v f).
      apply add_zero, getCaseCount_double.
    + rewrite counter_of_bump_totals, (blank_at_zero d _ f).
      rewrite total_of_set_countryObjects, (Htot s1 H1).
      apply add_zero, getCaseCount_double.
    + rewrite !total_of_set_countryObjects. apply (Htot s1 H1).
Qed.

End Balance.

(** ** The aggregation claims *)

(** C1, as stated, fails: a row that names ["Worldwide"] as its country is
    added to the worldwide accumulator once as a country and once more with
    the totals.  With a USA row of 100 confirmed and a Worldwide row of 7
    confirmed, the worldwide accumulator ends at 114 confirmed while the
    other accumulators sum to 100. *)
Lemma C1_sentinel_row_counterexample :
  exists s,
    aggregate (demo_env source_down) [usa_row; worldwide_row] = Ok tt s /\
    ~ worldwide_is_sum (constants (demo_env source_down)) (countryObjects s).
Proof.
  eexists. split; [vm_compute; reflexivity|].
  intros (cw & Hget & Hsum). vm_compute in Hget. injection Hget as <-.
  specialize (Hsum Confirmed). vm_compute in Hsum. discriminate.
Qed.

(** Beyond 2^53 the additions round, and they round the worldwide totals and
    the counters of a country apart: with confirmed counts of 2^53 for A and
    of 1 and 1 for B, the running total stays at 2^53 twice, while B holds 2;
    the worldwide accumulator ends at 2^53 and the others sum to 2^53 + 2. *)
Example rounding_breaks_the_balance :
  exists s cw,
    aggregate (demo_env source_down) [row_2p53; row_one; row_one] = Ok tt s /\
    obj_get (countryObjects s) "Worldwide" = Some cw /\
    confirmed cw = 2 ^ 53 /\
    sum_others Confirmed "Worldwide" (own (countryObjects s)) = 2 ^ 53 + 2.
Proof.
  do 2 eexists. split; [vm_compute; reflexivity|].
  split; [reflexivity|]. split; reflexivity.
Qed.

(** C1, amended: for every non-empty row sequence in which no row names the
    sentinel ["Worldwide"] (nor the key [__proto__]) as its country, and in
    which the cleaned counts of each column sum to at most 2^53, aggregation
    completes, and each of the four counters of the worldwide accumulator
    equals the sum of that counter over the other accumulators. *)
Theorem C1_worldwide_is_sum_of_countries (E : Env) (rows : list RawRow) :
  rows <> [] ->
  (forall row, row ∈ rows ->
     country_key (constants E) row <> WORLDWIDE (constants E) /\
     country_key (constants E) row <> "__proto__") ->
  (forall f, all_sum (constants E) f rows <= 2 ^ 53) ->
  exists s, aggregate E rows = Ok tt s /\
    exists cw, obj_get (countryObjects s) (WORLDWIDE (constants E)) = Some cw /\
      forall f, counter_of f cw =
                sum_others f (WORLDWIDE (constants E)) (own (countryObjects s)).
Proof. apply aggregate_balanced. Qed.

Lemma C1_worldwide_is_sum_witness :
  exists s, aggregate (demo_env source_down) [usa_row; italy_row] = Ok tt s /\
    exists cw, obj_get (countryObjects s) "Worldwide" = Some cw /\
      forall f, counter_of f cw = sum_others f "Worldwide" (own (countryObjects s)).
Proof.
  apply (C1_worldwide_is_sum_of_countries (demo_env source_down)
           [usa_row; italy_row]).
  - discriminate.
  - intros row Hin.
    apply elem_of_cons in Hin as [->|Hin];
      [vm_compute; split; discriminate|].
    apply elem_of_cons in Hin as [->|Hin];
      [vm_compute; split; discriminate|].
    apply elem_of_nil in Hin as [].
  - intros []; vm_compute; discriminate.
Defined.

(** C2: for each of the four count columns of a row, the cleaned count is 0
    when [parseInt] yields NaN, in particular when the column is missing
    from the row, the absolute value when the parsed integer is negative,
    and the parsed integer otherwise.  It is this count that is folded in:
    one row adds it to the running total and to the counter of its country
    (by the addition of Numbers), and aggregating the row alone leaves it in
    the counter of the country, in the worldwide counter and in the total.
    Consequently, whatever the rows, no counter of any accumulator, and no
    running total, is negative when aggregation ends. *)
Theorem C2_cleaned_counts (E : Env) (row : RawRow) (f : Counter) :
  let K := constants E in
  let col := column_of K f in
  let x := getCaseCount row [col] in
  (Js.parseInt (row_get row col) = None -> x = 0) /\
  (row !! col = None -> x = 0) /\
  (forall n, Js.parseInt (row_get row col) = Some n -> n < 0 -> x = Z.abs n) /\
  (forall n, Js.parseInt (row_get row col) = Some n -> 0 <= n -> x = n) /\
  (forall s c, obj_get (countryObjects s) (country_key K row) = Some c ->
     exists s' c', populate_row E row s = Ok tt s' /\
       obj_get (countryObjects s') (country_key K row) = Some c' /\
       total_of f s' = Js.add (total_of f s) x /\
       counter_of f c' = Js.add (counter_of f c) x) /\
  (country_key K row <> WORLDWIDE K -> country_key K row <> "__proto__" ->
     exists s c cw, aggregate E [row] = Ok tt s /\
       obj_get (countryObjects s) (country_key K row) = Some c /\
       obj_get (countryObjects s) (WORLDWIDE K) = Some cw /\
       counter_of f c = x /\ counter_of f cw = x /\ total_of f s = x) /\
  (forall rows c g,
     c ∈ accumulators (countryObjects (final (aggregate E rows))) ->
     0 <= counter_of g c) /\
  (forall rows g, 0 <= total_of g (final (aggregate E rows))).
Proof.
  intros K col x. subst x col.
  split; [|split; [|split; [|split; [|split; [|split; [|split]]]]]].
  - intros H. rewrite getCaseCount_cleaned, H. reflexivity.
  - intros H. rewrite getCaseCount_cleaned. unfold row_get. rewrite H.
    reflexivity.
  - intros n H Hn. rewrite getCaseCount_cleaned, H. reflexivity.
  - intros n H Hn. rewrite getCaseCount_cleaned, H. cbn. lia.
  - intros s c Hget. do 2 eexists.
    split; [apply populate_row_run, Hget|].
    cbn [countryObjects set_countryObjects].
    split; [apply obj_get_set_eq|]. split.
    + rewrite total_of_set_countryObjects. apply total_of_row.
    + apply counter_of_bump.
  - intros HneW HneP.
    destruct (aggregate_one_row E row HneW HneP)
      as (s & c & cw & Hrun & Hc & Hcw & Hf).
    exists s, c, cw. destruct (Hf f) as (H1 & H2 & H3). tauto.
  - intros rows c g Hc. destruct (nonneg_aggregate E rows) as [_ H].
    apply H, Hc.
  - intros rows g. destruct (nonneg_aggregate E rows) as [H _]. apply H.
Qed.

(** C3: the two-row scenario.  With the header's column names, the rows
    [USA,100,5,-50,45] and [Italy,abc,2,10,18] aggregate to exactly three
    accumulators: USA (100, 5, 50, 45), Italy (0, 2, 10, 18) and Worldwide
    (100, 7, 60, 63) for confirmed, deaths, recovered, active. *)
Theorem C3_two_row_scenario (url dir dn : string) (day : Z)
    (src : string -> Fetch) (rej : nat -> bool) :
  let E := {| constants := spec_constants url dir; dirname := dn; now := day;
              remote := src; dbRejects := rej |} in
  let stamp := Some (DateUTC (Js.Str "2021-01-01 04:00:00")) in
  exists s, aggregate E [usa_row; italy_row] = Ok tt s /\
    countryObjects s =
    {| own :=
         [("USA", {| name := Js.Str "USA"; confirmed := 100; deaths := 5;
                     recovered := 50; active := 45;
                     lastUpdatedBySourceAt := stamp |});
          ("Italy", {| name := Js.Str "Italy"; confirmed := 0; deaths := 2;
                       recovered := 10; active := 18;
                       lastUpdatedBySourceAt := stamp |});
          ("Worldwide", {| name := Js.Str "Worldwide"; confirmed := 100;
                           deaths := 7; recovered := 60; active := 63;
                           lastUpdatedBySourceAt := stamp |})];
       proto := None |}.
Proof.
  intros E stamp. eexists. split; [vm_compute; reflexivity|reflexivity].
Qed.

(** ** Texts with digits in front *)

Lemma fold_digits_nonneg R ds : forall acc,
  0 <= R -> Forall (fun d => 0 <= d) ds -> 0 <= acc ->
  0 <= fold_left (fun a d => a * R + d) ds acc.
Proof.
  induction ds as [|d ds IH]; intros acc HR Hds Hacc; cbn [fold_left].
  - exact Hacc.
  - inversion Hds; subst. apply IH; [assumption|assumption|nia].
Qed.

Lemma leadingDigits_nonneg s : Forall (fun d => 0 <= d) (leadingDigits s).
Proof.
  induction s as [|c s IH]; cbn [leadingDigits]; [constructor|].
  destruct (isDecimalDigit c) eqn:Hc; [|constructor].
  constructor; [|exact IH].
  unfold isDecimalDigit in Hc. apply andb_true_iff in Hc as [H1 _].
  apply Z.leb_le in H1. lia.
Qed.

Lemma leadingInteger_nonneg s n : leadingInteger s = Some n -> 0 <= n.
Proof.
  unfold leadingInteger. pose proof (leadingDigits_nonneg s) as H.
  destruct (leadingDigits s) as [|d ds]; [discriminate|].
  intros [= <-]. apply (fold_digits_nonneg 10); [lia|exact H|lia].
Qed.

Lemma hexDigit_nonneg c d : hexDigit c = Some d -> 0 <= d.
Proof.
  unfold hexDigit.
  repeat match goal with
    | |- context [Z.leb ?a ?b] => destruct (Z.leb_spec a b); cbn
    end; intros [= <-] || discriminate; lia.
Qed.

Lemma leadingHexDigits_nonneg s : Forall (fun d => 0 <= d) (leadingHexDigits s).
Proof.
  induction s as [|c s IH]; cbn [leadingHexDigits]; [constructor|].
  destruct (hexDigit c) as [d|] eqn:Hc; [|constructor].
  constructor; [apply (hexDigit_nonneg c d Hc)|exact IH].
Qed.

Lemma leadingHexInteger_nonneg s n : leadingHexInteger s = Some n -> 0 <= n.
Proof.
  unfold leadingHexInteger. pose proof (leadingHexDigits_nonneg s) as H.
  destruct (leadingHexDigits s) as [|d ds]; [discriminate|].
  intros [= <-]. apply (fold_digits_nonneg 16); [lia|exact H|lia].
Qed.

(** The prefix test of [parseInt], spelled out. *)
Lemma hasHexPrefix_spec s :
  Js.hasHexPrefix s = true <-> exists t, s = "0x" ++ t \/ s = "0X" ++ t.
Proof.
  unfold Js.hasHexPrefix. split.
  - intros H. apply orb_true_iff in H.
    destruct s as [|c1 [|c2 t]].
    + destruct H as [H|H]; discriminate.
    + destruct H as [H|H]; apply String.prefix_correct in H; discriminate.
    + exists t.
      destruct H as [H|H]; apply String.prefix_correct in H;
        cbn [String.length String.substring] in H;
        destruct t; injection H as -> ->; [left|left|right|right];
        reflexivity.
  - intros (t & [-> | ->]); cbn; rewrite ?orb_true_r; destruct t; reflexivity.
Qed.

(** C10, as stated, fails on a text that [parseInt] takes for hexadecimal:
    ["0x1F"] starts with the integer 0 followed by other characters, and the
    count folded in is 31. *)
Lemma C10_hex_prefix_counterexample :
  exists n, leadingInteger "0x1F" = Some n /\
    getCaseCount row_0x1F ["Confirmed"] <> n.
Proof. exists 0. split; [reflexivity|]. vm_compute. discriminate. Qed.

(** C10, amended: for a count field that starts with decimal digits and does
    not start with [0x] or [0X], the count folded in is the double nearest to
    the integer those leading digits spell, whatever follows them, hence that
    integer itself when it is at most 2^53; and such a field is treated as
    unparsable only when it has no leading digit.  For a field that starts
    with [0x] or [0X], the count is the double nearest to the integer spelled
    by the hexadecimal digits after the prefix, and 0 when none follows. *)
Theorem C10_leading_digits_count (row : RawRow) (col s : string) :
  row !! col = Some s ->
  (Js.hasHexPrefix s = false ->
     (forall n, leadingInteger s = Some n ->
        getCaseCount row [col] = Js.round n /\
        (n <= 2 ^ 53 -> getCaseCount row [col] = n)) /\
     (Js.parseInt (row_get row col) = None -> leadingInteger s = None)) /\
  (forall t, s = "0x" ++ t \/ s = "0X" ++ t ->
     getCaseCount row [col] =
     match leadingHexInteger t with
     | Some n => Js.round n
     | None => 0
     end).
Proof.
  intros Hcol.
  assert (row_get row col = Js.Str s) as Hget
    by (unfold row_get; rewrite Hcol; reflexivity).
  split.
  - intros Hhex. split.
    + intros n Hn. pose proof (leadingInteger_nonneg s n Hn) as H0.
      assert (getCaseCount row [col] = Js.round n) as Hx.
      { rewrite getCaseCount_cleaned, Hget.
        rewrite (parseInt_leadingInteger s n Hn Hhex). cbn [cleaned].
        apply Z.abs_eq, round_nonneg, H0. }
      split; [exact Hx|]. intros Hle. rewrite Hx. apply round_small.
      unfold exact_bound. lia.
    + rewrite Hget. intros Hnan.
      destruct (leadingInteger s) as [n|] eqn:Hn; [|reflexivity].
      rewrite (parseInt_leadingInteger s n Hn Hhex) in Hnan. discriminate.
  - intros t Ht. rewrite getCaseCount_cleaned, Hget.
    rewrite (parseInt_hexadecimal s t Ht).
    destruct (leadingHexInteger t) as [n|] eqn:Hn; cbn; [|reflexivity].
    apply Z.abs_eq, round_nonneg, (leadingHexInteger_nonneg t n Hn).
Qed.

Lemma C10_leading_digits_count_witness :
  (Js.hasHexPrefix "12abc" = false ->
     (forall n, leadingInteger "12abc" = Some n ->
        getCaseCount row_12abc ["Confirmed"] = Js.round n /\
        (n <= 2 ^ 53 -> getCaseCount row_12abc ["Confirmed"] = n)) /\
     (Js.parseInt (row_get row_12abc "Confirmed") = None ->
      leadingInteger "12abc" = None)) /\
  (forall t, "12abc" = "0x" ++ t \/ "12abc" = "0X" ++ t ->
     getCaseCount row_12abc ["Confirmed"] =
     match leadingHexInteger t with
     | Some n => Js.round n
     | None => 0
     end).
Proof.
  apply (C10_leading_digits_count row_12abc "Confirmed" "12abc").
  vm_compute. reflexivity.
Defined.

Example getCaseCount_12abc : getCaseCount row_12abc ["Confirmed"] = 12.
Proof. vm_compute. reflexivity. Qed.

Example getCaseCount_fraction : getCaseCount row_12abc ["Deaths"] = 5.
Proof. vm_compute. reflexivity. Qed.

Example getCaseCount_hex : getCaseCount row_0x1F ["Confirmed"] = 31.
Proof. vm_compute. reflexivity. Qed.

Example getCaseCount_rounds :
  getCaseCount (csv_row "A" "9007199254740993abc" "0" "0" "0" "")
    ["Confirmed"] = 9007199254740992.
Proof. vm_compute. reflexivity. Qed.

(** ** The probing loop of [downloadCsvFile] *)

Lemma land_None s : opening s = None -> land s = s.
Proof. unfold land. intros ->. reflexivity. Qed.

Lemma land_opening s : opening (land s) = None.
Proof. unfold land. destruct (opening s) eqn:H; [reflexivity|exact H]. Qed.

Lemma land_land s : land (land s) = land s.
Proof. apply land_None, land_opening. Qed.

Lemma land_files_sub s p : is_Some (files s !! p) -> is_Some (files (land s) !! p).
Proof.
  unfold land. destruct (opening s) as [q|]; [|trivial]. cbn [files set_opening set_files].
  intros Hp. destruct (decide (q = p)) as [->|Hne].
  - rewrite lookup_insert_eq. eexists; reflexivity.
  - rewrite lookup_insert_ne by assumption. exact Hp.
Qed.

Section Download.

Context (E : Env) (Hst : Host).

Local Abbreviation K := (constants E).

Ltac run_attempt i Hfetch :=
  cbn [downloadCsvFile_loop];
  unfold try_catch, download, mbind, M_bind, bind, createWriteStream, write,
    unlinkSync, console_log, modify, get, throw, pending, mret, M_ret, ret;
  change (Moment.format_MM_DD_YYYY (Moment.subtract (today E Hst i) i) ++ ".csv")
    with (fileNameOf E Hst i);
  cbn [csvFileName set_csvFileName set_files set_requests set_opening];
  change (sprintf (DATA_URL K) (fileNameOf E Hst i)) with (urlOf E Hst i);
  rewrite Hfetch;
  cbn [csvFileName set_csvFileName set_files set_requests set_opening
       set_console files requests console opening];
  change (dirname E ++ "/" ++ DATA_DIR K ++ "/" ++ fileNameOf E Hst i)
    with (pathOf E (fileNameOf E Hst i)).

(** The file name is set before anything is awaited, so the stream of this
    attempt opens after what was under way. *)
Lemma land_set_csvFileName v s : land (set_csvFileName v s) = set_csvFileName v (land s).
Proof. unfold land. cbn [opening set_csvFileName]. destruct (opening s); reflexivity. Qed.

Ltac land_attempt s :=
  rewrite land_set_csvFileName;
  generalize (land s); intros s0; unfold land;
  cbn [opening set_opening set_requests files set_files set_csvFileName
       csvFileName requests console set_console].

(** One attempt, by the outcome of its request; [land s] is the state once an
    open still under way has completed. *)
Lemma attempt_failed_run n i s partial :
  remote E (urlOf E Hst i) = Failed partial ->
  downloadCsvFile_loop E Hst (S n) i s =
  downloadCsvFile_loop E Hst n (i + 1) (attempt_failed E Hst i (land s)).
Proof.
  intros Hfetch. run_attempt i Hfetch. land_attempt s.
  rewrite lookup_insert_eq. rewrite !delete_insert_eq.
  reflexivity.
Qed.

Lemma attempt_fetched_run n i s body :
  remote E (urlOf E Hst i) = Fetched body ->
  downloadCsvFile_loop E Hst (S n) i s =
  Ok true (attempt_ok E Hst i body (land s)).
Proof.
  intros Hfetch. run_attempt i Hfetch. land_attempt s.
  rewrite insert_insert_eq.
  reflexivity.
Qed.

Lemma attempt_stuck_run n i s partial :
  remote E (urlOf E Hst i) = Unsettled partial ->
  downloadCsvFile_loop E Hst (S n) i s =
  Hang (attempt_stuck E Hst i partial (land s)).
Proof.
  intros Hfetch. run_attempt i Hfetch. land_attempt s.
  rewrite insert_insert_eq.
  reflexivity.
Qed.

(** A request refused before the stream has opened its file: [unlinkSync]
    finds no file, unless one of that name was staged before. *)
Lemma attempt_refused_absent n i s :
  remote E (urlOf E Hst i) = FailedBeforeOpen ->
  files (land s) !! pathOf E (fileNameOf E Hst i) = None ->
  downloadCsvFile_loop E Hst (S n) i s =
  Throw ENOENT (requested E Hst i (land s)).
Proof.
  intros Hfetch. run_attempt i Hfetch.
  rewrite land_set_csvFileName. generalize (land s). intros s0 Hnone.
  cbn [files csvFileName set_csvFileName set_requests set_opening].
  change (dirname E ++ "/" ++ DATA_DIR K ++ "/" ++ fileNameOf E Hst i)
    with (pathOf E (fileNameOf E Hst i)).
  rewrite Hnone. reflexivity.
Qed.

Lemma attempt_refused_present n i s old :
  remote E (urlOf E Hst i) = FailedBeforeOpen ->
  files (land s) !! pathOf E (fileNameOf E Hst i) = Some old ->
  downloadCsvFile_loop E Hst (S n) i s =
  downloadCsvFile_loop E Hst n (i + 1)
    (set_files (delete (pathOf E (fileNameOf E Hst i)) (files (land s)))
       (requested E Hst i (land s))).
Proof.
  intros Hfetch. run_attempt i Hfetch.
  rewrite land_set_csvFileName. generalize (land s). intros s0 Hold.
  cbn [files csvFileName set_csvFileName set_requests set_opening].
  change (dirname E ++ "/" ++ DATA_DIR K ++ "/" ++ fileNameOf E Hst i)
    with (pathOf E (fileNameOf E Hst i)).
  rewrite Hold. reflexivity.
Qed.

(** The same from a state in which no open is under way. *)
Lemma loop_failed n i s partial :
  opening s = None ->
  remote E (urlOf E Hst i) = Failed partial ->
  downloadCsvFile_loop E Hst (S n) i s =
  downloadCsvFile_loop E Hst n (i + 1) (attempt_failed E Hst i s).
Proof.
  intros Hop Hfetch. rewrite (attempt_failed_run n i s partial Hfetch).
  rewrite (land_None s Hop). reflexivity.
Qed.

Lemma loop_fetched n i s body :
  opening s = None ->
  remote E (urlOf E Hst i) = Fetched body ->
  downloadCsvFile_loop E Hst (S n) i s = Ok true (attempt_ok E Hst i body s).
Proof.
  intros Hop Hfetch. rewrite (attempt_fetched_run n i s body Hfetch).
  rewrite (land_None s Hop). reflexivity.
Qed.



Lemma loop_refused_present n i s old :
  opening s = None ->
  remote E (urlOf E Hst i) = FailedBeforeOpen ->
  files s !! pathOf E (fileNameOf E Hst i) = Some old ->
  downloadCsvFile_loop E Hst (S n) i s =
  downloadCsvFile_loop E Hst n (i + 1)
    (set_files (delete (pathOf E (fileNameOf E Hst i)) (files s))
       (requested E Hst i s)).
Proof.
  intros Hop Hfetch Hold.
  rewrite (attempt_refused_present n i s old Hfetch);
    rewrite (land_None s Hop); [reflexivity|exact Hold].
Qed.

(** A run of failed attempts, each with its file opened. *)
Lemma loop_fail_range m : forall n i s,
  opening s = None ->
  all_fail_opened E Hst i m ->
  downloadCsvFile_loop E Hst (m + n) i s =
  downloadCsvFile_loop E Hst n (i + Z.of_nat m) (fail_range E Hst m i s).
Proof.
  induction m as [|m IH]; intros n i s Hop Hall.
  - cbn [fail_range Nat.add]. rewrite Z.add_0_r. reflexivity.
  - destruct (Hall i) as [p Hp]; [lia|].
    change (S m + n)%nat with (S (m + n)).
    rewrite (loop_failed (m + n) i s p Hop Hp). cbn [fail_range].
    rewrite IH.
    + f_equal. lia.
    + reflexivity.
    + intros j Hj. apply Hall. lia.
Qed.

(** The rejection of a request never leaves the loop: what the loop can
    throw is the error of [unlinkSync]. *)
Lemma loop_throws_only_ENOENT n : forall i s e s',
  downloadCsvFile_loop E Hst n i s = Throw e s' -> e = ENOENT.
Proof.
  induction n as [|n IH]; intros i s e s'; [discriminate|].
  destruct (remote E (urlOf E Hst i)) as [b|p| |p] eqn:Hi.
  - rewrite (attempt_fetched_run n i s b Hi). discriminate.
  - rewrite (attempt_failed_run n i s p Hi). apply IH.
  - destruct (files (land s) !! pathOf E (fileNameOf E Hst i)) as [old|] eqn:Hf.
    + rewrite (attempt_refused_present n i s old Hi Hf). apply IH.
    + rewrite (attempt_refused_absent n i s Hi Hf). intros [= <- _]. reflexivity.
  - rewrite (attempt_stuck_run n i s p Hi). discriminate.
Qed.

Lemma fail_range_opening m : forall i s,
  opening s = None -> opening (fail_range E Hst m i s) = None.
Proof.
  induction m as [|m IH]; intros i s Hs; [exact Hs|].
  cbn [fail_range]. apply IH. reflexivity.
Qed.

Lemma fail_range_requests m : forall i s,
  requests (fail_range E Hst m i s) =
  (requests s ++ map (urlOf E Hst) (candidates i m))%list.
Proof.
  induction m as [|m IH]; intros i s; cbn [fail_range candidates map].
  - rewrite app_nil_r. reflexivity.
  - rewrite IH. cbn [requests attempt_failed]. rewrite <- app_assoc.
    reflexivity.
Qed.

Lemma fail_range_keeps_gone m p : forall i s,
  opening s = None -> files s !! p = None ->
  files (fail_range E Hst m i s) !! p = None.
Proof.
  induction m as [|m IH]; intros i s Hop H; [exact H|].
  cbn [fail_range]. apply IH; [reflexivity|]. cbn [files attempt_failed].
  destruct (decide (pathOf E (fileNameOf E Hst i) = p)) as [->|Hp];
    [apply lookup_delete_eq|].
  rewrite lookup_delete_ne by assumption. exact H.
Qed.

Lemma fail_range_files_gone m : forall i s j,
  i <= j < i + Z.of_nat m ->
  files (fail_range E Hst m i s) !! pathOf E (fileNameOf E Hst j) = None.
Proof.
  induction m as [|m IH]; intros i s j Hj; [lia|].
  cbn [fail_range]. destruct (decide (j = i)) as [->|Hne].
  - apply fail_range_keeps_gone; [reflexivity|].
    cbn [files attempt_failed]. apply lookup_delete_eq.
  - apply IH. lia.
Qed.

Lemma fail_range_files_sub m : forall i s p,
  opening s = None ->
  is_Some (files (fail_range E Hst m i s) !! p) -> is_Some (files s !! p).
Proof.
  induction m as [|m IH]; intros i s p Hop H; [exact H|].
  cbn [fail_range] in H. apply IH in H; [|reflexivity].
  cbn [files attempt_failed] in H.
  destruct (decide (pathOf E (fileNameOf E Hst i) = p)) as [<-|Hp].
  - rewrite lookup_delete_eq in H. destruct H; discriminate.
  - rewrite lookup_delete_ne in H by assumption. exact H.
Qed.

(** Other files are left as they were. *)
Lemma fail_range_files_other m : forall i s p,
  opening s = None ->
  (forall j, i <= j < i + Z.of_nat m -> pathOf E (fileNameOf E Hst j) <> p) ->
  files (fail_range E Hst m i s) !! p = files s !! p.
Proof.
  induction m as [|m IH]; intros i s p Hop Hp; [reflexivity|].
  cbn [fail_range]. rewrite IH; [|reflexivity|intros j Hj; apply Hp; lia].
  cbn [files attempt_failed].
  apply lookup_delete_ne, Hp. lia.
Qed.

Lemma fail_range_untouched m : forall i s,
  untouched s (fail_range E Hst m i s) /\
  dirs (fail_range E Hst m i s) = dirs s /\
  console (fail_range E Hst m i s) = console s.
Proof.
  induction m as [|m IH]; intros i s; cbn [fail_range].
  - unfold untouched. repeat split; reflexivity.
  - destruct (IH (i + 1) (attempt_failed E Hst i s))
      as ((H1 & H2 & H3 & H4) & H5 & H6).
    unfold untouched. rewrite H1, H2, H4, H5, H6.
    repeat split; try reflexivity.
    intros f. rewrite H3. destruct f; reflexivity.
Qed.

Lemma fail_range_csvFileName m i s :
  csvFileName (fail_range E Hst (S m) i s) = fileNameOf E Hst (i + Z.of_nat m).
Proof.
  revert i s. induction m as [|m IH]; intros i s.
  - cbn. rewrite Z.add_0_r. reflexivity.
  - change (fail_range E Hst (S (S m)) i s)
      with (fail_range E Hst (S m) (i + 1) (attempt_failed E Hst i s)).
    rewrite IH. f_equal. lia.
Qed.

(** [downloadCsvFile] around its loop. *)
Lemma downloadCsvFile_run s :
  dir_ready E Hst s ->
  downloadCsvFile E Hst s =
  match downloadCsvFile_loop E Hst tries 0 (with_data_dir E s) with
  | Ok true s1 => Ok tt s1
  | Ok false s1 => Ok tt (set_console (console s1 ++ [failure_line]) s1)
  | Throw e s1 => Throw e s1
  | Hang s1 => Hang s1
  end.
Proof.
  intros Hdir.
  unfold downloadCsvFile, existsSync, mkdirSync, with_data_dir, console_log,
    mbind, M_bind, bind, get, modify, mret, M_ret, ret.
  cbn zeta. fold (pathDataDir E).
  destruct (bool_decide (pathDataDir E ∈ dirs s)) eqn:Hthere.
  - destruct (downloadCsvFile_loop E Hst tries 0 s) as [[] s1|e s1|s1];
      reflexivity.
  - destruct Hdir as [Hin|Hmk].
    + apply bool_decide_eq_false in Hthere. contradiction.
    + rewrite Hmk.
      destruct (downloadCsvFile_loop E Hst tries 0 _) as [[] s1|e s1|s1];
        reflexivity.
Qed.

(** Without the staging directory, and unable to make it, [downloadCsvFile]
    ends at [mkdirSync]. *)
Lemma downloadCsvFile_no_dir s :
  pathDataDir E ∉ dirs s -> canMkdir Hst (pathDataDir E) = false ->
  downloadCsvFile E Hst s = Throw MkdirFailed s.
Proof.
  intros Hout Hmk.
  unfold downloadCsvFile, existsSync, mkdirSync, mbind, M_bind, bind, get.
  cbn zeta. fold (pathDataDir E).
  rewrite bool_decide_eq_false_2 by assumption. rewrite Hmk. reflexivity.
Qed.

(** What [downloadCsvFile] can throw: the errors of [mkdirSync] and of
    [unlinkSync], never the rejection of a request. *)
Lemma downloadCsvFile_throws s e s' :
  downloadCsvFile E Hst s = Throw e s' -> e = MkdirFailed \/ e = ENOENT.
Proof.
  destruct (decide (pathDataDir E ∈ dirs s)) as [Hin|Hout].
  - rewrite downloadCsvFile_run by (left; exact Hin).
    destruct (downloadCsvFile_loop E Hst tries 0 _) as [[] s1|e1 s1|s1] eqn:Hl;
      try discriminate.
    intros [= <- _]. right. apply (loop_throws_only_ENOENT _ _ _ _ _ Hl).
  - destruct (canMkdir Hst (pathDataDir E)) eqn:Hmk.
    + rewrite downloadCsvFile_run by (right; exact Hmk).
      destruct (downloadCsvFile_loop E Hst tries 0 _) as [[] s1|e1 s1|s1] eqn:Hl;
        try discriminate.
      intros [= <- _]. right. apply (loop_throws_only_ENOENT _ _ _ _ _ Hl).
    + rewrite (downloadCsvFile_no_dir s Hout Hmk). intros [= <- _].
      left; reflexivity.
Qed.

End Download.

Lemma append_inj_l (a b c : string) : a ++ b = a ++ c -> b = c.
Proof.
  induction a as [|x a IH]; cbn; intros H; [exact H|].
  injection H as H. apply IH, H.
Qed.

Lemma pathOf_inj E a b : pathOf E a = pathOf E b -> a = b.
Proof.
  unfold pathOf. intros H.
  apply append_inj_l, (append_inj_l "/"), append_inj_l, (append_inj_l "/") in H.
  exact H.
Qed.

Lemma with_data_dir_same E s :
  files (with_data_dir E s) = files s /\ requests (with_data_dir E s) = requests s /\
  console (with_data_dir E s) = console s /\ untouched s (with_data_dir E s) /\
  opening (with_data_dir E s) = opening s.
Proof.
  unfold with_data_dir, untouched. cbn zeta.
  destruct (bool_decide _); repeat split; try reflexivity;
    intros f; destruct f; reflexivity.
Qed.

Lemma total_of_attempt_ok E Hst k body s f :
  total_of f (attempt_ok E Hst k body s) = total_of f s.
Proof. destruct f; reflexivity. Qed.

Lemma total_of_set_console l s f :
  total_of f (set_console l s) = total_of f s.
Proof. destruct f; reflexivity. Qed.

Lemma untouched_refl s : untouched s s.
Proof. unfold untouched. repeat split. Qed.

Lemma untouched_trans s1 s2 s3 : untouched s1 s2 -> untouched s2 s3 -> untouched s1 s3.
Proof.
  intros (A1 & A2 & A3 & A4) (B1 & B2 & B3 & B4). unfold untouched.
  split; [congruence|]. split; [congruence|]. split; [|congruence].
  intros f. rewrite B3. apply A3.
Qed.

Lemma untouched_attempt_ok E Hst k body s : untouched s (attempt_ok E Hst k body s).
Proof. unfold untouched. repeat split. Qed.

Lemma untouched_attempt_failed E Hst k s : untouched s (attempt_failed E Hst k s).
Proof. unfold untouched. repeat split. Qed.

Lemma untouched_attempt_stuck E Hst k p s : untouched s (attempt_stuck E Hst k p s).
Proof. unfold untouched. repeat split. Qed.

Lemma untouched_requested E Hst k s : untouched s (requested E Hst k s).
Proof. unfold untouched. repeat split. Qed.

Lemma untouched_set_console l s : untouched s (set_console l s).
Proof. unfold untouched. repeat split. Qed.

Lemma untouched_set_files l s : untouched s (set_files l s).
Proof. unfold untouched. repeat split. Qed.

Lemma untouched_land s : untouched s (land s).
Proof.
  unfold land. destruct (opening s); [|apply untouched_refl].
  unfold untouched. repeat split.
Qed.

Lemma land_same s :
  requests (land s) = requests s /\ console (land s) = console s /\
  csvFileName (land s) = csvFileName s /\ dirs (land s) = dirs s.
Proof. unfold land. destruct (opening s); repeat split. Qed.

(** ** What a run of the loop requests, and what it leaves alone *)

Section LoopFrame.

Context (E : Env) (Hst : Host).

Lemma loop_untouched n : forall i s,
  untouched s (final (downloadCsvFile_loop E Hst n i s)).
Proof.
  induction n as [|n IH]; intros i s; [apply untouched_refl|].
  destruct (remote E (urlOf E Hst i)) as [b|p| |p] eqn:Hi.
  - rewrite (attempt_fetched_run E Hst n i s b Hi). cbn [final].
    eapply untouched_trans; [apply untouched_land|apply untouched_attempt_ok].
  - rewrite (attempt_failed_run E Hst n i s p Hi).
    eapply untouched_trans; [|apply IH].
    eapply untouched_trans; [apply untouched_land|apply untouched_attempt_failed].
  - destruct (files (land s) !! pathOf E (fileNameOf E Hst i)) as [old|] eqn:Hf.
    + rewrite (attempt_refused_present E Hst n i s old Hi Hf).
      eapply untouched_trans; [|apply IH].
      eapply untouched_trans; [apply untouched_land|].
      eapply untouched_trans; [apply untouched_requested|apply untouched_set_files].
    + rewrite (attempt_refused_absent E Hst n i s Hi Hf). cbn [final].
      eapply untouched_trans; [apply untouched_land|apply untouched_requested].
  - rewrite (attempt_stuck_run E Hst n i s p Hi). cbn [final].
    eapply untouched_trans; [apply untouched_land|apply untouched_attempt_stuck].
Qed.

(** The requests of a run of the loop: those of its first iterations, in
    order. *)
Lemma loop_requests n : forall i s,
  exists m, (m <= n)%nat /\
    requests (final (downloadCsvFile_loop E Hst n i s)) =
    (requests s ++ map (urlOf E Hst) (candidates i m))%list.
Proof.
  induction n as [|n IH]; intros i s.
  - exists O. split; [lia|]. cbn. rewrite app_nil_r. reflexivity.
  - destruct (land_same s) as (Hreq & _).
    assert (forall s1, requests s1 = (requests s ++ [urlOf E Hst i])%list ->
      exists m, (m <= S n)%nat /\
        requests (final (downloadCsvFile_loop E Hst n (i + 1) s1)) =
        (requests s ++ map (urlOf E Hst) (candidates i m))%list) as Hnext.
    { intros s1 H1. destruct (IH (i + 1) s1) as (m & Hm & Hm').
      exists (S m). split; [lia|]. rewrite Hm', H1, <- app_assoc. reflexivity. }
    assert (forall s1, requests s1 = (requests s ++ [urlOf E Hst i])%list ->
      exists m, (m <= S n)%nat /\
        requests s1 =
        (requests s ++ map (urlOf E Hst) (candidates i m))%list) as Hstop.
    { intros s1 H1. exists 1%nat. split; [lia|]. exact H1. }
    destruct (remote E (urlOf E Hst i)) as [b|p| |p] eqn:Hi.
    + rewrite (attempt_fetched_run E Hst n i s b Hi). cbn [final].
      apply Hstop. cbn [requests attempt_ok]. rewrite Hreq. reflexivity.
    + rewrite (attempt_failed_run E Hst n i s p Hi).
      apply Hnext. cbn [requests attempt_failed]. rewrite Hreq. reflexivity.
    + destruct (files (land s) !! pathOf E (fileNameOf E Hst i)) as [old|] eqn:Hf.
      * rewrite (attempt_refused_present E Hst n i s old Hi Hf).
        apply Hnext. cbn [requests set_files requested]. rewrite Hreq.
        reflexivity.
      * rewrite (attempt_refused_absent E Hst n i s Hi Hf). cbn [final].
        apply Hstop. cbn [requests requested]. rewrite Hreq. reflexivity.
    + rewrite (attempt_stuck_run E Hst n i s p Hi). cbn [final].
      apply Hstop. cbn [requests attempt_stuck]. rewrite Hreq. reflexivity.
Qed.


Lemma downloadCsvFile_untouched s :
  untouched s (final (downloadCsvFile E Hst s)).
Proof.
  destruct (with_data_dir_same E s) as (_ & _ & _ & H0 & _).
  assert (dir_ready E Hst s \/
          ((pathDataDir E ∉ dirs s) /\ canMkdir Hst (pathDataDir E) = false))
    as [Hdir|[Hout Hmk]].
  { unfold dir_ready. destruct (decide (pathDataDir E ∈ dirs s));
      destruct (canMkdir Hst (pathDataDir E)); tauto. }
  - rewrite (downloadCsvFile_run E Hst s Hdir).
    pose proof (loop_untouched tries 0 (with_data_dir E s)) as Hl.
    destruct (downloadCsvFile_loop E Hst tries 0 _) as [[] s1|e s1|s1];
      cbn [final] in *; apply (untouched_trans _ _ _ H0 Hl).
  - rewrite (downloadCsvFile_no_dir E Hst s Hout Hmk). apply untouched_refl.
Qed.

Lemma downloadCsvFile_requests s :
  exists m, (m <= tries)%nat /\
    requests (final (downloadCsvFile E Hst s)) =
    (requests s ++ map (urlOf E Hst) (indices m))%list.
Proof.
  destruct (with_data_dir_same E s) as (_ & Hr & _).
  assert (dir_ready E Hst s \/
          ((pathDataDir E ∉ dirs s) /\ canMkdir Hst (pathDataDir E) = false))
    as [Hdir|[Hout Hmk]].
  { unfold dir_ready. destruct (decide (pathDataDir E ∈ dirs s));
      destruct (canMkdir Hst (pathDataDir E)); tauto. }
  - rewrite (downloadCsvFile_run E Hst s Hdir).
    destruct (loop_requests tries 0 (with_data_dir E s)) as (m & Hm & Hreq).
    exists m. split; [exact Hm|]. rewrite Hr in Hreq.
    destruct (downloadCsvFile_loop E Hst tries 0 _) as [[] s1|e s1|s1];
      cbn [final requests set_console] in *; exact Hreq.
  - rewrite (downloadCsvFile_no_dir E Hst s Hout Hmk). exists O.
    split; [lia|]. cbn. rewrite app_nil_r. reflexivity.
Qed.


End LoopFrame.

(** ** The stages of [init] *)

Lemma setRowsData_run E s :
  setRowsData E s =
  match files (land s) !! pathOf E (csvFileName s) with
  | Some rows => Ok tt (set_csvRows rows (land s))
  | None => Throw FileDoesNotExist (land s)
  end.
Proof.
  unfold setRowsData, mbind, M_bind, bind, get, modify, throw.
  destruct (files (land s) !! pathOf E (csvFileName s)); reflexivity.
Qed.

Lemma setRowsData_run_ok E s rows :
  opening s = None ->
  files s !! pathOf E (csvFileName s) = Some rows ->
  setRowsData E s = Ok tt (set_csvRows rows s).
Proof.
  intros Hop H. rewrite setRowsData_run, (land_None s Hop), H. reflexivity.
Qed.

Lemma init_run E Hst s :
  init E Hst s =
  match downloadCsvFile E Hst
          (set_console (console s ++ ["Downloading data..."]) s) with
  | Throw e s1 => Throw e s1
  | Hang s1 => Hang s1
  | Ok _ s1 =>
    match setRowsData E
            (set_console (console s1 ++ ["Saving data to database..."]) s1) with
    | Throw e s2 => Throw e s2
    | Hang s2 => Hang s2
    | Ok _ s2 =>
      match createCountryObjects E s2 with
      | Throw e s3 => Throw e s3
      | Hang s3 => Hang s3
      | Ok _ s3 =>
        match populateCountryObjects E s3 with
        | Throw e s4 => Throw e s4
        | Hang s4 => Hang s4
        | Ok _ s4 =>
          match saveDataToDb E s4 with
          | Throw e s5 => Throw e s5
          | Hang s5 => Hang s5
          | Ok _ s5 => Ok tt (set_console (console s5 ++ ["Finished"]) s5)
          end
        end
      end
    end
  end.
Proof.
  unfold init. rewrite bind_run. cbn [console_log modify].
  rewrite bind_run. destruct (downloadCsvFile E Hst _) as [[] s1|e s1|s1];
    [|reflexivity..].
  rewrite bind_run. cbn [console_log modify].
  rewrite bind_run. destruct (setRowsData E _) as [[] s2|e s2|s2];
    [|reflexivity..].
  rewrite bind_run. destruct (createCountryObjects E s2) as [[] s3|e s3|s3];
    [|reflexivity..].
  rewrite bind_run. destruct (populateCountryObjects E s3) as [[] s4|e s4|s4];
    [|reflexivity..].
  rewrite bind_run. destruct (saveDataToDb E s4) as [[] s5|e s5|s5]; reflexivity.
Qed.

(** ** The locator claims *)

Lemma candidates_length i m : length (candidates i m) = m.
Proof.
  revert i. induction m as [|m IH]; intros i; cbn; [reflexivity|].
  rewrite IH. reflexivity.
Qed.

Lemma candidates_snoc m : forall i,
  candidates i (S m) = (candidates i m ++ [i + Z.of_nat m])%list.
Proof.
  induction m as [|m IH]; intros i; [cbn; rewrite Z.add_0_r; reflexivity|].
  change (candidates i (S (S m))) with (i :: candidates (i + 1) (S m)).
  rewrite IH. cbn [candidates app]. do 3 f_equal. lia.
Qed.

Lemma candidates_range i m j : j ∈ candidates i m -> i <= j < i + Z.of_nat m.
Proof.
  revert i. induction m as [|m IH]; intros i Hj; cbn [candidates] in Hj.
  - apply elem_of_nil in Hj as [].
  - apply elem_of_cons in Hj as [->|Hj]; [lia|]. apply IH in Hj. lia.
Qed.

(** Everything known of the state after [n] failed attempts in a row. *)
Lemma fail_range_facts E Hst n i s :
  opening s = None ->
  exists s', s' = fail_range E Hst n i s /\
    opening s' = None /\
    requests s' = (requests s ++ map (urlOf E Hst) (candidates i n))%list /\
    ((0 < n)%nat -> csvFileName s' = fileNameOf E Hst (i + Z.of_nat n - 1)) /\
    console s' = console s /\
    dirs s' = dirs s /\
    untouched s s' /\
    (forall j, i <= j < i + Z.of_nat n ->
       files s' !! pathOf E (fileNameOf E Hst j) = None) /\
    (forall p, is_Some (files s' !! p) -> is_Some (files s !! p)).
Proof.
  intros Hop.
  exists (fail_range E Hst n i s). split; [reflexivity|].
  split; [apply fail_range_opening, Hop|].
  split; [apply fail_range_requests|]. split.
  - destruct n as [|m]; [lia|]. intros _.
    rewrite fail_range_csvFileName. f_equal. lia.
  - destruct (fail_range_untouched E Hst n i s) as (H1 & H2 & H3).
    split; [exact H3|]. split; [exact H2|]. split; [exact H1|].
    split; [apply fail_range_files_gone|].
    intros p. apply fail_range_files_sub, Hop.
Qed.

Section Locator.

Context (E : Env) (Hst : Host).

(** The loop after [k] attempts that failed with their file opened. *)
Lemma loop_after_failures k rest s :
  opening s = None ->
  all_fail_opened E Hst 0 k ->
  exists s', downloadCsvFile_loop E Hst (k + rest) 0 s =
             downloadCsvFile_loop E Hst rest (Z.of_nat k) s' /\
    opening s' = None /\
    requests s' = (requests s ++ map (urlOf E Hst) (indices k))%list /\
    ((0 < k)%nat -> csvFileName s' = fileNameOf E Hst (Z.of_nat k - 1)) /\
    console s' = console s /\
    dirs s' = dirs s /\
    untouched s s' /\
    (forall j, 0 <= j < Z.of_nat k ->
       files s' !! pathOf E (fileNameOf E Hst j) = None) /\
    (forall p, is_Some (files s' !! p) -> is_Some (files s !! p)).
Proof.
  intros Hop Hall.
  destruct (fail_range_facts E Hst k 0 s Hop)
    as (s' & Heq & H1 & H2 & H3 & H4 & H5 & H6 & H7 & H8).
  exists s'. rewrite Heq at 1.
  split; [rewrite (loop_fail_range E Hst k rest 0 s Hop Hall); reflexivity|].
  split; [exact H1|]. split; [exact H2|].
  split; [intros Hk; rewrite (H3 Hk); f_equal; lia|].
  split; [exact H4|]. split; [exact H5|]. split; [exact H6|].
  split; [intros j Hj; apply H7; lia|exact H8].
Qed.

Lemma tries_split k : (k < tries)%nat -> tries = (k + S (tries - S k))%nat.
Proof. intros Hk. lia. Qed.

(** With the staging directory there or made, [k] attempts that fail with
    their file opened, and then a request that is served. *)
Lemma download_first_success s k body :
  opening s = None ->
  dir_ready E Hst s ->
  0 <= k < 90 ->
  (forall j, 0 <= j < k ->
     exists partial, remote E (urlOf E Hst j) = Failed partial) ->
  remote E (urlOf E Hst k) = Fetched body ->
  exists s1, downloadCsvFile E Hst s = Ok tt s1 /\
    opening s1 = None /\
    requests s1 =
      (requests s ++ map (urlOf E Hst) (indices (S (Z.to_nat k))))%list /\
    csvFileName s1 = fileNameOf E Hst k /\
    files s1 !! pathOf E (csvFileName s1) = Some body /\
    (forall j, 0 <= j < k ->
       pathOf E (fileNameOf E Hst j) <> pathOf E (fileNameOf E Hst k) ->
       files s1 !! pathOf E (fileNameOf E Hst j) = None) /\
    console s1 =
      (console s ++ [("Download completed: " ++ fileNameOf E Hst k)%string])%list /\
    untouched s s1 /\
    (forall p, p <> pathOf E (fileNameOf E Hst k) ->
       is_Some (files s1 !! p) -> is_Some (files s !! p)).
Proof.
  intros Hop Hdir Hk Hbefore Hfetch.
  rewrite (downloadCsvFile_run E Hst s Hdir).
  destruct (with_data_dir_same E s) as (Hf & Hr & Hc & Hun0 & Hop0).
  assert (opening (with_data_dir E s) = None) as Hop' by congruence.
  assert (all_fail_opened E Hst 0 (Z.to_nat k)) as Hall.
  { intros j Hj. apply Hbefore. lia. }
  rewrite (tries_split (Z.to_nat k)) by (unfold tries; lia).
  destruct (loop_after_failures (Z.to_nat k) (S (tries - S (Z.to_nat k)))
              (with_data_dir E s) Hop' Hall)
    as (s' & -> & Hop1 & Hreq & _ & Hcon & _ & Hun & Hgone & Hsub).
  rewrite Z2Nat.id by lia.
  rewrite (loop_fetched E Hst _ k s' body Hop1 Hfetch).
  exists (attempt_ok E Hst k body s'). split; [reflexivity|].
  split; [reflexivity|].
  split; [|split; [reflexivity|split; [apply lookup_insert_eq|split; [|split; [|split]]]]].
  - cbn [requests attempt_ok]. rewrite Hreq, Hr. unfold indices.
    rewrite candidates_snoc, map_app, <- app_assoc. cbn [map].
    do 4 f_equal. lia.
  - intros j Hj Hne. cbn [files attempt_ok].
    rewrite lookup_insert_ne by congruence. apply Hgone. lia.
  - cbn [console attempt_ok]. rewrite Hcon, Hc. reflexivity.
  - apply (untouched_trans _ _ _ Hun0), (untouched_trans _ _ _ Hun).
    apply untouched_attempt_ok.
  - intros p Hne Hp. cbn [files attempt_ok] in Hp.
    rewrite lookup_insert_ne in Hp by congruence.
    apply Hsub in Hp. rewrite Hf in Hp. exact Hp.
Qed.

(** With the staging directory there or made, and all 90 attempts failing
    with their file opened. *)
Lemma download_all_failed s :
  opening s = None ->
  dir_ready E Hst s ->
  (forall j, 0 <= j < 90 ->
     exists partial, remote E (urlOf E Hst j) = Failed partial) ->
  exists s1, downloadCsvFile E Hst s = Ok tt s1 /\
    opening s1 = None /\
    requests s1 = (requests s ++ map (urlOf E Hst) (indices tries))%list /\
    csvFileName s1 = fileNameOf E Hst 89 /\
    console s1 = (console s ++ [failure_line])%list /\
    (forall j, 0 <= j < 90 -> files s1 !! pathOf E (fileNameOf E Hst j) = None) /\
    (forall p, is_Some (files s1 !! p) -> is_Some (files s !! p)) /\
    untouched s s1.
Proof.
  intros Hop Hdir Hall0.
  rewrite (downloadCsvFile_run E Hst s Hdir).
  destruct (with_data_dir_same E s) as (Hf & Hr & Hc & Hun0 & Hop0).
  assert (opening (with_data_dir E s) = None) as Hop' by congruence.
  assert (all_fail_opened E Hst 0 tries) as Hall.
  { intros j Hj. apply Hall0. unfold tries in Hj. lia. }
  destruct (loop_after_failures tries 0 (with_data_dir E s) Hop' Hall)
    as (s' & Hloop & Hop1 & Hreq & Hname & Hcon & _ & Hun & Hgone & Hsub).
  rewrite Nat.add_0_r in Hloop. rewrite Hloop.
  cbn [downloadCsvFile_loop mret M_ret ret].
  exists (set_console (console s' ++ [failure_line]) s').
  split; [reflexivity|]. split; [exact Hop1|].
  split; [|split; [|split; [|split; [|split]]]].
  - cbn [requests set_console]. rewrite Hreq, Hr. reflexivity.
  - cbn [csvFileName set_console]. rewrite Hname by (unfold tries; lia).
    reflexivity.
  - cbn [console set_console]. rewrite Hcon, Hc. reflexivity.
  - intros j Hj. cbn [files set_console]. apply Hgone. unfold tries. lia.
  - intros p Hp. cbn [files set_console] in Hp. apply Hsub in Hp.
    rewrite Hf in Hp. exact Hp.
  - apply (untouched_trans _ _ _ Hun0), (untouched_trans _ _ _ Hun).
    apply untouched_set_console.
Qed.

End Locator.

Lemma urlOf_day E Hst i :
  urlOf E Hst i = url_of_day E (now E + elapsed Hst i - i).
Proof. reflexivity. Qed.

Lemma fileNameOf_day E Hst i :
  fileNameOf E Hst i =
  Moment.format_MM_DD_YYYY (now E + elapsed Hst i - i) ++ ".csv".
Proof. reflexivity. Qed.

Lemma urlOf_same_day E Hst i :
  elapsed Hst i = 0 -> urlOf E Hst i = url_of_day E (now E - i).
Proof. intros H. rewrite urlOf_day, H, Z.add_0_r. reflexivity. Qed.

Lemma fileNameOf_same_day E Hst i :
  elapsed Hst i = 0 ->
  fileNameOf E Hst i = Moment.format_MM_DD_YYYY (now E - i) ++ ".csv".
Proof. intros H. rewrite fileNameOf_day, H, Z.add_0_r. reflexivity. Qed.

Lemma map_candidates_ext {A} (f g : Z -> A) i m :
  (forall j, i <= j < i + Z.of_nat m -> f j = g j) ->
  map f (candidates i m) = map g (candidates i m).
Proof.
  revert i. induction m as [|m IH]; intros i Hfg; cbn [candidates map];
    [reflexivity|].
  rewrite (Hfg i) by lia. f_equal. apply IH. intros j Hj. apply Hfg. lia.
Qed.

(** C4, as stated, fails: with every request failing, [downloadCsvFile]
    makes its 90 attempts and returns normally, and [init] goes on to the
    next stage. *)
Lemma C4_no_error_surfaced_counterexample :
  (exists s,
     downloadCsvFile (demo_env source_down) demo_host (new_App ∅ ∅) = Ok tt s /\
     length (requests s) = 90%nat) /\
  last (console (final (init (demo_env source_down) demo_host (new_App ∅ ∅)))) =
    Some "Saving data to database...".
Proof. split; [eexists; split|]; vm_compute; reflexivity. Qed.

(** C4, amended: when all 90 attempts fail, each with its staging file
    opened, and the staging directory is there or can be made,
    [downloadCsvFile] logs the failure and returns normally, surfacing no
    error; none of the 90 staging files is left and no other file appeared;
    [init] then fails in [setRowsData], which finds no file to read, and the
    database collaborator has received no call. *)
Theorem C4_exhausted_lookback (E : Env) (Hst : Host)
    (fs : gmap string FileContent) (ds : gset string) :
  pathDataDir E ∈ ds \/ canMkdir Hst (pathDataDir E) = true ->
  (forall j, 0 <= j < 90 ->
     exists partial, remote E (urlOf E Hst j) = Failed partial) ->
  (exists s, downloadCsvFile E Hst (new_App fs ds) = Ok tt s /\
     requests s = map (urlOf E Hst) (indices 90) /\
     console s = [failure_line] /\
     (forall j, 0 <= j < 90 ->
        files s !! pathOf E (fileNameOf E Hst j) = None) /\
     (forall p, is_Some (files s !! p) -> is_Some (fs !! p)) /\
     opening s = None) /\
  (exists s, init E Hst (new_App fs ds) = Throw FileDoesNotExist s /\
     db s = [] /\
     (forall j, 0 <= j < 90 ->
        files s !! pathOf E (fileNameOf E Hst j) = None) /\
     (forall p, is_Some (files s !! p) -> is_Some (fs !! p)) /\
     opening s = None).
Proof.
  intros Hdir Hall.
  split.
  - destruct (download_all_failed E Hst (new_App fs ds) eq_refl Hdir Hall)
      as (s & Hrun & Hop & Hreq & _ & Hcon & Hgone & Hsub & _).
    exists s. split; [exact Hrun|]. split; [exact Hreq|].
    split; [exact Hcon|]. split; [exact Hgone|]. split; [exact Hsub|exact Hop].
  - rewrite init_run.
    destruct (download_all_failed E Hst
      (set_console (console (new_App fs ds) ++ ["Downloading data..."])
         (new_App fs ds)) eq_refl Hdir Hall)
      as (s & Hrun & Hop & _ & Hname & _ & Hgone & Hsub & (_ & _ & _ & Hdb)).
    rewrite Hrun, setRowsData_run.
    rewrite land_None by exact Hop.
    cbn [files csvFileName set_console].
    rewrite Hname, (Hgone 89) by lia.
    eexists. split; [reflexivity|].
    cbn [db files opening set_console].
    split; [rewrite Hdb; reflexivity|]. split; [exact Hgone|].
    split; [exact Hsub|exact Hop].
Qed.

Lemma C4_exhausted_lookback_witness :
  (exists s,
     downloadCsvFile (demo_env source_down) demo_host (new_App ∅ ∅) = Ok tt s /\
     requests s = map (urlOf (demo_env source_down) demo_host) (indices 90) /\
     console s = [failure_line] /\
     (forall j, 0 <= j < 90 ->
        files s !! pathOf (demo_env source_down)
                     (fileNameOf (demo_env source_down) demo_host j) = None) /\
     (forall p, is_Some (files s !! p) ->
                is_Some ((∅ : gmap string FileContent) !! p)) /\
     opening s = None) /\
  (exists s,
     init (demo_env source_down) demo_host (new_App ∅ ∅) =
       Throw FileDoesNotExist s /\
     db s = [] /\
     (forall j, 0 <= j < 90 ->
        files s !! pathOf (demo_env source_down)
                     (fileNameOf (demo_env source_down) demo_host j) = None) /\
     (forall p, is_Some (files s !! p) ->
                is_Some ((∅ : gmap string FileContent) !! p)) /\
     opening s = None).
Proof.
  apply (C4_exhausted_lookback (demo_env source_down) demo_host ∅ ∅).
  - right. reflexivity.
  - intros j Hj. exists []. reflexivity.
Defined.

(** C5, as stated, fails in two ways.  A request refused before the write
    stream has opened its file makes [unlinkSync] throw out of the [catch]:
    on 2021-01-01, with the file of 2020-12-31 served and the request for
    the file of the day refused that way, the run ends after one request and
    the served candidate is never probed.  And the day is read anew in every
    iteration: when midnight passes during the first request, the second
    request is for the same date as the first. *)
Lemma C5_refused_request_counterexample :
  remote (demo_env source_fast_refusal)
    (urlOf (demo_env source_fast_refusal) demo_host 1) =
    Fetched [usa_row; italy_row] /\
  (exists s,
     downloadCsvFile (demo_env source_fast_refusal) demo_host (new_App ∅ ∅) =
       Throw ENOENT s /\
     requests s = ["https://example.org/reports/01-01-2021.csv"]) /\
  map (urlOf (demo_env source_down) host_past_midnight) (indices 3) =
    ["https://example.org/reports/01-01-2021.csv";
     "https://example.org/reports/01-01-2021.csv";
     "https://example.org/reports/12-31-2020.csv"].
Proof.
  split; [vm_compute; reflexivity|]. split; [|vm_compute; reflexivity].
  eexists. split; [vm_compute; reflexivity|reflexivity].
Qed.

(** C5, amended: the requests of a run are those of its first iterations, at
    most 90, in order, the iteration of index [i] asking for the template URL
    filled with the day [i] days before the day the clock shows then, in
    MM-DD-YYYY form followed by [.csv]; while the clock stays on one day
    these are the days [now], [now - 1], ...  When the staging directory is
    there or can be made, the attempts before index [k] fail with their
    staging file opened and the one of index [k] is served, the run stops
    there, after [k + 1] requests, with [csvFileName] naming that candidate
    and its body in the staging file. *)
Theorem C5_backward_probing_first_success (E : Env) (Hst : Host)
    (fs : gmap string FileContent) (ds : gset string) :
  (exists n, (n <= 90)%nat /\
     requests (final (downloadCsvFile E Hst (new_App fs ds))) =
       map (fun i => url_of_day E (now E + elapsed Hst i - i)) (indices n) /\
     (same_day Hst 90 ->
      requests (final (downloadCsvFile E Hst (new_App fs ds))) =
        map (fun i => url_of_day E (now E - i)) (indices n))) /\
  (forall k body, 0 <= k < 90 ->
     pathDataDir E ∈ ds \/ canMkdir Hst (pathDataDir E) = true ->
     (forall j, 0 <= j < k ->
        exists partial, remote E (urlOf E Hst j) = Failed partial) ->
     remote E (urlOf E Hst k) = Fetched body ->
     exists s, downloadCsvFile E Hst (new_App fs ds) = Ok tt s /\
       requests s = map (urlOf E Hst) (indices (S (Z.to_nat k))) /\
       csvFileName s =
         Moment.format_MM_DD_YYYY (now E + elapsed Hst k - k) ++ ".csv" /\
       files s !! pathOf E (csvFileName s) = Some body).
Proof.
  split.
  - destruct (downloadCsvFile_requests E Hst (new_App fs ds)) as (n & Hn & Hreq).
    exists n. split; [exact Hn|]. split; [exact Hreq|].
    intros Hday. rewrite Hreq. cbn [requests new_App app].
    apply map_candidates_ext. intros j Hj.
    apply urlOf_same_day, Hday. unfold tries in Hn. lia.
  - intros k body Hk Hdir Hbefore Hfetch.
    destruct (download_first_success E Hst (new_App fs ds) k body
                eq_refl Hdir Hk Hbefore Hfetch)
      as (s & Hrun & _ & Hreq & Hname & Hfile & _).
    exists s. split; [exact Hrun|]. split; [exact Hreq|].
    split; [exact Hname|exact Hfile].
Qed.

Lemma C5_backward_probing_witness :
  exists s,
    downloadCsvFile (demo_env source_3_days_back) demo_host (new_App ∅ ∅) =
      Ok tt s /\
    requests s =
      map (urlOf (demo_env source_3_days_back) demo_host) (indices 4) /\
    csvFileName s = Moment.format_MM_DD_YYYY (18628 + 0 - 3) ++ ".csv" /\
    files s !! pathOf (demo_env source_3_days_back) (csvFileName s) =
      Some [usa_row; italy_row].
Proof.
  apply (proj2 (C5_backward_probing_first_success
                  (demo_env source_3_days_back) demo_host ∅ ∅) 3).
  - lia.
  - right. reflexivity.
  - intros j Hj. exists [].
    assert (j = 0 \/ j = 1 \/ j = 2) as [->|[->| ->]] by lia; reflexivity.
  - reflexivity.
Defined.

Example requests_from_2021_01_01 :
  map (urlOf (demo_env source_down) demo_host) (indices 3) =
  ["https://example.org/reports/01-01-2021.csv";
   "https://example.org/reports/12-31-2020.csv";
   "https://example.org/reports/12-30-2020.csv"].
Proof. vm_compute. reflexivity. Qed.

(** C6, as stated, fails: the loop starts at the current day, so the file
    dated 3 days back is the 4th candidate.  On 2021-01-01, with only
    12-29-2020 served, the run makes 4 requests, not 3. *)
Lemma C6_three_days_back_counterexample :
  urlOf (demo_env source_3_days_back) demo_host 3 =
    "https://example.org/reports/12-29-2020.csv" /\
  exists s,
    downloadCsvFile (demo_env source_3_days_back) demo_host (new_App ∅ ∅) =
      Ok tt s /\
    csvFileName s = "12-29-2020.csv" /\
    requests s =
      ["https://example.org/reports/01-01-2021.csv";
       "https://example.org/reports/12-31-2020.csv";
       "https://example.org/reports/12-30-2020.csv";
       "https://example.org/reports/12-29-2020.csv"] /\
    length (requests s) <> 3%nat.
Proof.
  split; [vm_compute; reflexivity|].
  eexists. split; [vm_compute; reflexivity|].
  split; [reflexivity|]. split; [reflexivity|]. cbn. discriminate.
Qed.

(** C6, amended: when the run stays within one calendar day, the staging
    directory is there or can be made, the fetches for the day of the run and
    the two days before it fail with their staging file opened and the fetch
    for the day 3 days back succeeds, the run returns after exactly 4
    requests, [csvFileName] names the file of 3 days back, whose body is in
    the staging directory, and the files of the 3 failed attempts are not
    there. *)
Theorem C6_success_three_days_back (E : Env) (Hst : Host)
    (fs : gmap string FileContent) (ds : gset string) (body : FileContent) :
  pathDataDir E ∈ ds \/ canMkdir Hst (pathDataDir E) = true ->
  (forall i, 0 <= i <= 3 -> elapsed Hst i = 0) ->
  (forall j, 0 <= j < 3 ->
     exists partial, remote E (url_of_day E (now E - j)) = Failed partial) ->
  remote E (url_of_day E (now E - 3)) = Fetched body ->
  exists s, downloadCsvFile E Hst (new_App fs ds) = Ok tt s /\
    requests s =
      [url_of_day E (now E - 0); url_of_day E (now E - 1);
       url_of_day E (now E - 2); url_of_day E (now E - 3)] /\
    csvFileName s = Moment.format_MM_DD_YYYY (now E - 3) ++ ".csv" /\
    files s !! pathOf E (csvFileName s) = Some body /\
    forall j, 0 <= j < 3 ->
      files s !! pathOf E (Moment.format_MM_DD_YYYY (now E - j) ++ ".csv") = None.
Proof.
  intros Hdir Hday Hbefore Hfetch.
  assert (forall j, 0 <= j < 3 ->
    exists partial, remote E (urlOf E Hst j) = Failed partial) as Hbefore'.
  { intros j Hj. rewrite urlOf_same_day by (apply Hday; lia).
    apply Hbefore, Hj. }
  assert (remote E (urlOf E Hst 3) = Fetched body) as Hfetch'.
  { rewrite urlOf_same_day by (apply Hday; lia). exact Hfetch. }
  destruct (download_first_success E Hst (new_App fs ds) 3 body
              eq_refl Hdir ltac:(lia) Hbefore' Hfetch')
    as (s & Hrun & _ & Hreq & Hname & Hfile & Hgone & _).
  exists s. split; [exact Hrun|]. split.
  { rewrite Hreq.
    replace (indices (S (Z.to_nat 3))) with [0; 1; 2; 3] by reflexivity.
    cbn [requests new_App app map].
    rewrite !urlOf_same_day by (apply Hday; lia). reflexivity. }
  rewrite fileNameOf_same_day in Hname by (apply Hday; lia).
  split; [exact Hname|]. split; [exact Hfile|].
  intros j Hj. rewrite <- (fileNameOf_same_day E Hst j) by (apply Hday; lia).
  apply Hgone; [exact Hj|].
  intros Hp. apply pathOf_inj in Hp.
  destruct (Hbefore' j Hj) as [p Hfail].
  unfold urlOf in Hfail, Hfetch'. rewrite Hp, Hfetch' in Hfail. discriminate.
Qed.

Lemma C6_success_three_days_back_witness :
  exists s,
    downloadCsvFile (demo_env source_3_days_back) demo_host (new_App ∅ ∅) =
      Ok tt s /\
    requests s =
      [url_of_day (demo_env source_3_days_back) (18628 - 0);
       url_of_day (demo_env source_3_days_back) (18628 - 1);
       url_of_day (demo_env source_3_days_back) (18628 - 2);
       url_of_day (demo_env source_3_days_back) (18628 - 3)] /\
    csvFileName s = Moment.format_MM_DD_YYYY (18628 - 3) ++ ".csv" /\
    files s !! pathOf (demo_env source_3_days_back) (csvFileName s) =
      Some [usa_row; italy_row] /\
    forall j, 0 <= j < 3 ->
      files s !! pathOf (demo_env source_3_days_back)
                   (Moment.format_MM_DD_YYYY (18628 - j) ++ ".csv") = None.
Proof.
  apply (C6_success_three_days_back (demo_env source_3_days_back) demo_host ∅ ∅).
  - right. reflexivity.
  - intros i Hi. reflexivity.
  - intros j Hj. exists [].
    assert (j = 0 \/ j = 1 \/ j = 2) as [->|[->| ->]] by lia; reflexivity.
  - reflexivity.
Defined.




(** ** What the later stages leave alone *)

Section Stages.

Context (E : Env).

Local Abbreviation K := (constants E).

Lemma populate_row_frame row s :
  db (final (populate_row E row s)) = db s /\
  csvRows (final (populate_row E row s)) = csvRows s /\
  forall e s', populate_row E row s = Throw e s' -> e = TypeError.
Proof.
  destruct (obj_get (countryObjects s) (country_key K row)) as [c|] eqn:Hget.
  - rewrite (populate_row_run E row s c Hget).
    split; [reflexivity|]. split; [reflexivity|]. intros e s' H. discriminate.
  - rewrite (populate_row_throw E row s Hget).
    split; [reflexivity|]. split; [reflexivity|].
    intros e s' H. injection H as <- _. reflexivity.
Qed.

Lemma forEach_populate_frame rows : forall s,
  db (final (forEach (populate_row E) rows s)) = db s /\
  csvRows (final (forEach (populate_row E) rows s)) = csvRows s /\
  forall e s', forEach (populate_row E) rows s = Throw e s' -> e = TypeError.
Proof.
  induction rows as [|row rows IH]; intros s; cbn [forEach].
  - split; [reflexivity|]. split; [reflexivity|]. intros e s' H. discriminate.
  - rewrite bind_run. destruct (populate_row_frame row s) as (Hdb & Hcsv & Hexn).
    destruct (populate_row E row s) as [[] s1|e1 s1|s1] eqn:Hrow;
      cbn [final] in *.
    + destruct (IH s1) as (Hdb' & Hcsv' & Hexn').
      split; [congruence|]. split; [congruence|]. exact Hexn'.
    + split; [exact Hdb|]. split; [exact Hcsv|].
      intros e s' H. injection H as <- _. apply (Hexn e1 s1 eq_refl).
    + destruct (populate_row_settles E _ _ _ Hrow).
Qed.

Lemma populateCountryObjects_frame s :
  db (final (populateCountryObjects E s)) = db s /\
  csvRows (final (populateCountryObjects E s)) = csvRows s /\
  (forall e s', populateCountryObjects E s = Throw e s' -> e = TypeError) /\
  forall s', populateCountryObjects E s <> Hang s'.
Proof.
  destruct (forEach_populate_frame (csvRows s) s) as (Hdb & Hcsv & Hexn).
  destruct (forEach (populate_row E) (csvRows s) s) as [[] s2|e2 s2|s2] eqn:Hrun;
    cbn [final] in *.
  - destruct (obj_get (countryObjects s2) (WORLDWIDE K)) as [cw|] eqn:Hw.
    + rewrite (populateCountryObjects_run E s s2 cw Hrun Hw). cbn [final].
      split; [exact Hdb|]. split; [exact Hcsv|].
      split; [intros e s' H|intros s' H]; discriminate.
    + rewrite (populateCountryObjects_worldwide_throw E s s2 Hrun Hw).
      split; [exact Hdb|]. split; [exact Hcsv|]. split.
      * intros e s' H. injection H as <- _. reflexivity.
      * intros s' H. discriminate.
  - rewrite (populateCountryObjects_rows_throw E s e2 s2 Hrun).
    split; [exact Hdb|]. split; [exact Hcsv|]. split.
    + intros e s' H. injection H as <- _. apply (Hexn e2 s2 eq_refl).
    + intros s' H. discriminate.
  - destruct (forEach_populate_settles E _ _ _ Hrun).
Qed.

Lemma createCountryObjects_frame s :
  db (final (createCountryObjects E s)) = db s /\
  csvRows (final (createCountryObjects E s)) = csvRows s /\
  (forall e s', createCountryObjects E s = Throw e s' ->
     e = TypeError /\ s' = s /\ csvRows s = []) /\
  forall s', createCountryObjects E s <> Hang s'.
Proof.
  destruct (csvRows s) as [|row rest] eqn:Hrows.
  - rewrite (createCountryObjects_empty E s Hrows).
    split; [reflexivity|]. split; [exact Hrows|]. split.
    + intros e s' [= <- <-]. repeat split; reflexivity.
    + intros s' H. discriminate.
  - rewrite (createCountryObjects_run E s row rest Hrows).
    split; [reflexivity|]. split; [exact Hrows|].
    split; [intros e s' H|intros s' H]; discriminate.
Qed.

(** *** The calls of [saveDataToDb] *)

Lemma forEach_app {A} (f : A -> M unit) l1 l2 s :
  forEach f (l1 ++ l2) s = (forEach f l1;; forEach f l2) s.
Proof.
  revert s. induction l1 as [|x l1 IH]; intros s; cbn [forEach app].
  - reflexivity.
  - rewrite !bind_run. destruct (f x s) as [[] s1|e s1|s1]; [|reflexivity..].
    rewrite IH, bind_run. reflexivity.
Qed.

Lemma forEach_map {A B} (g : A -> B) (f : B -> M unit) l s :
  forEach f (map g l) s = forEach (fun x => f (g x)) l s.
Proof.
  revert s. induction l as [|x l IH]; intros s; cbn [forEach map].
  - reflexivity.
  - rewrite !bind_run. destruct (f (g x) s) as [[] s1|e s1|s1];
      [|reflexivity..].
    apply IH.
Qed.

Lemma dbCall_final c s :
  final (dbCall E c s) = set_db (db s ++ [c]) s.
Proof. unfold dbCall. destruct (dbRejects E (length (db s))); reflexivity. Qed.

Lemma dbCall_settles c s s' : dbCall E c s <> Hang s'.
Proof. unfold dbCall. destruct (dbRejects E (length (db s))); discriminate. Qed.

Lemma forEach_dbCall calls : forall s,
  (exists made,
     db (final (forEach (dbCall E) calls s)) = (db s ++ made)%list /\
     made `prefix_of` calls /\
     (forall s', forEach (dbCall E) calls s = Ok tt s' -> made = calls)) /\
  csvRows (final (forEach (dbCall E) calls s)) = csvRows s /\
  countryObjects (final (forEach (dbCall E) calls s)) = countryObjects s /\
  (forall e s', forEach (dbCall E) calls s = Throw e s' -> e = DbRejected) /\
  forall s', forEach (dbCall E) calls s <> Hang s'.
Proof.
  induction calls as [|c calls IH]; intros s; cbn [forEach].
  - split; [|split; [reflexivity|split; [reflexivity|split]]].
    + exists []. rewrite app_nil_r. split; [reflexivity|].
      split; [apply prefix_nil|]. intros s' _. reflexivity.
    + intros e s' H. discriminate.
    + intros s' H. discriminate.
  - rewrite bind_run. pose proof (dbCall_final c s) as Hfin.
    destruct (dbCall E c s) as [[] s1|e1 s1|s1] eqn:Hcall; cbn [final] in *.
    + destruct (IH s1) as ((made & Hdb & Hpre & Hall) & Hcsv & Hco & Hexn & Hset).
      subst s1.
      cbn [db csvRows countryObjects set_db] in Hdb, Hcsv, Hco.
      split; [|split; [exact Hcsv|split; [exact Hco|split; [exact Hexn|exact Hset]]]].
      exists (c :: made). split; [|split].
      * rewrite Hdb, <- app_assoc. reflexivity.
      * apply prefix_cons, Hpre.
      * intros s' H. rewrite (Hall s' H). reflexivity.
    + subst s1. cbn [db csvRows countryObjects set_db].
      split; [|split; [reflexivity|split; [reflexivity|split]]].
      * exists [c]. split; [reflexivity|]. split.
        -- exists calls. reflexivity.
        -- intros s' H. discriminate.
      * intros e s' H. injection H as <- _.
        unfold dbCall in Hcall.
        destruct (dbRejects E (length (db s))); [congruence|discriminate].
      * intros s' H. discriminate.
    + destruct (dbCall_settles _ _ _ Hcall).
Qed.

Lemma saveDataToDb_forEach s :
  saveDataToDb E s = forEach (dbCall E) (all_calls (countryObjects s)) s.
Proof.
  unfold saveDataToDb, all_calls. cbn [app forEach].
  rewrite !bind_run.
  pose proof (dbCall_final DbConnect s) as H1.
  destruct (dbCall E DbConnect s) as [[] s1|e s1|s1]; [|reflexivity..].
  cbn [final] in H1. rewrite !bind_run.
  pose proof (dbCall_final DbDropCollection s1) as H2.
  destruct (dbCall E DbDropCollection s1) as [[] s2|e s2|s2]; [|reflexivity..].
  cbn [final] in H2. rewrite bind_run. cbn [get].
  assert (countryObjects s2 = countryObjects s) as ->
    by (subst s2 s1; reflexivity).
  rewrite forEach_app, !bind_run, forEach_map.
  destruct (forEach _ (Object_values (countryObjects s)) s2) as [[] s3|e s3|s3];
    [|reflexivity..].
  cbn [forEach]. rewrite bind_run.
  destruct (dbCall E DbClose s3) as [[] s4|e s4|s4]; reflexivity.
Qed.

Lemma saveDataToDb_frame s :
  (exists made,
     db (final (saveDataToDb E s)) = (db s ++ made)%list /\
     made `prefix_of` all_calls (countryObjects s) /\
     (forall s', saveDataToDb E s = Ok tt s' ->
                 made = all_calls (countryObjects s))) /\
  csvRows (final (saveDataToDb E s)) = csvRows s /\
  countryObjects (final (saveDataToDb E s)) = countryObjects s /\
  (forall e s', saveDataToDb E s = Throw e s' -> e = DbRejected) /\
  forall s', saveDataToDb E s <> Hang s'.
Proof.
  rewrite saveDataToDb_forEach.
  apply (forEach_dbCall (all_calls (countryObjects s)) s).
Qed.

End Stages.

(** ** The pipeline claims *)

Lemma setRowsData_frame E s :
  db (final (setRowsData E s)) = db s /\
  countryObjects (final (setRowsData E s)) = countryObjects s /\
  (forall e s', setRowsData E s = Throw e s' -> e = FileDoesNotExist) /\
  forall s', setRowsData E s <> Hang s'.
Proof.
  rewrite setRowsData_run.
  destruct (untouched_land s) as (_ & Hco & _ & Hdb).
  destruct (files (land s) !! pathOf E (csvFileName s)); cbn [final];
    (split; [exact Hdb|]); (split; [exact Hco|]);
    (split; [intros e s' H|intros s' H]); try discriminate.
  injection H as <- _. reflexivity.
Qed.

(** What [init] has done when it goes no further: whenever it ends without
    the rejection of a database call, the database collaborator has received
    no call. *)
Lemma init_stops_before_save E Hst s0 :
  db s0 = [] ->
  (forall e s, init E Hst s0 = Throw e s -> e <> DbRejected -> db s = []) /\
  (forall s, init E Hst s0 = Hang s -> db s = []) /\
  (db (final (init E Hst s0)) <> [] ->
   exists s1 s2 s4,
     downloadCsvFile E Hst
       (set_console (console s0 ++ ["Downloading data..."]) s0) = Ok tt s1 /\
     setRowsData E
       (set_console (console s1 ++ ["Saving data to database..."]) s1) =
       Ok tt s2 /\
     (createCountryObjects E;; populateCountryObjects E) s2 = Ok tt s4 /\
     db (final (init E Hst s0)) `prefix_of` all_calls (countryObjects s4)).
Proof.
  intros Hdb0. rewrite init_run.
  destruct (downloadCsvFile_untouched E Hst
    (set_console (console s0 ++ ["Downloading data..."]) s0))
    as (_ & _ & _ & Hdb1).
  cbn [db set_console] in Hdb1. rewrite Hdb0 in Hdb1.
  destruct (downloadCsvFile E Hst _) as [[] s1|e1 s1|s1] eqn:Hrun1;
    cbn [final] in Hdb1.
  2:{ split; [|split].
      - intros e s [= <- <-] _. exact Hdb1.
      - intros s H. discriminate.
      - cbn [final]. intros H. congruence. }
  2:{ split; [|split].
      - intros e s H. discriminate.
      - intros s [= <-]. exact Hdb1.
      - cbn [final]. intros H. congruence. }
  destruct (setRowsData_frame E
    (set_console (console s1 ++ ["Saving data to database..."]) s1))
    as (Hdb2 & _ & _ & Hset2).
  cbn [db set_console] in Hdb2. rewrite Hdb1 in Hdb2.
  destruct (setRowsData E _) as [[] s2|e2 s2|s2] eqn:Hrun2; cbn [final] in Hdb2.
  2:{ split; [|split].
      - intros e s [= <- <-] _. exact Hdb2.
      - intros s H. discriminate.
      - cbn [final]. intros H. congruence. }
  2:{ destruct (Hset2 s2 eq_refl). }
  destruct (createCountryObjects_frame E s2) as (Hdb3 & _ & _ & Hset3).
  rewrite Hdb2 in Hdb3.
  assert ((createCountryObjects E;; populateCountryObjects E) s2 =
    match createCountryObjects E s2 with
    | Ok _ s3 => populateCountryObjects E s3
    | Throw e s3 => Throw e s3
    | Hang s3 => Hang s3
    end) as Hagg by apply bind_run.
  destruct (createCountryObjects E s2) as [[] s3|e3 s3|s3] eqn:Hrun3;
    cbn [final] in Hdb3.
  2:{ split; [|split].
      - intros e s [= <- <-] _. exact Hdb3.
      - intros s H. discriminate.
      - cbn [final]. intros H. congruence. }
  2:{ destruct (Hset3 s3 eq_refl). }
  destruct (populateCountryObjects_frame E s3) as (Hdb4 & _ & _ & Hset4).
  rewrite Hdb3 in Hdb4.
  destruct (populateCountryObjects E s3) as [[] s4|e4 s4|s4] eqn:Hrun4;
    cbn [final] in Hdb4.
  2:{ split; [|split].
      - intros e s [= <- <-] _. exact Hdb4.
      - intros s H. discriminate.
      - cbn [final]. intros H. congruence. }
  2:{ destruct (Hset4 s4 eq_refl). }
  destruct (saveDataToDb_frame E s4)
    as ((made & Hmade & Hpre & _) & _ & _ & Hexn & Hset5).
  rewrite Hdb4 in Hmade. cbn [app] in Hmade.
  split; [|split].
  - destruct (saveDataToDb E s4) as [[] s5|e5 s5|s5]; try discriminate.
    intros e s [= <- <-] Hne. exfalso. apply Hne, (Hexn e5 s5 eq_refl).
  - destruct (saveDataToDb E s4) as [[] s5|e5 s5|s5] eqn:Hrun5; try discriminate.
    destruct (Hset5 s5 eq_refl).
  - intros _. exists s1, s2, s4. split; [reflexivity|].
    split; [exact Hrun2|]. split; [exact Hagg|].
    destruct (saveDataToDb E s4) as [[] s5|e5 s5|s5]; cbn [final] in *;
      cbn [db set_console]; rewrite Hmade; exact Hpre.
Qed.

(** When the rows of the run end up empty, [init] has not reached the
    database, and no accumulator has been made. *)
Lemma init_on_no_rows E Hst fs ds :
  csvRows (final (init E Hst (new_App fs ds))) = [] ->
  (forall s, init E Hst (new_App fs ds) <> Ok tt s) /\
  db (final (init E Hst (new_App fs ds))) = [] /\
  accumulators (countryObjects (final (init E Hst (new_App fs ds)))) = [].
Proof.
  rewrite init_run.
  destruct (downloadCsvFile_untouched E Hst
    (set_console (console (new_App fs ds) ++ ["Downloading data..."])
       (new_App fs ds))) as (_ & Hco1 & _ & Hdb1).
  cbn [db countryObjects set_console new_App] in Hdb1, Hco1.
  destruct (downloadCsvFile E Hst _) as [[] s1|e1 s1|s1] eqn:Hrun1;
    cbn [final] in Hdb1, Hco1.
  2,3: (intros _; cbn [final]; rewrite Hco1;
        split; [intros s H; discriminate|split; [exact Hdb1|reflexivity]]).
  destruct (setRowsData_frame E
    (set_console (console s1 ++ ["Saving data to database..."]) s1))
    as (Hdb2 & Hco2 & _ & Hset2).
  cbn [db countryObjects set_console] in Hdb2, Hco2.
  rewrite Hdb1 in Hdb2. rewrite Hco1 in Hco2.
  destruct (setRowsData E _) as [[] s2|e2 s2|s2] eqn:Hrun2;
    cbn [final] in Hdb2, Hco2.
  2:{ intros _. cbn [final]. rewrite Hco2.
      split; [intros s H; discriminate|split; [exact Hdb2|reflexivity]]. }
  2:{ destruct (Hset2 s2 eq_refl). }
  destruct (createCountryObjects_frame E s2) as (Hdb3 & Hcsv3 & Hexn3 & Hset3).
  destruct (createCountryObjects E s2) as [[] s3|e3 s3|s3] eqn:Hrun3;
    cbn [final] in *.
  - intros Hempty. exfalso.
    assert (csvRows s2 <> []) as Hrows.
    { intros Hnil. rewrite (createCountryObjects_empty E s2 Hnil) in Hrun3.
      discriminate. }
    destruct (populateCountryObjects_frame E s3) as (_ & Hcsv4 & _).
    destruct (populateCountryObjects E s3) as [[] s4|e4 s4|s4];
      cbn [final] in *.
    + destruct (saveDataToDb_frame E s4) as (_ & Hcsv5 & _).
      destruct (saveDataToDb E s4) as [[] s5|e5 s5|s5]; cbn [final] in *;
        apply Hrows; cbn [csvRows set_console] in Hempty; congruence.
    + apply Hrows. congruence.
    + apply Hrows. congruence.
  - intros _. destruct (Hexn3 e3 s3 eq_refl) as (-> & -> & _).
    cbn [final]. rewrite Hco2.
    split; [intros s H; discriminate|split; [exact Hdb2|reflexivity]].
  - destruct (Hset3 s3 eq_refl).
Qed.

(** The only stage of [init] that can fail to settle is the download. *)
Lemma init_never_settles E Hst s0 s :
  init E Hst s0 = Hang s ->
  downloadCsvFile E Hst
    (set_console (console s0 ++ ["Downloading data..."]) s0) = Hang s.
Proof.
  rewrite init_run.
  destruct (downloadCsvFile E Hst _) as [[] s1|e1 s1|s1];
    [|discriminate|intros [= <-]; reflexivity].
  destruct (setRowsData_frame E
    (set_console (console s1 ++ ["Saving data to database..."]) s1))
    as (_ & _ & _ & Hset2).
  destruct (setRowsData E _) as [[] s2|e2 s2|s2];
    [|discriminate|destruct (Hset2 s2 eq_refl)].
  destruct (createCountryObjects_frame E s2) as (_ & _ & _ & Hset3).
  destruct (createCountryObjects E s2) as [[] s3|e3 s3|s3];
    [|discriminate|destruct (Hset3 s3 eq_refl)].
  destruct (populateCountryObjects_frame E s3) as (_ & _ & _ & Hset4).
  destruct (populateCountryObjects E s3) as [[] s4|e4 s4|s4];
    [|discriminate|destruct (Hset4 s4 eq_refl)].
  destruct (saveDataToDb_frame E s4) as (_ & _ & _ & _ & Hset5).
  destruct (saveDataToDb E s4) as [[] s5|e5 s5|s5];
    [discriminate|discriminate|destruct (Hset5 s5 eq_refl)].
Qed.

(** C8: the aggregation stage run on no rows fails with the TypeError of
    [getLastUpdatedBySourceTime], before any accumulator exists.  A run of
    [init] whose row sequence ends up empty has not returned, has made no
    accumulator and no call to the database collaborator: it has thrown,
    unless it is [downloadCsvFile] that never settled.  And when the staged
    file was read and had no row, [init] throws that TypeError, in the state
    [setRowsData] left. *)
Theorem C8_empty_snapshot_fails (E : Env) (Hst : Host)
    (fs : gmap string FileContent) (ds : gset string) :
  (exists s, aggregate E [] = Throw TypeError s /\
             accumulators (countryObjects s) = []) /\
  (csvRows (final (init E Hst (new_App fs ds))) = [] ->
   match init E Hst (new_App fs ds) with
   | Ok _ _ => False
   | Throw e s => db s = [] /\ accumulators (countryObjects s) = []
   | Hang s =>
       downloadCsvFile E Hst
         (set_console ["Downloading data..."] (new_App fs ds)) = Hang s /\
       db s = [] /\ accumulators (countryObjects s) = []
   end) /\
  (forall s1 s2,
     downloadCsvFile E Hst
       (set_console ["Downloading data..."] (new_App fs ds)) = Ok tt s1 ->
     setRowsData E
       (set_console (console s1 ++ ["Saving data to database..."]) s1) =
       Ok tt s2 ->
     csvRows s2 = [] ->
     init E Hst (new_App fs ds) = Throw TypeError s2 /\
     db s2 = [] /\ accumulators (countryObjects s2) = []).
Proof.
  split; [|split].
  - eexists. split; reflexivity.
  - intros Hempty.
    destruct (init_on_no_rows E Hst fs ds Hempty) as (Hnot & Hdb & Hacc).
    pose proof (init_never_settles E Hst (new_App fs ds)) as Hhang.
    destruct (init E Hst (new_App fs ds)) as [[] s|e s|s]; cbn [final] in *.
    + apply (Hnot s). reflexivity.
    + split; assumption.
    + split; [apply (Hhang s eq_refl)|]. split; assumption.
  - intros s1 s2 Hrun1 Hrun2 Hrows.
    assert (init E Hst (new_App fs ds) = Throw TypeError s2) as Hinit.
    { rewrite init_run. cbn [console new_App app]. rewrite Hrun1, Hrun2.
      rewrite (createCountryObjects_empty E s2 Hrows). reflexivity. }
    split; [exact Hinit|].
    assert (csvRows (final (init E Hst (new_App fs ds))) = []) as Hempty
      by (rewrite Hinit; exact Hrows).
    destruct (init_on_no_rows E Hst fs ds Hempty) as (_ & Hdb & Hacc).
    rewrite Hinit in Hdb, Hacc. split; [exact Hdb|exact Hacc].
Qed.

Lemma C8_empty_snapshot_fails_witness :
  match init (demo_env source_empty) demo_host (new_App ∅ ∅) with
  | Ok _ _ => False
  | Throw e s => db s = [] /\ accumulators (countryObjects s) = []
  | Hang s =>
      downloadCsvFile (demo_env source_empty) demo_host
        (set_console ["Downloading data..."] (new_App ∅ ∅)) = Hang s /\
      db s = [] /\ accumulators (countryObjects s) = []
  end.
Proof.
  apply (proj1 (proj2 (C8_empty_snapshot_fails
                         (demo_env source_empty) demo_host ∅ ∅))).
  vm_compute. reflexivity.
Defined.

Example init_on_empty_snapshot :
  exists s,
    init (demo_env source_empty) demo_host (new_App ∅ ∅) = Throw TypeError s /\
    csvFileName s = "01-01-2021.csv" /\
    files s !! "/app/src/data/01-01-2021.csv" = Some [] /\
    db s = [].
Proof.
  eexists. split; [vm_compute; reflexivity|].
  repeat split; vm_compute; reflexivity.
Qed.

(** C9, as stated, fails for the locate stage: when every attempt has failed,
    [downloadCsvFile] returns, and the parse stage is started all the same;
    the exception [init] ends with is the one [setRowsData] raises. *)
Lemma C9_locate_failure_counterexample :
  let E := demo_env source_down in
  exists s1,
    downloadCsvFile E demo_host
      (set_console ["Downloading data..."] (new_App ∅ ∅)) = Ok tt s1 /\
    last (console s1) = Some failure_line /\
    let s1' := set_console (console s1 ++ ["Saving data to database..."]) s1 in
    setRowsData E s1' = Throw FileDoesNotExist s1' /\
    init E demo_host (new_App ∅ ∅) = Throw FileDoesNotExist s1'.
Proof.
  intros E. eexists. split; [vm_compute; reflexivity|].
  split; [reflexivity|]. split; vm_compute; reflexivity.
Qed.

(** C9, amended: [init] runs [downloadCsvFile], [setRowsData],
    [createCountryObjects] with [populateCountryObjects], and [saveDataToDb]
    in that order, and an exception thrown by one of them, or a promise that
    never settles, ends the run there.  A locator that has exhausted its 90
    attempts (each failing with its staging file opened) throws nothing: it
    logs the failure and returns, the parse stage is started, and it is
    [setRowsData] that fails, on the missing file, with no call made to the
    database collaborator.  Whenever the run ends with an exception that is
    not a rejection by the database collaborator, or never ends, that
    collaborator has received no call; and the calls it does receive come
    after all earlier stages returned, and are an initial part of connect,
    drop, one insert per accumulator of the completed aggregation in the
    order of [Object.values], close. *)
Theorem C9_stages_in_order (E : Env) (Hst : Host)
    (fs : gmap string FileContent) (ds : gset string) :
  let s0 := new_App fs ds in
  let s0' := set_console (console s0 ++ ["Downloading data..."]) s0 in
  init E Hst s0 =
    match downloadCsvFile E Hst s0' with
    | Throw e s1 => Throw e s1
    | Hang s1 => Hang s1
    | Ok _ s1 =>
      match setRowsData E
              (set_console (console s1 ++ ["Saving data to database..."]) s1) with
      | Throw e s2 => Throw e s2
      | Hang s2 => Hang s2
      | Ok _ s2 =>
        match (createCountryObjects E;; populateCountryObjects E) s2 with
        | Throw e s4 => Throw e s4
        | Hang s4 => Hang s4
        | Ok _ s4 =>
          match saveDataToDb E s4 with
          | Throw e s5 => Throw e s5
          | Hang s5 => Hang s5
          | Ok _ s5 => Ok tt (set_console (console s5 ++ ["Finished"]) s5)
          end
        end
      end
    end /\
  (pathDataDir E ∈ ds \/ canMkdir Hst (pathDataDir E) = true ->
   (forall j, 0 <= j < 90 ->
      exists partial, remote E (urlOf E Hst j) = Failed partial) ->
   exists s1,
     downloadCsvFile E Hst s0' = Ok tt s1 /\
     last (console s1) = Some failure_line /\
     let s1' := set_console (console s1 ++ ["Saving data to database..."]) s1 in
     setRowsData E s1' = Throw FileDoesNotExist s1' /\
     init E Hst s0 = Throw FileDoesNotExist s1' /\
     db s1' = []) /\
  (forall e s, init E Hst s0 = Throw e s -> e <> DbRejected -> db s = []) /\
  (forall s, init E Hst s0 = Hang s -> db s = []) /\
  (db (final (init E Hst s0)) <> [] ->
   exists s1 s2 s4,
     downloadCsvFile E Hst s0' = Ok tt s1 /\
     setRowsData E
       (set_console (console s1 ++ ["Saving data to database..."]) s1) =
       Ok tt s2 /\
     (createCountryObjects E;; populateCountryObjects E) s2 = Ok tt s4 /\
     db (final (init E Hst s0)) `prefix_of` all_calls (countryObjects s4)).
Proof.
  intros s0 s0'.
  assert (forall s2,
    (createCountryObjects E;; populateCountryObjects E) s2 =
    match createCountryObjects E s2 with
    | Ok _ s3 => populateCountryObjects E s3
    | Throw e s3 => Throw e s3
    | Hang s3 => Hang s3
    end) as Hagg by (intros s2; apply bind_run).
  split; [|split].
  { rewrite init_run. fold s0'.
    destruct (downloadCsvFile E Hst s0') as [[] s1|e s1|s1]; [|reflexivity..].
    destruct (setRowsData E _) as [[] s2|e s2|s2]; [|reflexivity..].
    rewrite Hagg.
    destruct (createCountryObjects E s2) as [[] s3|e s3|s3]; [|reflexivity..].
    destruct (populateCountryObjects E s3) as [[] s4|e s4|s4]; reflexivity. }
  { intros Hdir Hall.
    destruct (download_all_failed E Hst s0' eq_refl Hdir Hall)
      as (s1 & Hrun & Hop & _ & Hname & Hcon & Hgone & _ & (_ & _ & _ & Hdb)).
    exists s1. split; [exact Hrun|].
    split; [rewrite Hcon; apply last_snoc|].
    cbv zeta.
    assert (setRowsData E
              (set_console (console s1 ++ ["Saving data to database..."]) s1) =
            Throw FileDoesNotExist
              (set_console (console s1 ++ ["Saving data to database..."]) s1))
      as Hset.
    { rewrite setRowsData_run, land_None by exact Hop.
      cbn [files csvFileName set_console].
      rewrite Hname, (Hgone 89) by lia. reflexivity. }
    split; [exact Hset|]. split.
    - rewrite init_run. fold s0'. rewrite Hrun, Hset. reflexivity.
    - cbn [db set_console]. rewrite Hdb. reflexivity. }
  apply (init_stops_before_save E Hst s0). reflexivity.
Qed.

Lemma C9_stages_in_order_witness :
  let E := demo_env source_down in
  let s0' := set_console ["Downloading data..."] (new_App ∅ ∅) in
  exists s1,
    downloadCsvFile E demo_host s0' = Ok tt s1 /\
    last (console s1) = Some failure_line /\
    let s1' := set_console (console s1 ++ ["Saving data to database..."]) s1 in
    setRowsData E s1' = Throw FileDoesNotExist s1' /\
    init E demo_host (new_App ∅ ∅) = Throw FileDoesNotExist s1' /\
    db s1' = [].
Proof.
  intros E s0'.
  apply (proj1 (proj2 (C9_stages_in_order E demo_host ∅ ∅))).
  - right. reflexivity.
  - intros j Hj. exists []. reflexivity.
Defined.


(** * Further properties *)

(** ** [getCountryNamesArray] *)

Lemma uniq_spec a : forall seen v,
  v ∈ uniq seen a <-> v ∈ a /\ v ∉ seen.
Proof.
  induction a as [|x a IH]; intros seen v; cbn [uniq].
  - split; [intros H; apply elem_of_nil in H as []|intros [H _]; apply elem_of_nil in H as []].
  - destruct (decide (x ∈ seen)) as [Hx|Hx].
    + rewrite IH. split.
      * intros [H1 H2]. split; [apply elem_of_cons; right; exact H1|exact H2].
      * intros [H1 H2]. split; [|exact H2].
        apply elem_of_cons in H1 as [->|H1]; [contradiction|exact H1].
    + rewrite elem_of_cons, IH. split.
      * intros [->|[H1 H2]].
        -- split; [apply elem_of_cons; left; reflexivity|exact Hx].
        -- split; [apply elem_of_cons; right; exact H1|].
           intros H. apply H2. apply elem_of_cons. right; exact H.
      * intros [H1 H2]. apply elem_of_cons in H1 as [->|H1]; [left; reflexivity|].
        destruct (decide (v = x)) as [->|Hne]; [left; reflexivity|].
        right. split; [exact H1|]. intros H.
        apply elem_of_cons in H as [H|H]; [contradiction|contradiction].
Qed.

Lemma uniq_NoDup a : forall seen, NoDup (uniq seen a).
Proof.
  induction a as [|x a IH]; intros seen; cbn [uniq]; [constructor|].
  destruct (decide (x ∈ seen)); [apply IH|].
  constructor; [|apply IH].
  rewrite uniq_spec. intros [_ H]. apply H. apply elem_of_cons. left; reflexivity.
Qed.

Lemma getCountryNamesArray_spec (E : Env) (s : State) (v : Js.Value) :
  NoDup (getCountryNamesArray E s) /\
  (v ∈ getCountryNamesArray E s <->
   v = Js.Str (WORLDWIDE (constants E)) \/
   exists row, row ∈ csvRows s /\ v = row_get row (COL_COUNTRY (constants E))).
Proof.
  unfold getCountryNamesArray. split; [apply uniq_NoDup|].
  rewrite uniq_spec, elem_of_app, list_elem_of_singleton. split.
  - intros [[H|H] _]; [right|left; exact H].
    apply list_elem_of_fmap in H as (row & -> & Hrow).
    exists row. split; [exact Hrow|reflexivity].
  - intros [->|(row & Hrow & ->)].
    + split; [right; reflexivity|apply not_elem_of_nil].
    + split; [|apply not_elem_of_nil]. left.
      apply (list_elem_of_fmap_2 (fun row => row_get row (COL_COUNTRY (constants E)))).
      exact Hrow.
Qed.

(** X1: the array of country names has no duplicate, and holds exactly the
    sentinel and the country value of every row. *)
Theorem X1_country_names_distinct_and_complete (E : Env) (s : State)
    (v : Js.Value) :
  NoDup (getCountryNamesArray E s) /\
  (v ∈ getCountryNamesArray E s <->
   v = Js.Str (WORLDWIDE (constants E)) \/
   exists row, row ∈ csvRows s /\ v = row_get row (COL_COUNTRY (constants E))).
Proof. apply getCountryNamesArray_spec. Qed.


(** ** What each accumulator holds after aggregation *)

Lemma rest_same_refl s : rest_same s s.
Proof. unfold rest_same. repeat split. Qed.

Lemma rest_same_trans s1 s2 s3 :
  rest_same s1 s2 -> rest_same s2 s3 -> rest_same s1 s3.
Proof.
  intros (A1 & A2 & A3 & A4 & A5 & A6 & A7 & A8)
         (B1 & B2 & B3 & B4 & B5 & B6 & B7 & B8).
  unfold rest_same.
  split; [congruence|]. split; [congruence|]. split; [congruence|].
  split; [congruence|]. split; [congruence|]. split; [congruence|].
  split; congruence.
Qed.

Lemma assoc_set_keys_present l k c c' :
  assoc_get l k = Some c -> (assoc_set l k c').*1 = l.*1.
Proof.
  induction l as [|[k1 c1] l IH]; cbn; [discriminate|].
  destruct (decide (k1 = k)) as [->|Hne]; cbn; [reflexivity|].
  intros H. rewrite (IH H). reflexivity.
Qed.

Lemma obj_set_keys_present o k c c' :
  obj_get o k = Some c -> (own (obj_set o k c')).*1 = (own o).*1.
Proof.
  unfold obj_get, obj_set. destruct (decide (k = "__proto__")); cbn [own].
  - reflexivity.
  - apply assoc_set_keys_present.
Qed.


Lemma key_sum_nonneg K f k rows : 0 <= key_sum K f k rows.
Proof.
  induction rows as [|row rows IH]; cbn [key_sum]; [lia|].
  pose proof (row_count_nonneg K f row).
  destruct (decide (country_key K row = k)); lia.
Qed.

Lemma key_sum_le_all_sum K f k rows : key_sum K f k rows <= all_sum K f rows.
Proof.
  induction rows as [|row rows IH]; cbn [key_sum all_sum]; [lia|].
  pose proof (row_count_nonneg K f row).
  destruct (decide (country_key K row = k)); lia.
Qed.

Section Sums.

Context (E : Env).

Local Abbreviation K := (constants E).

Lemma populate_row_step row s c :
  obj_get (countryObjects s) (country_key K row) = Some c ->
  exists s',
    populate_row E row s = Ok tt s' /\
    countryObjects s' =
      obj_set (countryObjects s) (country_key K row) (bump K row c) /\
    (forall f, total_of f s' = Js.add (total_of f s) (row_count K f row)) /\
    rest_same s s'.
Proof.
  intros Hget. eexists. split; [apply populate_row_run, Hget|].
  split; [reflexivity|]. split.
  - intros f. rewrite total_of_set_countryObjects. apply total_of_row.
  - unfold rest_same. repeat split.
Qed.

(** The row loop, from a state in which every row finds its accumulator.
    A sum that stays within [exact_bound] is held exactly. *)
Lemma populate_rows_spec rows : forall s,
  (forall row, row ∈ rows ->
     is_Some (obj_get (countryObjects s) (country_key K row))) ->
  exists s',
    forEach (populate_row E) rows s = Ok tt s' /\
    (forall f, 0 <= total_of f s ->
       total_of f s + all_sum K f rows <= exact_bound ->
       total_of f s' = total_of f s + all_sum K f rows) /\
    (forall k c, obj_get (countryObjects s) k = Some c ->
       exists c', obj_get (countryObjects s') k = Some c' /\
         (forall f, 0 <= counter_of f c ->
            counter_of f c + key_sum K f k rows <= exact_bound ->
            counter_of f c' = counter_of f c + key_sum K f k rows) /\
         name c' = name c /\
         lastUpdatedBySourceAt c' = lastUpdatedBySourceAt c) /\
    (forall k, obj_get (countryObjects s) k = None ->
               obj_get (countryObjects s') k = None) /\
    (own (countryObjects s')).*1 = (own (countryObjects s)).*1 /\
    rest_same s s'.
Proof.
  induction rows as [|row rows IH]; intros s Hrows; cbn [forEach].
  - exists s. split; [reflexivity|]. split; [intros f _ _; cbn; lia|].
    split; [|split; [auto|split; [reflexivity|apply rest_same_refl]]].
    intros k c Hk. exists c. split; [exact Hk|].
    split; [intros f _ _; cbn; lia|]. split; reflexivity.
  - destruct (Hrows row) as [c Hget]; [apply elem_of_cons; left; reflexivity|].
    destruct (populate_row_step row s c Hget) as (s1 & Hrun1 & Hco1 & Htot1 & Hrest1).
    destruct (IH s1) as (s' & Hrun & Htot & Hkeys & Hnone & Hown & Hrest).
    { intros r Hr. rewrite Hco1.
      destruct (decide (country_key K row = country_key K r)) as [<-|Hne].
      - rewrite obj_get_set_eq. eexists; reflexivity.
      - rewrite obj_get_set_ne by assumption.
        apply Hrows. apply elem_of_cons. right; exact Hr. }
    exists s'. split; [rewrite bind_run, Hrun1; exact Hrun|].
    split; [|split; [|split; [|split]]].
    + intros f H0 Hb. cbn [all_sum] in *.
      pose proof (row_count_nonneg K f row).
      pose proof (all_sum_nonneg K f rows).
      assert (total_of f s1 = total_of f s + row_count K f row) as Hs1
        by (rewrite Htot1; apply add_exact; lia).
      rewrite Htot by lia. lia.
    + intros k c0 Hk.
      destruct (decide (country_key K row = k)) as [Heq|Hne].
      * subst k. rewrite Hk in Hget. injection Hget as <-.
        destruct (Hkeys (country_key K row) (bump K row c0)) as (c' & Hc' & Hsum & Hn & Hl).
        { rewrite Hco1. apply obj_get_set_eq. }
        exists c'. split; [exact Hc'|]. split; [|split; [exact Hn|exact Hl]].
        intros f H0 Hb. cbn [key_sum] in *.
        rewrite decide_True in * by reflexivity.
        pose proof (row_count_nonneg K f row).
        pose proof (key_sum_nonneg K f (country_key K row) rows).
        assert (counter_of f (bump K row c0) = counter_of f c0 + row_count K f row)
          as Hs1 by (rewrite counter_of_bump; apply add_exact; unfold row_count in *; lia).
        rewrite Hsum by lia. lia.
      * destruct (Hkeys k c0) as (c' & Hc' & Hsum & Hn & Hl).
        { rewrite Hco1, obj_get_set_ne by assumption. exact Hk. }
        exists c'. split; [exact Hc'|]. split; [|split; [exact Hn|exact Hl]].
        intros f H0 Hb. cbn [key_sum] in *.
        rewrite decide_False in * by assumption.
        rewrite Hsum by lia. lia.
    + intros k Hk. apply Hnone. rewrite Hco1.
      destruct (decide (country_key K row = k)) as [Heq|Hne].
      * subst k. congruence.
      * rewrite obj_get_set_ne by assumption. exact Hk.
    + rewrite Hown, Hco1. apply (obj_set_keys_present _ _ c), Hget.
    + apply (rest_same_trans _ _ _ Hrest1 Hrest).
Qed.

End Sums.


(** *** The accumulators [createCountryObjects] files *)

Lemma file_blanks_keeps_blank d names k : forall o,
  (exists v, Js.ToString v = k /\ obj_get o k = Some (blank d v)) ->
  exists v, Js.ToString v = k /\
    obj_get (file_blanks d names o) k = Some (blank d v).
Proof.
  induction names as [|n names IH]; intros o Ho; cbn [file_blanks fold_left].
  - exact Ho.
  - apply IH. cbn [getName blank setLastUpdatedBySourceAt setName name].
    destruct (decide (Js.ToString n = k)) as [<-|Hne].
    + exists n. split; [reflexivity|apply obj_get_set_eq].
    + rewrite (obj_get_set_ne _ _ _ _ Hne). exact Ho.
Qed.

Lemma file_blanks_get_blank d names : forall o v,
  v ∈ names ->
  exists v', Js.ToString v' = Js.ToString v /\
    obj_get (file_blanks d names o) (Js.ToString v) = Some (blank d v').
Proof.
  induction names as [|n names IH]; intros o v Hin.
  - apply elem_of_nil in Hin as [].
  - cbn [file_blanks fold_left].
    apply elem_of_cons in Hin as [->|Hin]; [|apply (IH _ _ Hin)].
    apply file_blanks_keeps_blank. exists n.
    split; [reflexivity|apply obj_get_set_eq].
Qed.

Lemma file_blanks_cons d n names o :
  file_blanks d (n :: names) o =
  file_blanks d names (obj_set o (Js.ToString n) (blank d n)).
Proof. reflexivity. Qed.

Lemma file_blanks_other d names k : forall o,
  (forall v, v ∈ names -> Js.ToString v <> k) ->
  obj_get (file_blanks d names o) k = obj_get o k.
Proof.
  induction names as [|n names IH]; intros o Hk.
  - reflexivity.
  - rewrite file_blanks_cons, IH.
    + apply obj_get_set_ne.
      apply Hk. apply elem_of_cons. left; reflexivity.
    + intros v Hv. apply Hk. apply elem_of_cons. right; exact Hv.
Qed.

Lemma assoc_set_keys l k c k' :
  k' ∈ (assoc_set l k c).*1 <-> k' = k \/ k' ∈ l.*1.
Proof.
  induction l as [|[k1 c1] l IH]; cbn.
  - rewrite list_elem_of_singleton. split; [intros ->; left; reflexivity|].
    intros [->|H]; [reflexivity|apply elem_of_nil in H as []].
  - destruct (decide (k1 = k)) as [->|Hne]; cbn; rewrite !elem_of_cons.
    + tauto.
    + rewrite IH. tauto.
Qed.

Lemma assoc_set_NoDup l k c : NoDup l.*1 -> NoDup (assoc_set l k c).*1.
Proof.
  induction l as [|[k1 c1] l IH]; cbn; intros Hnd.
  - constructor; [apply not_elem_of_nil|constructor].
  - apply NoDup_cons in Hnd as [Hk1 Hnd].
    destruct (decide (k1 = k)) as [->|Hne]; cbn.
    + constructor; assumption.
    + constructor; [|apply IH, Hnd].
      rewrite assoc_set_keys. intros [->|H]; [congruence|contradiction].
Qed.

Lemma file_blanks_keys d names k : forall o,
  k ∈ (own (file_blanks d names o)).*1 <->
  k ∈ (own o).*1 \/
  (k <> "__proto__" /\ exists v, v ∈ names /\ Js.ToString v = k).
Proof.
  induction names as [|n names IH]; intros o.
  - split; [intros H; left; exact H|].
    intros [H|(_ & v & Hv & _)]; [exact H|apply elem_of_nil in Hv as []].
  - rewrite file_blanks_cons, IH.
    unfold obj_set at 1.
    destruct (decide (Js.ToString n = "__proto__")) as [Hp|Hp]; cbn [own].
    + split.
      * intros [H|(Hk & v & Hv & Hkv)]; [left; exact H|].
        right. split; [exact Hk|]. exists v.
        split; [apply elem_of_cons; right; exact Hv|exact Hkv].
      * intros [H|(Hk & v & Hv & Hkv)]; [left; exact H|].
        apply elem_of_cons in Hv as [->|Hv]; [congruence|].
        right. split; [exact Hk|]. exists v. split; assumption.
    + rewrite assoc_set_keys. split.
      * intros [[->|H]|(Hk & v & Hv & Hkv)].
        -- right. split; [exact Hp|]. exists n.
           split; [apply elem_of_cons; left; reflexivity|reflexivity].
        -- left; exact H.
        -- right. split; [exact Hk|]. exists v.
           split; [apply elem_of_cons; right; exact Hv|exact Hkv].
      * intros [H|(Hk & v & Hv & Hkv)]; [left; right; exact H|].
        apply elem_of_cons in Hv as [->|Hv].
        -- left. left. symmetry. exact Hkv.
        -- right. split; [exact Hk|]. exists v. split; assumption.
Qed.

Lemma file_blanks_NoDup d names : forall o,
  NoDup (own o).*1 -> NoDup (own (file_blanks d names o)).*1.
Proof.
  induction names as [|n names IH]; intros o Ho; cbn [file_blanks fold_left].
  - exact Ho.
  - apply IH. unfold obj_set.
    destruct (decide (_ = "__proto__")); cbn [own]; [exact Ho|].
    apply assoc_set_NoDup, Ho.
Qed.

Lemma file_blanks_no_proto_key d names : forall o,
  "__proto__" ∉ (own o).*1 -> "__proto__" ∉ (own (file_blanks d names o)).*1.
Proof.
  intros o Ho. rewrite file_blanks_keys. intros [H|(H & _)]; [contradiction|].
  apply H. reflexivity.
Qed.

Lemma assoc_get_NoDup l k c :
  NoDup l.*1 -> (k, c) ∈ l -> assoc_get l k = Some c.
Proof.
  induction l as [|[k1 c1] l IH]; cbn; intros Hnd Hin.
  - apply elem_of_nil in Hin as [].
  - apply NoDup_cons in Hnd as [Hk1 Hnd].
    apply elem_of_cons in Hin as [Heq|Hin].
    + injection Heq as <- <-. rewrite decide_True by reflexivity. reflexivity.
    + destruct (decide (k1 = k)) as [->|Hne]; [|apply IH; assumption].
      exfalso. apply Hk1.
      apply (list_elem_of_fmap_2 fst) in Hin. exact Hin.
Qed.

Lemma key_sum_unlisted K f k rows :
  (forall row, row ∈ rows -> country_key K row <> k) -> key_sum K f k rows = 0.
Proof.
  induction rows as [|row rows IH]; intros H; cbn [key_sum]; [reflexivity|].
  rewrite decide_False by (apply H; apply elem_of_cons; left; reflexivity).
  rewrite IH; [reflexivity|].
  intros r Hr. apply H. apply elem_of_cons. right; exact Hr.
Qed.


Section Stage.

Context (E : Env).

Local Abbreviation K := (constants E).


Lemma createCountryObjects_spec s row rest :
  csvRows s = row :: rest ->
  exists s1,
    createCountryObjects E s = Ok tt s1 /\
    countryObjects s1 =
      file_blanks (DateUTC (row_get row (COL_LAST_UPDATE K)))
        (getCountryNamesArray E s) (countryObjects s) /\
    (forall f, total_of f s1 = total_of f s) /\
    rest_same s s1.
Proof.
  intros Hrows. eexists.
  split; [apply (createCountryObjects_run E s row rest Hrows)|].
  split; [reflexivity|]. split.
  - intros f. apply total_of_set_countryObjects.
  - unfold rest_same. repeat split.
Qed.

Lemma names_listed s k :
  (exists v, v ∈ getCountryNamesArray E s /\ Js.ToString v = k) <->
  listed K (csvRows s) k.
Proof.
  unfold listed. split.
  - intros (v & Hv & <-).
    apply (getCountryNamesArray_spec E s v) in Hv
      as [->|(row & Hrow & ->)].
    + left; reflexivity.
    + right. exists row. split; [exact Hrow|reflexivity].
  - intros [->|(row & Hrow & <-)].
    + exists (Js.Str (WORLDWIDE K)). split; [|reflexivity].
      apply (getCountryNamesArray_spec E s). left; reflexivity.
    + exists (row_get row (COL_COUNTRY K)). split; [|reflexivity].
      apply (getCountryNamesArray_spec E s). right.
      exists row. split; [exact Hrow|reflexivity].
Qed.


(** [createCountryObjects] then [populateCountryObjects], from any state
    whose rows are not empty. *)
Lemma stage_spec s row0 rest :
  csvRows s = row0 :: rest ->
  exists s',
    (createCountryObjects E;; populateCountryObjects E) s = Ok tt s' /\
    (forall f, 0 <= total_of f s ->
       total_of f s + all_sum K f (row0 :: rest) <= exact_bound ->
       total_of f s' = total_of f s + all_sum K f (row0 :: rest)) /\
    (forall k, listed K (row0 :: rest) k ->
       exists c, obj_get (countryObjects s') k = Some c /\
         Js.ToString (name c) = k /\
         lastUpdatedBySourceAt c =
           Some (DateUTC (row_get row0 (COL_LAST_UPDATE K))) /\
         forall f, (k = WORLDWIDE K -> 0 <= total_of f s) ->
           key_sum K f k (row0 :: rest) +
           (if decide (k = WORLDWIDE K)
            then total_of f s + all_sum K f (row0 :: rest) else 0)
           <= exact_bound ->
           counter_of f c =
             key_sum K f k (row0 :: rest) +
             (if decide (k = WORLDWIDE K)
              then total_of f s + all_sum K f (row0 :: rest) else 0)) /\
    (forall k, ~ listed K (row0 :: rest) k ->
       obj_get (countryObjects s) k = None ->
       obj_get (countryObjects s') k = None) /\
    (forall k, k ∈ (own (countryObjects s')).*1 <->
       k ∈ (own (countryObjects s)).*1 \/
       (k <> "__proto__" /\ listed K (row0 :: rest) k)) /\
    (NoDup (own (countryObjects s)).*1 -> NoDup (own (countryObjects s')).*1) /\
    rest_same s s'.
Proof.
  intros Hrows.
  set (d := DateUTC (row_get row0 (COL_LAST_UPDATE K))).
  destruct (createCountryObjects_spec s row0 rest Hrows)
    as (s1 & Hrun1 & Hco1 & Htot1 & Hrest1).
  fold d in Hco1.
  assert (csvRows s1 = row0 :: rest) as Hrows1
    by (destruct Hrest1 as (_ & -> & _); exact Hrows).
  assert (forall k, listed K (row0 :: rest) k ->
            exists v, Js.ToString v = k /\
              obj_get (countryObjects s1) k = Some (blank d v)) as Hblank.
  { intros k Hk. rewrite <- Hrows in Hk. apply names_listed in Hk as (v & Hv & <-).
    rewrite Hco1. apply file_blanks_get_blank, Hv. }
  destruct (populate_rows_spec E (row0 :: rest) s1)
    as (s2 & Hrun2 & Htot2 & Hkeys2 & Hnone2 & Hown2 & Hrest2).
  { intros r Hr. destruct (Hblank (country_key K r)) as (v & _ & Hv).
    - right. exists r. split; [exact Hr|reflexivity].
    - rewrite Hv. eexists; reflexivity. }
  destruct (Hblank (WORLDWIDE K)) as (vw & Hvw & Hgetw); [left; reflexivity|].
  destruct (Hkeys2 _ _ Hgetw) as (cw & Hcw & Hcw_sum & Hcw_name & Hcw_stamp).
  rewrite <- Hrows1 in Hrun2.
  pose proof (populateCountryObjects_run E s1 s2 cw Hrun2 Hcw) as Hrun3.
  eexists. split; [rewrite bind_run, Hrun1; exact Hrun3|].
  cbn [countryObjects set_countryObjects].
  split; [|split; [|split; [|split; [|split]]]].
  - intros f H0 Hb. rewrite total_of_set_countryObjects.
    rewrite Htot2; rewrite Htot1; [reflexivity|exact H0|exact Hb].
  - intros k Hk. destruct (decide (k = WORLDWIDE K)) as [->|Hne].
    + exists (bump_totals s2 cw). split; [apply obj_get_set_eq|].
      split; [cbn [name bump_totals incrementRecovered incrementActive
                   incrementConfirmed incrementDeaths];
              rewrite Hcw_name; exact Hvw|].
      split; [cbn [lastUpdatedBySourceAt bump_totals incrementRecovered
                   incrementActive incrementConfirmed incrementDeaths];
              rewrite Hcw_stamp; reflexivity|].
      intros f H0 Hb. specialize (H0 eq_refl).
      pose proof (key_sum_nonneg K f (WORLDWIDE K) (row0 :: rest)) as Hk0.
      pose proof (all_sum_nonneg K f (row0 :: rest)) as Ha0.
      pose proof (blank_at_zero d vw f) as Hz.
      assert (total_of f s2 = total_of f s + all_sum K f (row0 :: rest)) as Ht2
        by (rewrite Htot2; rewrite Htot1; [reflexivity|exact H0|lia]).
      assert (counter_of f cw = key_sum K f (WORLDWIDE K) (row0 :: rest)) as Hc2
        by (rewrite Hcw_sum; rewrite Hz; lia).
      rewrite counter_of_bump_totals, Hc2, Ht2. apply add_exact; lia.
    + destruct (Hblank k Hk) as (v & Hv & Hget).
      destruct (Hkeys2 _ _ Hget) as (c & Hc & Hc_sum & Hc_name & Hc_stamp).
      exists c. split; [rewrite obj_get_set_ne by congruence; exact Hc|].
      split; [rewrite Hc_name; exact Hv|]. split; [rewrite Hc_stamp; reflexivity|].
      intros f _ Hb. pose proof (blank_at_zero d v f) as Hz.
      rewrite Hc_sum; rewrite Hz; lia.
  - intros k Hk Hnone.
    assert (k <> WORLDWIDE K) as Hne by (intros ->; apply Hk; left; reflexivity).
    rewrite obj_get_set_ne by congruence. apply Hnone2.
    rewrite Hco1, file_blanks_other; [exact Hnone|].
    intros v Hv Heq. apply Hk. rewrite <- Hrows. apply names_listed.
    exists v. split; assumption.
  - intros k. rewrite (obj_set_keys_present _ _ cw) by exact Hcw.
    rewrite Hown2, Hco1, file_blanks_keys, names_listed, Hrows. reflexivity.
  - intros Hnd. rewrite (obj_set_keys_present _ _ cw) by exact Hcw.
    rewrite Hown2, Hco1. apply file_blanks_NoDup, Hnd.
  - apply (rest_same_trans _ _ _ Hrest1).
    apply (rest_same_trans _ _ _ Hrest2).
    unfold rest_same. repeat split.
Qed.

End Stage.

Lemma listed_dec K rows k : listed K rows k \/ ~ listed K rows k.
Proof.
  unfold listed. destruct (decide (k = WORLDWIDE K)) as [->|Hne];
    [left; left; reflexivity|].
  induction rows as [|row rows IH].
  - right. intros [H|(row & Hrow & _)]; [contradiction|].
    apply elem_of_nil in Hrow as [].
  - destruct (decide (country_key K row = k)) as [Heq|Hk].
    + left. right. exists row. split; [apply elem_of_cons; left; reflexivity|exact Heq].
    + destruct IH as [[H|(r & Hr & Hrk)]|IH].
      * contradiction.
      * left. right. exists r. split; [apply elem_of_cons; right; exact Hr|exact Hrk].
      * right. intros [H|(r & Hr & Hrk)]; [contradiction|].
        apply elem_of_cons in Hr as [->|Hr]; [contradiction|].
        apply IH. right. exists r. split; assumption.
Qed.

(** The aggregation stage on rows alone, spelt out. *)
Lemma aggregate_spec E row0 rest :
  exists s,
    aggregate E (row0 :: rest) = Ok tt s /\
    (forall f, all_sum (constants E) f (row0 :: rest) <= exact_bound ->
       total_of f s = all_sum (constants E) f (row0 :: rest)) /\
    (forall k, listed (constants E) (row0 :: rest) k ->
       exists c, obj_get (countryObjects s) k = Some c /\
         Js.ToString (name c) = k /\
         lastUpdatedBySourceAt c =
           Some (DateUTC (row_get row0 (COL_LAST_UPDATE (constants E)))) /\
         forall f,
           key_sum (constants E) f k (row0 :: rest) +
           (if decide (k = WORLDWIDE (constants E))
            then all_sum (constants E) f (row0 :: rest) else 0) <= exact_bound ->
           counter_of f c =
             key_sum (constants E) f k (row0 :: rest) +
             (if decide (k = WORLDWIDE (constants E))
              then all_sum (constants E) f (row0 :: rest) else 0)) /\
    (forall k, ~ listed (constants E) (row0 :: rest) k ->
       obj_get (countryObjects s) k = None) /\
    (forall k, k ∈ (own (countryObjects s)).*1 <->
       k <> "__proto__" /\ listed (constants E) (row0 :: rest) k) /\
    NoDup (own (countryObjects s)).*1.
Proof.
  unfold aggregate.
  destruct (stage_spec E (set_csvRows (row0 :: rest) (new_App ∅ ∅)) row0 rest eq_refl)
    as (s & Hrun & Htot & Hlisted & Hnone & Hkeys & Hnd & _).
  assert (forall f, total_of f (set_csvRows (row0 :: rest) (new_App ∅ ∅)) = 0)
    as Hzero by (intros []; reflexivity).
  exists s. split; [exact Hrun|]. split; [|split; [|split; [|split]]].
  - intros f Hb. rewrite Htot; rewrite Hzero; lia.
  - intros k Hk. destruct (Hlisted k Hk) as (c & Hc & Hname & Hstamp & Hsum).
    exists c. split; [exact Hc|]. split; [exact Hname|]. split; [exact Hstamp|].
    intros f Hb. rewrite Hsum; rewrite Hzero; [reflexivity|lia|exact Hb].
  - intros k Hk. apply Hnone; [exact Hk|]. unfold obj_get. cbn.
    destruct (decide (k = "__proto__")); reflexivity.
  - intros k. rewrite Hkeys. cbn [countryObjects set_csvRows new_App own empty_object fmap list_fmap].
    split; [intros [H|H]; [apply elem_of_nil in H as []|exact H]|intros H; right; exact H].
  - apply Hnd. constructor.
Qed.


(** X2: on rows that are not empty the aggregation stage never throws,
    whatever state it starts from: every row finds the accumulator of its
    country, and the worldwide one is there; nothing but the accumulators and
    the running totals changes. *)
Theorem X2_aggregation_completes (E : Env) (s : State) :
  csvRows s <> [] ->
  exists s', (createCountryObjects E;; populateCountryObjects E) s = Ok tt s' /\
    rest_same s s'.
Proof.
  intros Hne. destruct (csvRows s) as [|row0 rest] eqn:Hrows; [congruence|].
  destruct (stage_spec E s row0 rest Hrows) as (s' & Hrun & _ & _ & _ & _ & _ & Hrest).
  exists s'. split; [exact Hrun|exact Hrest].
Qed.

Lemma X2_aggregation_completes_witness :
  exists s',
    (createCountryObjects (demo_env source_down);;
     populateCountryObjects (demo_env source_down))
      (set_csvRows [usa_row; worldwide_row] (new_App ∅ ∅)) = Ok tt s' /\
    rest_same (set_csvRows [usa_row; worldwide_row] (new_App ∅ ∅)) s'.
Proof.
  apply (X2_aggregation_completes (demo_env source_down)
           (set_csvRows [usa_row; worldwide_row] (new_App ∅ ∅))).
  discriminate.
Defined.


(** X3: after aggregation each running total is the sum of the cleaned
    counts of all rows, and the accumulator filed under a key holds, counter
    by counter, the sum of the cleaned counts of the rows of that key, the
    worldwide accumulator in addition the sum over all rows; each of them as
    long as the sum is at most 2^53, up to which the additions of the code,
    on doubles, are exact. *)
Theorem X3_accumulators_hold_row_sums (E : Env) (rows : list RawRow) :
  rows <> [] ->
  exists s, aggregate E rows = Ok tt s /\
    (forall f, all_sum (constants E) f rows <= 2 ^ 53 ->
       total_of f s = all_sum (constants E) f rows) /\
    forall k, listed (constants E) rows k ->
      exists c, obj_get (countryObjects s) k = Some c /\
        forall f,
          key_sum (constants E) f k rows +
          (if decide (k = WORLDWIDE (constants E))
           then all_sum (constants E) f rows else 0) <= 2 ^ 53 ->
          counter_of f c =
            key_sum (constants E) f k rows +
            (if decide (k = WORLDWIDE (constants E))
             then all_sum (constants E) f rows else 0).
Proof.
  intros Hne. destruct rows as [|row0 rest]; [congruence|].
  destruct (aggregate_spec E row0 rest) as (s & Hrun & Htot & Hlisted & _).
  exists s. split; [exact Hrun|]. split; [exact Htot|].
  intros k Hk. destruct (Hlisted k Hk) as (c & Hc & _ & _ & Hsum).
  exists c. split; [exact Hc|exact Hsum].
Qed.

Lemma X3_accumulators_hold_row_sums_witness :
  exists s, aggregate (demo_env source_down) [usa_row; worldwide_row] = Ok tt s /\
    (forall f,
       all_sum (constants (demo_env source_down)) f [usa_row; worldwide_row]
         <= 2 ^ 53 ->
       total_of f s =
       all_sum (constants (demo_env source_down)) f [usa_row; worldwide_row]) /\
    forall k, listed (constants (demo_env source_down)) [usa_row; worldwide_row] k ->
      exists c, obj_get (countryObjects s) k = Some c /\
        forall f,
          key_sum (constants (demo_env source_down)) f k [usa_row; worldwide_row] +
          (if decide (k = WORLDWIDE (constants (demo_env source_down)))
           then all_sum (constants (demo_env source_down)) f
                  [usa_row; worldwide_row] else 0) <= 2 ^ 53 ->
          counter_of f c =
            key_sum (constants (demo_env source_down)) f k [usa_row; worldwide_row] +
            (if decide (k = WORLDWIDE (constants (demo_env source_down)))
             then all_sum (constants (demo_env source_down)) f
                    [usa_row; worldwide_row] else 0).
Proof.
  apply (X3_accumulators_hold_row_sums (demo_env source_down)
           [usa_row; worldwide_row]).
  discriminate.
Defined.

(** Past 2^53 a sum is no longer held: two rows with 2^53 and 1 confirmed
    leave the running total at 2^53. *)
Example sum_rounds_past_2p53 :
  let E := demo_env source_down in
  all_sum (constants E) Confirmed [row_2p53; row_one] = 2 ^ 53 + 1 /\
  total_of Confirmed (final (aggregate E [row_2p53; row_one])) = 2 ^ 53.
Proof. vm_compute. split; reflexivity. Qed.


(** X4: every accumulator of [countryObjects] carries the one timestamp
    taken from the update time of the first row, whatever the later rows
    say, and is filed under the text of its own name. *)
Theorem X4_one_timestamp_from_first_row (E : Env) (row0 : RawRow)
    (rest : list RawRow) :
  exists s, aggregate E (row0 :: rest) = Ok tt s /\
    forall k c, obj_get (countryObjects s) k = Some c ->
      Js.ToString (name c) = k /\
      lastUpdatedBySourceAt c =
        Some (DateUTC (row_get row0 (COL_LAST_UPDATE (constants E)))).
Proof.
  destruct (aggregate_spec E row0 rest) as (s & Hrun & _ & Hlisted & Hnone & _).
  exists s. split; [exact Hrun|]. intros k c Hget.
  destruct (listed_dec (constants E) (row0 :: rest) k) as [Hk|Hk].
  - destruct (Hlisted k Hk) as (c' & Hc' & Hname & Hstamp & _).
    rewrite Hget in Hc'. injection Hc' as <-. split; assumption.
  - rewrite (Hnone k Hk) in Hget. discriminate.
Qed.

(** X5: [Object.values(countryObjects)] lists one accumulator per distinct
    key: the keys are pairwise distinct, they are the sentinel and the
    countries of the rows, except [__proto__], and each listed
    accumulator is the one a lookup of its key finds. *)
Theorem X5_one_accumulator_per_key (E : Env) (row0 : RawRow)
    (rest : list RawRow) :
  exists s, aggregate E (row0 :: rest) = Ok tt s /\
    NoDup (own (countryObjects s)).*1 /\
    (forall k, k ∈ (own (countryObjects s)).*1 <->
       k <> "__proto__" /\ listed (constants E) (row0 :: rest) k) /\
    forall k c, (k, c) ∈ own (countryObjects s) ->
      obj_get (countryObjects s) k = Some c.
Proof.
  destruct (aggregate_spec E row0 rest) as (s & Hrun & _ & _ & _ & Hkeys & Hnd).
  exists s. split; [exact Hrun|]. split; [exact Hnd|]. split; [exact Hkeys|].
  intros k c Hin. unfold obj_get.
  assert (k <> "__proto__") as Hp.
  { apply (Hkeys k). apply (list_elem_of_fmap_2 fst) in Hin. exact Hin. }
  rewrite decide_False by exact Hp. apply assoc_get_NoDup; assumption.
Qed.

(** ** The calls [saveDataToDb] makes *)

Section Persist.

Context (E : Env).

Lemma set_db_set_db v v' s : set_db v (set_db v' s) = set_db v s.
Proof. reflexivity. Qed.

Lemma forEach_dbCall_accepted calls : forall s,
  (forall j, (j < length calls)%nat -> dbRejects E (length (db s) + j) = false) ->
  forEach (dbCall E) calls s = Ok tt (set_db (db s ++ calls) s).
Proof.
  induction calls as [|c calls IH]; intros s Hok; cbn [forEach].
  - rewrite app_nil_r. destruct s; reflexivity.
  - rewrite bind_run. unfold dbCall at 1.
    rewrite <- (Nat.add_0_r (length (db s))), (Hok 0%nat) by (cbn; lia).
    rewrite IH.
    + cbn [db set_db]. rewrite <- app_assoc. reflexivity.
    + intros j Hj. cbn [db set_db]. rewrite length_app. cbn [length].
      replace (length (db s) + 1 + j)%nat with (length (db s) + S j)%nat by lia.
      apply Hok. cbn. lia.
Qed.

Lemma forEach_dbCall_rejected calls : forall s i,
  (i < length calls)%nat ->
  (forall j, (j < i)%nat -> dbRejects E (length (db s) + j) = false) ->
  dbRejects E (length (db s) + i) = true ->
  forEach (dbCall E) calls s =
  Throw DbRejected (set_db (db s ++ take (S i) calls) s).
Proof.
  induction calls as [|c calls IH]; intros s i Hi Hok Hrej; cbn [length] in Hi;
    [lia|].
  cbn [forEach]. rewrite bind_run. unfold dbCall at 1.
  destruct i as [|i].
  - rewrite Nat.add_0_r in Hrej. rewrite Hrej. cbn [take]. reflexivity.
  - rewrite <- (Nat.add_0_r (length (db s))), (Hok 0%nat) by lia.
    rewrite (IH _ i).
    + cbn [db set_db take]. rewrite <- app_assoc. reflexivity.
    + lia.
    + intros j Hj. cbn [db set_db]. rewrite length_app. cbn [length].
      replace (length (db s) + 1 + j)%nat with (length (db s) + S j)%nat by lia.
      apply Hok. lia.
    + cbn [db set_db]. rewrite length_app. cbn [length].
      replace (length (db s) + 1 + i)%nat with (length (db s) + S i)%nat by lia.
      exact Hrej.
Qed.

Lemma all_calls_before_close o i :
  (S i < length (all_calls o))%nat -> DbClose ∉ take (S i) (all_calls o).
Proof.
  unfold all_calls. intros Hi.
  rewrite app_assoc in *. rewrite length_app in Hi. cbn [length] in Hi.
  rewrite take_app_le by lia.
  intros Hin. apply (subseteq_take (S i)) in Hin.
  apply elem_of_app in Hin as [Hin|Hin].
  - apply elem_of_cons in Hin as [Hin|Hin]; [discriminate|].
    apply elem_of_cons in Hin as [Hin|Hin]; [discriminate|].
    apply elem_of_nil in Hin as [].
  - apply list_elem_of_fmap in Hin as (c & Hc & _). discriminate.
Qed.

End Persist.

(** X6: when the collaborator rejects no call, [saveDataToDb] returns after
    exactly these calls, in this order: connect, dropCollection, one insert
    per accumulator in the order of [Object.values], close; nothing else of
    the state changes. *)
Theorem X6_save_makes_all_calls (E : Env) (s : State) :
  (forall k, dbRejects E k = false) ->
  saveDataToDb E s =
  Ok tt (set_db (db s ++ [DbConnect; DbDropCollection]
                 ++ map DbInsert (Object_values (countryObjects s))
                 ++ [DbClose]) s).
Proof.
  intros Hok. rewrite saveDataToDb_forEach.
  apply forEach_dbCall_accepted. intros j _. apply Hok.
Qed.

Lemma X6_save_makes_all_calls_witness :
  let E := demo_env source_down in
  let s := final (aggregate E [usa_row; italy_row]) in
  saveDataToDb E s =
  Ok tt (set_db (db s ++ [DbConnect; DbDropCollection]
                 ++ map DbInsert (Object_values (countryObjects s))
                 ++ [DbClose]) s).
Proof.
  intros E s. apply (X6_save_makes_all_calls E s). intros k. reflexivity.
Defined.

(** X7: the first call the collaborator rejects ends [saveDataToDb] with
    that rejection: the calls made are those up to and including it, none
    follows, and unless the rejected call is close itself, close is never
    called. *)
Theorem X7_save_stops_at_first_rejection (E : Env) (s : State) (i : nat) :
  (i < length (all_calls (countryObjects s)))%nat ->
  (forall j, (j < i)%nat -> dbRejects E (length (db s) + j) = false) ->
  dbRejects E (length (db s) + i) = true ->
  saveDataToDb E s =
    Throw DbRejected
      (set_db (db s ++ take (S i) (all_calls (countryObjects s))) s) /\
  ((S i < length (all_calls (countryObjects s)))%nat ->
   DbClose ∉ take (S i) (all_calls (countryObjects s))).
Proof.
  intros Hi Hok Hrej. split.
  - rewrite saveDataToDb_forEach. apply forEach_dbCall_rejected; assumption.
  - apply all_calls_before_close.
Qed.

Lemma X7_save_stops_at_first_rejection_witness :
  let E := {| constants := spec_constants "https://example.org/reports/" "data";
              dirname := "/app/src"; now := 18628; remote := source_down;
              dbRejects := rejects_at 2 |} in
  let s := final (aggregate E [usa_row; italy_row]) in
  saveDataToDb E s =
    Throw DbRejected
      (set_db (db s ++ take 3 (all_calls (countryObjects s))) s) /\
  ((3 < length (all_calls (countryObjects s)))%nat ->
   DbClose ∉ take 3 (all_calls (countryObjects s))).
Proof.
  intros E s. apply (X7_save_stops_at_first_rejection E s 2).
  - vm_compute. lia.
  - intros j Hj. assert (j = 0 \/ j = 1)%nat as [->| ->] by lia; reflexivity.
  - reflexivity.
Defined.


(** ** How [downloadCsvFile] can end *)

Section Outcome.

Context (E : Env) (Hst : Host).

Lemma loop_ends_shift i n con ds r :
  not_served E Hst i ->
  loop_ends E Hst (i + 1) n con ds r -> loop_ends E Hst i (S n) con ds r.
Proof.
  intros Hns. unfold loop_ends.
  assert (forall k, (forall j, i + 1 <= j < k -> not_served E Hst j) ->
            forall j, i <= j < k -> not_served E Hst j) as Hshift.
  { intros k Hb j Hj. destruct (decide (j = i)) as [->|Hne];
      [exact Hns|apply Hb; lia]. }
  destruct r as [[] s1|e s1|s1].
  - intros (k & body & Hk & Hb & Hrest). exists k, body.
    split; [lia|]. split; [apply Hshift, Hb|exact Hrest].
  - intros (Hb & Hrest). split; [|exact Hrest].
    apply Hshift. intros j Hj. apply Hb. lia.
  - intros (He & (k & Hk & Hb & Hf) & Hrest). split; [exact He|].
    split; [|exact Hrest]. exists k. split; [lia|]. split; [apply Hshift, Hb|exact Hf].
  - intros ((k & p & Hk & Hb & Hf) & Hrest). split; [|exact Hrest].
    exists k, p. split; [lia|]. split; [apply Hshift, Hb|exact Hf].
Qed.

Lemma loop_outcome n : forall i s,
  loop_ends E Hst i n (console s) (dirs s) (downloadCsvFile_loop E Hst n i s).
Proof.
  induction n as [|n IH]; intros i s.
  - cbn. split; [intros j Hj; lia|split; reflexivity].
  - destruct (land_same s) as (_ & Hcon & _ & Hdirs).
    destruct (remote E (urlOf E Hst i)) as [b|p| |p] eqn:Hi.
    + rewrite (attempt_fetched_run E Hst n i s b Hi).
      exists i, b. split; [lia|]. split; [intros j Hj; lia|]. split; [exact Hi|].
      split; [reflexivity|]. split; [apply lookup_insert_eq|]. split; [reflexivity|].
      cbn [console dirs attempt_ok]. rewrite Hcon, Hdirs. split; reflexivity.
    + rewrite (attempt_failed_run E Hst n i s p Hi).
      apply loop_ends_shift; [right; exists p; exact Hi|].
      rewrite <- Hcon, <- Hdirs. apply (IH (i + 1) (attempt_failed E Hst i (land s))).
    + destruct (files (land s) !! pathOf E (fileNameOf E Hst i)) as [old|] eqn:Hf.
      * rewrite (attempt_refused_present E Hst n i s old Hi Hf).
        apply loop_ends_shift; [left; exact Hi|].
        rewrite <- Hcon, <- Hdirs.
        match goal with
        | |- loop_ends _ _ _ _ _ _ (downloadCsvFile_loop _ _ _ _ ?st) =>
            exact (IH (i + 1) st)
        end.
      * rewrite (attempt_refused_absent E Hst n i s Hi Hf).
        split; [reflexivity|]. split.
        -- exists i. split; [lia|]. split; [intros j Hj; lia|exact Hi].
        -- cbn [console dirs requested]. split; assumption.
    + rewrite (attempt_stuck_run E Hst n i s p Hi). split.
      * exists i, p. split; [lia|]. split; [intros j Hj; lia|exact Hi].
      * cbn [console dirs attempt_stuck]. split; assumption.
Qed.

Lemma with_data_dir_dirs s : pathDataDir E ∈ dirs (with_data_dir E s).
Proof.
  unfold with_data_dir. case_bool_decide as Hin; [exact Hin|].
  cbn [dirs set_dirs]. set_solver.
Qed.

(** The ways [downloadCsvFile] can end. *)
Lemma downloadCsvFile_outcome s :
  match downloadCsvFile E Hst s with
  | Ok _ s1 =>
      pathDataDir E ∈ dirs s1 /\
      ((exists k body, 0 <= k < 90 /\
          (forall j, 0 <= j < k -> not_served E Hst j) /\
          remote E (urlOf E Hst k) = Fetched body /\
          csvFileName s1 = fileNameOf E Hst k /\
          files s1 !! pathOf E (fileNameOf E Hst k) = Some body /\
          opening s1 = None /\
          console s1 =
            (console s ++ [("Download completed: " ++ fileNameOf E Hst k)%string])%list) \/
       ((forall j, 0 <= j < 90 -> not_served E Hst j) /\
        console s1 = (console s ++ [failure_line])%list))
  | Throw e s1 =>
      console s1 = console s /\
      ((e = MkdirFailed /\ s1 = s /\ (pathDataDir E ∉ dirs s) /\
        canMkdir Hst (pathDataDir E) = false) \/
       (e = ENOENT /\
        exists k, 0 <= k < 90 /\
          (forall j, 0 <= j < k -> not_served E Hst j) /\
          remote E (urlOf E Hst k) = FailedBeforeOpen))
  | Hang s1 =>
      console s1 = console s /\
      exists k partial, 0 <= k < 90 /\
        (forall j, 0 <= j < k -> not_served E Hst j) /\
        remote E (urlOf E Hst k) = Unsettled partial
  end.
Proof.
  assert (dir_ready E Hst s \/
          ((pathDataDir E ∉ dirs s) /\ canMkdir Hst (pathDataDir E) = false))
    as [Hdir|[Hout Hmk]].
  { destruct (decide (pathDataDir E ∈ dirs s)) as [Hin|Hout];
      [left; left; exact Hin|].
    destruct (canMkdir Hst (pathDataDir E)) eqn:Hmk;
      [left; right; exact Hmk|right; split; [exact Hout|reflexivity]]. }
  - rewrite (downloadCsvFile_run E Hst s Hdir).
    pose proof (loop_outcome tries 0 (with_data_dir E s)) as H.
    destruct (with_data_dir_same E s) as (_ & _ & Hcon & _ & _).
    pose proof (with_data_dir_dirs s) as Hd.
    rewrite Hcon in H. unfold loop_ends in H.
    destruct (downloadCsvFile_loop E Hst tries 0 _) as [[] s1|e s1|s1].
    + destruct H as (k & body & Hk & Hb & Hf & Hn & Hfile & Hop & Hc & Hds).
      split; [rewrite Hds; exact Hd|]. left. exists k, body.
      split; [unfold tries in Hk; lia|]. repeat (split; [assumption|]). exact Hc.
    + destruct H as (Hb & Hc & Hds). cbn [dirs console set_console].
      split; [rewrite Hds; exact Hd|]. right.
      split; [|rewrite Hc; reflexivity].
      intros j Hj. apply Hb. unfold tries. lia.
    + destruct H as (He & (k & Hk & Hb & Hf) & Hc & _).
      split; [exact Hc|]. right. split; [exact He|].
      exists k. split; [unfold tries in Hk; lia|]. split; assumption.
    + destruct H as ((k & p & Hk & Hb & Hf) & Hc & _).
      split; [exact Hc|].
      exists k, p. split; [unfold tries in Hk; lia|]. split; assumption.
  - rewrite (downloadCsvFile_no_dir E Hst s Hout Hmk).
    split; [reflexivity|]. left. repeat split; assumption.
Qed.

End Outcome.


(** The three ways but the return, on concrete sources. *)
Example download_ends_on_unlink :
  downloadCsvFile (demo_env source_fast_refusal) demo_host (new_App ∅ ∅) =
  Throw ENOENT
    (requested (demo_env source_fast_refusal) demo_host 0
       (set_dirs {["/app/src/data"]} (new_App ∅ ∅))).
Proof. vm_compute. reflexivity. Qed.

Example download_never_settles :
  exists s, downloadCsvFile (demo_env source_cut_off) demo_host (new_App ∅ ∅) = Hang s.
Proof. eexists. vm_compute. reflexivity. Qed.

Example download_ends_on_mkdir :
  downloadCsvFile (demo_env source_down)
    {| elapsed := fun _ => 0; canMkdir := fun _ => false |} (new_App ∅ ∅) =
  Throw MkdirFailed (new_App ∅ ∅).
Proof. vm_compute. reflexivity. Qed.

(** ** From [downloadCsvFile] to [setRowsData] *)

(** X9: from a state with the staging directory there or creatable and no
    open under way, [setRowsData] after [downloadCsvFile] reads the rows of
    the first candidate whose fetch succeeds, when every request before it
    fails after its file was opened; when all 90 requests fail so, it fails,
    for the file [csvFileName] names has been unlinked. *)
Theorem X9_rows_of_first_fetched_candidate (E : Env) (Hst : Host) (s : State) :
  opening s = None ->
  dir_ready E Hst s ->
  (forall k body, first_fetched E Hst k body ->
     exists s', (downloadCsvFile E Hst;; setRowsData E) s = Ok tt s' /\
       csvRows s' = body /\ csvFileName s' = fileNameOf E Hst k) /\
  (none_fetched E Hst ->
     exists s', (downloadCsvFile E Hst;; setRowsData E) s =
                Throw FileDoesNotExist s' /\
       csvFileName s' = fileNameOf E Hst 89 /\ csvRows s' = csvRows s).
Proof.
  intros Hop Hdir. split.
  - intros k body (Hk & Hbefore & Hfetch).
    destruct (download_first_success E Hst s k body Hop Hdir Hk Hbefore Hfetch)
      as (s1 & Hrun & Hop1 & _ & Hname & Hfile & _).
    exists (set_csvRows body s1). rewrite bind_run, Hrun.
    split; [apply (setRowsData_run_ok E s1 body Hop1 Hfile)|].
    split; [reflexivity|exact Hname].
  - intros Hnone.
    destruct (download_all_failed E Hst s Hop Hdir Hnone)
      as (s1 & Hrun & Hop1 & _ & Hname & _ & Hgone & _ & (Hcsv & _)).
    exists s1. rewrite bind_run, Hrun. split; [|split; [exact Hname|exact Hcsv]].
    rewrite setRowsData_run, (land_None s1 Hop1), Hname, (Hgone 89) by lia.
    reflexivity.
Qed.

Lemma X9_rows_of_first_fetched_candidate_witness :
  exists s',
    (downloadCsvFile (demo_env source_3_days_back) demo_host;;
     setRowsData (demo_env source_3_days_back)) (new_App ∅ ∅) = Ok tt s' /\
    csvRows s' = [usa_row; italy_row] /\
    csvFileName s' = fileNameOf (demo_env source_3_days_back) demo_host 3.
Proof.
  apply (proj1 (X9_rows_of_first_fetched_candidate
                  (demo_env source_3_days_back) demo_host (new_App ∅ ∅)
                  eq_refl (or_intror eq_refl)) 3).
  split; [lia|]. split; [|reflexivity].
  intros j Hj. exists [].
  assert (j = 0 \/ j = 1 \/ j = 2) as [->|[->| ->]] by lia; reflexivity.
Defined.

(** ** [init] as a whole *)

Lemma forEach_dbCall_console E calls : forall s,
  console (final (forEach (dbCall E) calls s)) = console s.
Proof.
  induction calls as [|c calls IH]; intros s; cbn [forEach]; [reflexivity|].
  rewrite bind_run. pose proof (dbCall_final E c s) as Hfin.
  destruct (dbCall E c s) as [[] s1|e1 s1|s1]; cbn [final] in *.
  - rewrite IH. subst s1. reflexivity.
  - subst s1. reflexivity.
  - subst s1. reflexivity.
Qed.

Lemma saveDataToDb_console E s :
  console (final (saveDataToDb E s)) = console s.
Proof. rewrite saveDataToDb_forEach. apply forEach_dbCall_console. Qed.

Lemma land_rest s :
  csvRows (land s) = csvRows s /\ countryObjects (land s) = countryObjects s /\
  db (land s) = db s /\ (forall f, total_of f (land s) = total_of f s) /\
  console (land s) = console s.
Proof.
  unfold land. destruct (opening s); repeat split; intros []; reflexivity.
Qed.

(** [init] once [downloadCsvFile] has returned, by what the staging file it
    names holds. *)
Lemma init_after_download E Hst s s1 :
  downloadCsvFile E Hst
    (set_console (console s ++ ["Downloading data..."]) s) = Ok tt s1 ->
  let s2 := land (set_console (console s1 ++ ["Saving data to database..."]) s1) in
  match files s2 !! pathOf E (csvFileName s1) with
  | None => init E Hst s = Throw FileDoesNotExist s2
  | Some [] => init E Hst s = Throw TypeError (set_csvRows [] s2)
  | Some (row0 :: rest) =>
      exists s4,
        (createCountryObjects E;; populateCountryObjects E)
          (set_csvRows (row0 :: rest) s2) = Ok tt s4 /\
        init E Hst s =
          match saveDataToDb E s4 with
          | Ok _ s5 => Ok tt (set_console (console s5 ++ ["Finished"]) s5)
          | Throw e s5 => Throw e s5
          | Hang s5 => Hang s5
          end
  end.
Proof.
  intros Hrun s2. rewrite init_run, Hrun, setRowsData_run.
  change (csvFileName (set_console (console s1 ++ ["Saving data to database..."]) s1))
    with (csvFileName s1).
  fold s2.
  destruct (files s2 !! pathOf E (csvFileName s1)) as [[|row0 rest]|];
    [| |reflexivity].
  - rewrite (createCountryObjects_empty E (set_csvRows [] s2) eq_refl).
    reflexivity.
  - destruct (stage_spec E (set_csvRows (row0 :: rest) s2) row0 rest eq_refl)
      as (s4 & Hstage & _).
    exists s4. split; [exact Hstage|].
    rewrite bind_run in Hstage.
    destruct (createCountryObjects E (set_csvRows (row0 :: rest) s2))
      as [[] s3|e3 s3|s3]; [|discriminate..].
    rewrite Hstage. reflexivity.
Qed.

(** X10: when the staging directory is there or creatable, a candidate is
    fetched with at least one row after requests that failed with their file
    opened, and the collaborator rejects no call, [init] returns: the console
    shows the four status lines, the rows are those fetched, the database has
    received connect, drop, one insert per accumulator in the order of
    [Object.values], close, and the accumulator of each key holds the sums of
    its rows, as long as they are at most 2^53. *)
Theorem X10_init_runs_to_the_end (E : Env) (Hst : Host)
    (fs : gmap string FileContent) (ds : gset string) (k : Z)
    (body : list RawRow) :
  pathDataDir E ∈ ds \/ canMkdir Hst (pathDataDir E) = true ->
  first_fetched E Hst k body ->
  body <> [] ->
  (forall n, dbRejects E n = false) ->
  exists s, init E Hst (new_App fs ds) = Ok tt s /\
    console s = ["Downloading data...";
                 "Download completed: " ++ fileNameOf E Hst k;
                 "Saving data to database..."; "Finished"] /\
    csvRows s = body /\
    db s = ([DbConnect; DbDropCollection]
            ++ map DbInsert (Object_values (countryObjects s)) ++ [DbClose])%list /\
    forall key, listed (constants E) body key ->
      exists c, obj_get (countryObjects s) key = Some c /\
        forall f,
          key_sum (constants E) f key body +
          (if decide (key = WORLDWIDE (constants E))
           then all_sum (constants E) f body else 0) <= 2 ^ 53 ->
          counter_of f c =
            key_sum (constants E) f key body +
            (if decide (key = WORLDWIDE (constants E))
             then all_sum (constants E) f body else 0).
Proof.
  intros Hdir (Hk & Hbefore & Hfetch) Hne Hok.
  set (s0 := set_console (console (new_App fs ds) ++ ["Downloading data..."])
               (new_App fs ds)).
  destruct (download_first_success E Hst s0 k body eq_refl Hdir Hk Hbefore Hfetch)
    as (s1 & Hrun & Hop1 & _ & Hname & Hfile & _ & Hcon & (Hcsv & Hco & Htot & Hdb) & _).
  pose proof (init_after_download E Hst (new_App fs ds) s1 Hrun) as Hinit.
  cbn zeta in Hinit.
  set (s1' := set_console (console s1 ++ ["Saving data to database..."]) s1) in *.
  assert (land s1' = s1') as Hland by (apply land_None; exact Hop1).
  rewrite Hland in Hinit.
  change (files s1') with (files s1) in Hinit. rewrite Hfile in Hinit.
  destruct body as [|row0 rest]; [congruence|].
  destruct Hinit as (s4 & Hstage & Hinit).
  destruct (stage_spec E (set_csvRows (row0 :: rest) s1') row0 rest eq_refl)
    as (s4' & Hstage' & _ & Hlisted & _ & _ & _ &
        (_ & Hcsv4 & _ & _ & Hcon4 & _ & Hdb4 & _)).
  rewrite Hstage in Hstage'. injection Hstage' as <-.
  rewrite Hinit, saveDataToDb_forEach.
  rewrite forEach_dbCall_accepted by (intros j _; apply Hok).
  eexists. split; [reflexivity|].
  cbn [console csvRows db countryObjects set_console set_db].
  split; [rewrite Hcon4; cbn [console set_csvRows]; subst s1';
          cbn [console set_console]; rewrite Hcon; reflexivity|].
  split; [exact Hcsv4|].
  split; [rewrite Hdb4; cbn [db set_csvRows]; subst s1'; cbn [db set_console];
          rewrite Hdb; reflexivity|].
  intros key Hkey. destruct (Hlisted key Hkey) as (c & Hc & _ & _ & Hsum).
  exists c. split; [exact Hc|]. intros f Hb.
  assert (total_of f (set_csvRows (row0 :: rest) s1') = 0) as Hz.
  { transitivity (total_of f s1); [destruct f; reflexivity|].
    rewrite Htot. destruct f; reflexivity. }
  rewrite Hsum; rewrite Hz; [reflexivity|lia|exact Hb].
Qed.

Lemma X10_init_runs_to_the_end_witness :
  let E := demo_env source_3_days_back in
  exists s, init E demo_host (new_App ∅ ∅) = Ok tt s /\
    console s = ["Downloading data...";
                 "Download completed: " ++ fileNameOf E demo_host 3;
                 "Saving data to database..."; "Finished"] /\
    csvRows s = [usa_row; italy_row] /\
    db s = ([DbConnect; DbDropCollection]
            ++ map DbInsert (Object_values (countryObjects s)) ++ [DbClose])%list /\
    forall key, listed (constants E) [usa_row; italy_row] key ->
      exists c, obj_get (countryObjects s) key = Some c /\
        forall f,
          key_sum (constants E) f key [usa_row; italy_row] +
          (if decide (key = WORLDWIDE (constants E))
           then all_sum (constants E) f [usa_row; italy_row] else 0) <= 2 ^ 53 ->
          counter_of f c =
            key_sum (constants E) f key [usa_row; italy_row] +
            (if decide (key = WORLDWIDE (constants E))
             then all_sum (constants E) f [usa_row; italy_row] else 0).
Proof.
  intros E.
  apply (X10_init_runs_to_the_end E demo_host ∅ ∅ 3 [usa_row; italy_row]).
  - right. reflexivity.
  - split; [lia|]. split; [|reflexivity].
    intros j Hj. exists [].
    assert (j = 0 \/ j = 1 \/ j = 2) as [->|[->| ->]] by lia; reflexivity.
  - discriminate.
  - intros n. reflexivity.
Defined.

(** The state [init] ends in has received no database call unless
    [saveDataToDb] was reached. *)
Lemma init_new_outcome E Hst fs ds :
  let s0 := set_console ["Downloading data..."] (new_App fs ds) in
  match downloadCsvFile E Hst s0 with
  | Ok _ s1 =>
      let s2 := land (set_console (console s1 ++ ["Saving data to database..."]) s1) in
      db s2 = [] /\ console s2 = (console s1 ++ ["Saving data to database..."])%list /\
      match files s2 !! pathOf E (csvFileName s1) with
      | None => init E Hst (new_App fs ds) = Throw FileDoesNotExist s2
      | Some [] => init E Hst (new_App fs ds) = Throw TypeError (set_csvRows [] s2)
      | Some (row0 :: rest) =>
          exists s4, db s4 = [] /\ console s4 = console s2 /\
            csvRows s4 = row0 :: rest /\
            init E Hst (new_App fs ds) =
              match saveDataToDb E s4 with
              | Ok _ s5 => Ok tt (set_console (console s5 ++ ["Finished"]) s5)
              | Throw e s5 => Throw e s5
              | Hang s5 => Hang s5
              end
      end
  | Throw e s1 => init E Hst (new_App fs ds) = Throw e s1 /\ db s1 = []
  | Hang s1 => init E Hst (new_App fs ds) = Hang s1 /\ db s1 = []
  end.
Proof.
  intros s0.
  pose proof (downloadCsvFile_untouched E Hst s0) as (_ & _ & _ & Hdb).
  change (db s0) with (@nil DbCall) in Hdb.
  destruct (downloadCsvFile E Hst s0) as [[] s1|e s1|s1] eqn:Hrun;
    cbn [final] in Hdb.
  - pose proof (init_after_download E Hst (new_App fs ds) s1 Hrun) as Hinit.
    cbn zeta in *.
    set (s1' := set_console (console s1 ++ ["Saving data to database..."]) s1) in *.
    destruct (land_rest s1') as (_ & _ & Hdb2 & _ & Hcon2).
    split; [rewrite Hdb2; exact Hdb|]. split; [rewrite Hcon2; reflexivity|].
    destruct (files (land s1') !! pathOf E (csvFileName s1)) as [[|row0 rest]|];
      [exact Hinit| |exact Hinit].
    destruct Hinit as (s4 & Hstage & Hinit).
    destruct (stage_spec E (set_csvRows (row0 :: rest) (land s1')) row0 rest eq_refl)
      as (s4' & Hstage' & _ & _ & _ & _ & _ &
          (_ & Hcsv4 & _ & _ & Hcon4 & _ & Hdb4 & _)).
    rewrite Hstage in Hstage'. injection Hstage' as <-.
    exists s4. split; [rewrite Hdb4; cbn [db set_csvRows]; rewrite Hdb2; exact Hdb|].
    split; [rewrite Hcon4; reflexivity|]. split; [exact Hcsv4|exact Hinit].
  - split; [|exact Hdb]. rewrite init_run.
    change (set_console (console (new_App fs ds) ++ ["Downloading data..."])
              (new_App fs ds)) with s0.
    rewrite Hrun. reflexivity.
  - split; [|exact Hdb]. rewrite init_run.
    change (set_console (console (new_App fs ds) ++ ["Downloading data..."])
              (new_App fs ds)) with s0.
    rewrite Hrun. reflexivity.
Qed.



(** A run that ends on the error of [unlinkSync], the file of the day
    before being there. *)
Example init_ends_on_unlink :
  exists s, init (demo_env source_fast_refusal) demo_host (new_App ∅ ∅) =
            Throw ENOENT s /\
    console s = ["Downloading data..."] /\ db s = [].
Proof. eexists. vm_compute. repeat split. Qed.

(** X12: the console of a run of [init] on a new [App].  The first line is
    "Downloading data...".  When [downloadCsvFile] returns, the second line
    reports the download, completed or failed, the third is "Saving data to
    database..." even after a failed download, and "Finished" follows exactly
    when [init] returns.  When [downloadCsvFile] throws or never settles,
    the first line is the only one and [init] does not return. *)
Theorem X12_console_lines (E : Env) (Hst : Host) (fs : gmap string FileContent)
    (ds : gset string) :
  let r := init E Hst (new_App fs ds) in
  match downloadCsvFile E Hst
          (set_console ["Downloading data..."] (new_App fs ds)) with
  | Ok _ _ =>
      exists line,
        (line = failure_line \/
         exists k, 0 <= k < 90 /\
           line = "Download completed: " ++ fileNameOf E Hst k) /\
        console (final r) =
          (["Downloading data..."; line; "Saving data to database..."]
           ++ match r with
              | Ok _ _ => ["Finished"]
              | _ => []
              end)%list
  | _ => console (final r) = ["Downloading data..."] /\
         forall s, r <> Ok tt s
  end.
Proof.
  intros r. subst r.
  pose proof (init_new_outcome E Hst fs ds) as H.
  pose proof (downloadCsvFile_outcome E Hst
                (set_console ["Downloading data..."] (new_App fs ds))) as Ho.
  cbn zeta in H.
  destruct (downloadCsvFile E Hst _) as [[] s1|e1 s1|s1].
  - destruct H as (_ & Hcon2 & H). destruct Ho as (_ & Ho).
    set (s1' := set_console (console s1 ++ ["Saving data to database..."]) s1) in *.
    assert (exists line,
              (line = failure_line \/
               exists k, 0 <= k < 90 /\
                 line = "Download completed: " ++ fileNameOf E Hst k) /\
              console (land s1') =
                ["Downloading data..."; line; "Saving data to database..."])
      as (line & Hline & Hcon).
    { destruct Ho as [(k & body & Hk & _ & _ & _ & _ & _ & Hc)|[_ Hc]].
      - eexists. split; [right; exists k; split; [exact Hk|reflexivity]|].
        rewrite Hcon2, Hc. reflexivity.
      - exists failure_line. split; [left; reflexivity|].
        rewrite Hcon2, Hc. reflexivity. }
    exists line. split; [exact Hline|].
    destruct (files (land s1') !! pathOf E (csvFileName s1)) as [[|row0 rest]|].
    + rewrite H. cbn [final console set_csvRows]. rewrite Hcon. reflexivity.
    + destruct H as (s4 & _ & Hcon4 & _ & H). rewrite H.
      pose proof (saveDataToDb_console E s4) as Hc.
      destruct (saveDataToDb E s4) as [[] s5|e5 s5|s5]; cbn [final] in *.
      * cbn [console set_console]. rewrite Hc, Hcon4, Hcon. reflexivity.
      * rewrite Hc, Hcon4, Hcon. reflexivity.
      * rewrite Hc, Hcon4, Hcon. reflexivity.
    + rewrite H. cbn [final]. rewrite Hcon. reflexivity.
  - destruct H as (H & _). destruct Ho as (Hc & _). rewrite H. cbn [final].
    split; [exact Hc|discriminate].
  - destruct H as (H & _). destruct Ho as (Hc & _). rewrite H. cbn [final].
    split; [exact Hc|discriminate].
Qed.

(** ** Sign and leading white space of a count *)

Lemma parseInt_skip_space c t :
  Js.isWhiteSpace c = true ->
  Js.parseInt (Js.Str (String c t)) = Js.parseInt (Js.Str t).
Proof.
  intros Hc. unfold Js.parseInt. cbn [Js.ToString Js.trimStart].
  rewrite Hc. reflexivity.
Qed.

Lemma plain_start_trim t : plain_start t = true -> Js.trimStart t = t.
Proof.
  destruct t as [|c t]; [reflexivity|]. cbn [plain_start Js.trimStart].
  intros H. apply andb_true_iff in H as [H _].
  apply andb_true_iff in H as [H _].
  apply negb_true_iff in H. rewrite H. reflexivity.
Qed.

Lemma plain_start_sign t : plain_start t = true -> Js.stripSign t = (1, t).
Proof.
  destruct t as [|c t]; [reflexivity|]. cbn [plain_start Js.stripSign].
  intros H. apply andb_true_iff in H as [H Hp].
  apply andb_true_iff in H as [_ Hm].
  apply negb_true_iff, bool_decide_eq_false in Hm, Hp.
  rewrite !decide_False by assumption. reflexivity.
Qed.

Lemma parseInt_minus t :
  plain_start t = true ->
  Js.parseInt (Js.Str ("-" ++ t)) = Z.opp <$> Js.parseInt (Js.Str t).
Proof.
  intros Ht. unfold Js.parseInt. cbn [Js.ToString].
  rewrite (plain_start_trim t Ht), (plain_start_sign t Ht).
  change (Js.trimStart ("-" ++ t)) with ("-" ++ t).
  change (Js.stripSign ("-" ++ t)) with (-1, t).
  cbv beta iota. destruct (Js.stripPrefix t) as [R s2].
  destruct (Js.parseDigits R s2 None) as [n|]; [|reflexivity].
  cbn [fmap option_fmap option_map]. f_equal.
  rewrite <- round_opp. f_equal. lia.
Qed.

Lemma parseInt_plus t :
  plain_start t = true ->
  Js.parseInt (Js.Str ("+" ++ t)) = Js.parseInt (Js.Str t).
Proof.
  intros Ht. unfold Js.parseInt. cbn [Js.ToString].
  rewrite (plain_start_trim t Ht), (plain_start_sign t Ht).
  change (Js.trimStart ("+" ++ t)) with ("+" ++ t).
  change (Js.stripSign ("+" ++ t)) with (1, t).
  cbv beta iota. reflexivity.
Qed.

Lemma getCaseCount_insert (row : RawRow) col t :
  getCaseCount (<[col := t]> row) [col] = cleaned (Js.parseInt (Js.Str t)).
Proof.
  rewrite getCaseCount_cleaned. unfold row_get, RawRow in *.
  rewrite lookup_insert_eq. reflexivity.
Qed.

(** X13: the sign and the white space in front of a count do not matter:
    a text that starts with neither gives the same cleaned count with a
    minus or a plus sign in front, and with white space before that. *)
Theorem X13_sign_and_space_ignored (row : RawRow) (col t : string) (c : ascii) :
  plain_start t = true ->
  Js.isWhiteSpace c = true ->
  getCaseCount (<[col := "-" ++ t]> row) [col] =
    getCaseCount (<[col := t]> row) [col] /\
  getCaseCount (<[col := "+" ++ t]> row) [col] =
    getCaseCount (<[col := t]> row) [col] /\
  getCaseCount (<[col := String c ("-" ++ t)]> row) [col] =
    getCaseCount (<[col := t]> row) [col].
Proof.
  intros Ht Hc. rewrite !getCaseCount_insert.
  rewrite (parseInt_skip_space c _ Hc), (parseInt_minus t Ht), (parseInt_plus t Ht).
  destruct (Js.parseInt (Js.Str t)) as [n|]; cbn; repeat split; lia.
Qed.

Lemma X13_sign_and_space_ignored_witness :
  getCaseCount (<["Recovered" := "-" ++ "50"]> usa_row) ["Recovered"] =
    getCaseCount (<["Recovered" := "50"]> usa_row) ["Recovered"] /\
  getCaseCount (<["Recovered" := "+" ++ "50"]> usa_row) ["Recovered"] =
    getCaseCount (<["Recovered" := "50"]> usa_row) ["Recovered"] /\
  getCaseCount (<["Recovered" := String " " ("-" ++ "50")]> usa_row) ["Recovered"] =
    getCaseCount (<["Recovered" := "50"]> usa_row) ["Recovered"].
Proof.
  apply (X13_sign_and_space_ignored usa_row "Recovered" "50" " "); reflexivity.
Defined.


(** ** Aggregation on an [App] that has run before *)

(** X14: [createCountryObjects] files new accumulators, at zero, over any
    already there, but the running totals of [this] are not reset: after the
    stage the worldwide accumulator holds the totals the stage started with,
    plus the sums of the rows; each sum is held as long as it is at most
    2^53 and the total it starts from is not negative. *)
Theorem X14_totals_carry_over (E : Env) (s : State) (row0 : RawRow)
    (rest : list RawRow) :
  csvRows s = row0 :: rest ->
  exists s' cw,
    (createCountryObjects E;; populateCountryObjects E) s = Ok tt s' /\
    obj_get (countryObjects s') (WORLDWIDE (constants E)) = Some cw /\
    (forall f, 0 <= total_of f s ->
       total_of f s + all_sum (constants E) f (row0 :: rest) <= 2 ^ 53 ->
       total_of f s' =
         total_of f s + all_sum (constants E) f (row0 :: rest)) /\
    (forall f, 0 <= total_of f s ->
       total_of f s + all_sum (constants E) f (row0 :: rest)
       + key_sum (constants E) f (WORLDWIDE (constants E)) (row0 :: rest)
       <= 2 ^ 53 ->
       counter_of f cw =
         total_of f s + all_sum (constants E) f (row0 :: rest)
         + key_sum (constants E) f (WORLDWIDE (constants E)) (row0 :: rest)) /\
    forall k, listed (constants E) (row0 :: rest) k ->
      k <> WORLDWIDE (constants E) ->
      exists c, obj_get (countryObjects s') k = Some c /\
        forall f, key_sum (constants E) f k (row0 :: rest) <= 2 ^ 53 ->
          counter_of f c = key_sum (constants E) f k (row0 :: rest).
Proof.
  intros Hrows.
  destruct (stage_spec E s row0 rest Hrows)
    as (s' & Hrun & Htot & Hlisted & _).
  destruct (Hlisted (WORLDWIDE (constants E))) as (cw & Hcw & _ & _ & Hsum);
    [left; reflexivity|].
  exists s', cw. split; [exact Hrun|]. split; [exact Hcw|]. split; [exact Htot|].
  split.
  - intros f H0 Hb. specialize (Hsum f (fun _ => H0)).
    rewrite decide_True in Hsum by reflexivity.
    rewrite Hsum; [lia|unfold exact_bound; lia].
  - intros k Hk Hne. destruct (Hlisted k Hk) as (c & Hc & _ & _ & Hsumc).
    exists c. split; [exact Hc|]. intros f Hb.
    specialize (Hsumc f (fun Heq => False_ind _ (Hne Heq))).
    rewrite decide_False in Hsumc by exact Hne.
    rewrite Hsumc; [lia|unfold exact_bound; lia].
Qed.

Lemma X14_totals_carry_over_witness :
  let E := demo_env source_down in
  let s := add_totals 5 100 45 50 (set_csvRows [usa_row; italy_row] (new_App ∅ ∅)) in
  exists s' cw,
    (createCountryObjects E;; populateCountryObjects E) s = Ok tt s' /\
    obj_get (countryObjects s') (WORLDWIDE (constants E)) = Some cw /\
    (forall f, 0 <= total_of f s ->
       total_of f s + all_sum (constants E) f (usa_row :: [italy_row]) <= 2 ^ 53 ->
       total_of f s' =
         total_of f s + all_sum (constants E) f (usa_row :: [italy_row])) /\
    (forall f, 0 <= total_of f s ->
       total_of f s + all_sum (constants E) f (usa_row :: [italy_row])
       + key_sum (constants E) f (WORLDWIDE (constants E)) (usa_row :: [italy_row])
       <= 2 ^ 53 ->
       counter_of f cw =
         total_of f s + all_sum (constants E) f (usa_row :: [italy_row])
         + key_sum (constants E) f (WORLDWIDE (constants E)) (usa_row :: [italy_row])) /\
    forall k, listed (constants E) (usa_row :: [italy_row]) k ->
      k <> WORLDWIDE (constants E) ->
      exists c, obj_get (countryObjects s') k = Some c /\
        forall f, key_sum (constants E) f k (usa_row :: [italy_row]) <= 2 ^ 53 ->
          counter_of f c = key_sum (constants E) f k (usa_row :: [italy_row]).
Proof.
  intros E s.
  apply (X14_totals_carry_over E s usa_row [italy_row]).
  reflexivity.
Defined.

Example second_run_doubles_worldwide :
  let E := demo_env source_down in
  let s := final (aggregate E [usa_row; italy_row]) in
  (obj_get (countryObjects
              (final ((createCountryObjects E;; populateCountryObjects E) s)))
     "Worldwide") ≫= (fun c => Some (confirmed c)) = Some 200.
Proof. vm_compute. reflexivity. Qed.

(** ** The order of [Object.values] *)

Lemma uniq_snoc_fresh l : forall seen (w : Js.Value),
  w ∉ l -> w ∉ seen -> uniq seen (l ++ [w]) = (uniq seen l ++ [w])%list.
Proof.
  induction l as [|x l IH]; intros seen w Hl Hseen; cbn [uniq app].
  - rewrite decide_False by exact Hseen. reflexivity.
  - apply not_elem_of_cons in Hl as [Hne Hl].
    destruct (decide (x ∈ seen)); [apply IH; assumption|].
    cbn [app]. f_equal. apply IH; [exact Hl|].
    apply not_elem_of_cons. split; assumption.
Qed.

Lemma file_blanks_app d a b o :
  file_blanks d (a ++ b) o = file_blanks d b (file_blanks d a o).
Proof. unfold file_blanks. apply fold_left_app. Qed.

Lemma assoc_set_absent l k c :
  k ∉ l.*1 -> assoc_set l k c = (l ++ [(k, c)])%list.
Proof.
  induction l as [|[k1 c1] l IH]; cbn; intros Hk; [reflexivity|].
  apply not_elem_of_cons in Hk as [Hne Hk].
  rewrite decide_False by congruence. rewrite (IH Hk). reflexivity.
Qed.

(** The keys of [Object.values] after the stage are those
    [createCountryObjects] filed, in the same order. *)
Lemma stage_key_order E s row0 rest :
  csvRows s = row0 :: rest ->
  exists s',
    (createCountryObjects E;; populateCountryObjects E) s = Ok tt s' /\
    (own (countryObjects s')).*1 =
    (own (file_blanks (DateUTC (row_get row0 (COL_LAST_UPDATE (constants E))))
            (getCountryNamesArray E s) (countryObjects s))).*1.
Proof.
  intros Hrows.
  destruct (createCountryObjects_spec E s row0 rest Hrows)
    as (s1 & Hrun1 & Hco1 & _ & Hrest1).
  assert (csvRows s1 = row0 :: rest) as Hrows1
    by (destruct Hrest1 as (_ & -> & _); exact Hrows).
  destruct (populate_rows_spec E (row0 :: rest) s1)
    as (s2 & Hrun2 & _ & Hkeys2 & _ & Hown2 & _).
  { intros r Hr.
    destruct (file_blanks_get_blank
                (DateUTC (row_get row0 (COL_LAST_UPDATE (constants E))))
                (getCountryNamesArray E s) (countryObjects s)
                (row_get r (COL_COUNTRY (constants E)))) as (v & _ & Hv).
    - apply getCountryNamesArray_spec. right. exists r.
      split; [rewrite Hrows; exact Hr|reflexivity].
    - rewrite Hco1. unfold country_key. rewrite Hv. eexists; reflexivity. }
  destruct (file_blanks_get_blank
              (DateUTC (row_get row0 (COL_LAST_UPDATE (constants E))))
              (getCountryNamesArray E s) (countryObjects s)
              (Js.Str (WORLDWIDE (constants E)))) as (vw & _ & Hvw).
  { apply getCountryNamesArray_spec. left; reflexivity. }
  rewrite <- Hco1 in Hvw. cbn [Js.ToString] in Hvw.
  destruct (Hkeys2 _ _ Hvw) as (cw & Hcw & _).
  rewrite <- Hrows1 in Hrun2.
  eexists. split.
  - rewrite bind_run, Hrun1.
    apply (populateCountryObjects_run E s1 s2 cw Hrun2 Hcw).
  - cbn [countryObjects set_countryObjects].
    rewrite (obj_set_keys_present _ _ cw) by exact Hcw.
    rewrite Hown2, Hco1. reflexivity.
Qed.

Lemma other_entries_app l1 l2 :
  other_entries (l1 ++ l2) = (other_entries l1 ++ other_entries l2)%list.
Proof.
  induction l1 as [|kc l1 IH]; cbn [app other_entries]; [reflexivity|].
  destruct (Js.arrayIndex kc.1); [exact IH|]. cbn [app]. rewrite IH. reflexivity.
Qed.

(** A property created last, under a key that spells no array index, is the
    last one listed. *)
Lemma Object_entries_last o k c :
  last (own o) = Some (k, c) -> Js.arrayIndex k = None ->
  last (Object_entries o) = Some (k, c).
Proof.
  intros Hlast Hk. apply last_Some in Hlast as (l' & Hl').
  unfold Object_entries. rewrite Hl', other_entries_app.
  cbn [other_entries fst]. rewrite Hk, app_assoc. apply last_snoc.
Qed.

(** X15: when no row names the sentinel as its country and the sentinel
    spells no array index, the worldwide accumulator is the last one
    [Object.values] lists, so the last one inserted. *)
Theorem X15_worldwide_listed_last (E : Env) (rows : list RawRow) :
  rows <> [] ->
  WORLDWIDE (constants E) <> "__proto__" ->
  Js.arrayIndex (WORLDWIDE (constants E)) = None ->
  (forall row, row ∈ rows -> country_key (constants E) row <> WORLDWIDE (constants E)) ->
  exists s cw, aggregate E rows = Ok tt s /\
    obj_get (countryObjects s) (WORLDWIDE (constants E)) = Some cw /\
    last (Object_values (countryObjects s)) = Some cw.
Proof.
  intros Hne Hproto Hindex Hrows. destruct rows as [|row0 rest]; [congruence|].
  destruct (aggregate_spec E row0 rest) as (s & Hagg & _ & _ & _ & _ & Hnd).
  pose proof Hagg as Hrun. unfold aggregate in Hrun.
  destruct (stage_key_order E (set_csvRows (row0 :: rest) (new_App ∅ ∅)) row0 rest eq_refl)
    as (s' & Hrun' & Hkeys).
  rewrite Hrun in Hrun'. injection Hrun' as <-.
  assert (last (own (countryObjects s)).*1 = Some (WORLDWIDE (constants E)))
    as Hlast.
  { rewrite Hkeys.
    unfold getCountryNamesArray. cbn [csvRows set_csvRows countryObjects new_App].
    set (names := map (fun row => row_get row (COL_COUNTRY (constants E))) (row0 :: rest)).
    assert (forall v, v ∈ names -> Js.ToString v <> WORLDWIDE (constants E)) as Hnames.
    { intros v Hv. apply list_elem_of_fmap in Hv as (row & -> & Hrow).
      apply (Hrows row Hrow). }
    rewrite uniq_snoc_fresh, file_blanks_app.
    - cbn [file_blanks fold_left getName blank setLastUpdatedBySourceAt setName
           name Js.ToString].
      unfold obj_set at 1. rewrite decide_False by exact Hproto. cbn [own].
      rewrite assoc_set_absent.
      + rewrite fmap_app.
        change ([(WORLDWIDE (constants E), ?c)].*1) with [WORLDWIDE (constants E)].
        apply last_snoc.
      + rewrite file_blanks_keys. cbn [own empty_object fmap list_fmap].
        intros [H|(_ & v & Hv & Hkv)]; [apply elem_of_nil in H as []|].
        apply uniq_spec in Hv as [Hv _]. apply (Hnames v Hv Hkv).
    - intros Hin. apply (Hnames _ Hin). reflexivity.
    - apply not_elem_of_nil. }
  rewrite fmap_last in Hlast.
  destruct (last (own (countryObjects s))) as [[k cw]|] eqn:Hown; [|discriminate].
  injection Hlast as ->.
  exists s, cw. split; [exact Hagg|]. split.
  - unfold obj_get. rewrite decide_False by exact Hproto.
    apply assoc_get_NoDup; [exact Hnd|].
    apply last_Some in Hown as (l' & ->). apply elem_of_app. right.
    apply list_elem_of_singleton. reflexivity.
  - unfold Object_values. rewrite fmap_last.
    rewrite (Object_entries_last _ _ cw Hown Hindex). reflexivity.
Qed.

Lemma X15_worldwide_listed_last_witness :
  exists s cw, aggregate (demo_env source_down) [usa_row; italy_row] = Ok tt s /\
    obj_get (countryObjects s) "Worldwide" = Some cw /\
    last (Object_values (countryObjects s)) = Some cw.
Proof.
  apply (X15_worldwide_listed_last (demo_env source_down) [usa_row; italy_row]).
  - discriminate.
  - discriminate.
  - reflexivity.
  - intros row Hin.
    apply elem_of_cons in Hin as [->|Hin]; [vm_compute; discriminate|].
    apply elem_of_cons in Hin as [->|Hin]; [vm_compute; discriminate|].
    apply elem_of_nil in Hin as [].
Defined.

(** A country whose name spells an array index is listed, and so inserted,
    before the others, whatever the order of the rows. *)
Example index_like_country_listed_first :
  (Object_entries
     (countryObjects
        (final (aggregate (demo_env source_down)
                  [usa_row;
                   csv_row "42" "7" "0" "0" "0" "2021-01-01 04:00:00"])))).*1 =
  ["42"; "USA"; "Worldwide"].
Proof. vm_compute. reflexivity. Qed.

